(** * CODE_ALCHEMY: webhook ingestion, security manager and agent dispatch

    Shallow embedding of
      - [src/web/n8n_integration/security_manager.py] (module [Security]),
      - [src/web/n8n_integration/webhook_handler.py]  (module [Webhook]),
      - [src/agents/agent_manager.py] and
        [src/agents/base/agent_interface.py]          (module [Agents]),
    followed by the properties of the natural-language specification.

    Conventions.  Python dictionaries whose iteration order matters are
    association lists, the others are [gmap]s.  A Python call that may raise
    returns an [outcome]; a method that mutates [self] returns the new
    object next to its outcome.  The webhook dictionaries, which the history
    and the queue share, live in a store and are named by reference.
    Wall-clock readings ([time.time()], [datetime.now()]) are inputs of the
    model: the caller passes the values the clock returned, in the order the
    source reads them.  [time.time()] and elapsed times are floats in the
    source and exact rationals here.  Log calls are kept for the webhook
    handler, where a property speaks of them, and left out elsewhere. *)

From Stdlib Require Import ZArith QArith Lqa Ascii String.
From stdpp Require Import gmap strings list.

Local Open Scope Z_scope.

(** ** Python values, exceptions *)

(** The JSON-shaped values that travel in [Dict[str, Any]] bags. *)
#[warnings="-register-all"]
Inductive pyval :=
| PNone
| PBool (b : bool)
| PInt (z : Z)
| PFloat (q : Q)
| PStr (s : string)
| PList (l : list pyval)
| PDict (d : list (string * pyval)).

(** [type(v).__name__], as it shows up in an [AttributeError] message. *)
Definition type_name (v : pyval) : string :=
  match v with
  | PNone => "NoneType"
  | PBool _ => "bool"
  | PInt _ => "int"
  | PFloat _ => "float"
  | PStr _ => "str"
  | PList _ => "list"
  | PDict _ => "dict"
  end.

(** Python truthiness, [bool(v)]. *)
Definition truthy (v : pyval) : bool :=
  match v with
  | PNone => false
  | PBool b => b
  | PInt z => negb (z =? 0)
  | PFloat q => negb (Qeq_bool q 0)
  | PStr s => negb (String.eqb s EmptyString)
  | PList l => match l with [] => false | _ => true end
  | PDict d => match d with [] => false | _ => true end
  end.

(** An exception object: its class name and [str(e)]. *)
Record exn := PyExc { exc_class : string; exc_message : string }.

(** [str(e)] *)
Definition str_exn (e : exn) : string := exc_message e.

Inductive outcome (E A : Type) :=
| Return (a : A)
| Raise (e : E).
Arguments Return {E A} a.
Arguments Raise {E A} e.

(** ** Ordered dictionaries

    A Python [dict] iterates in insertion order and assigning to a key that is
    present keeps its position. *)

Section Dict.
Context {V : Type}.

Definition dict_keys (d : list (string * V)) : list string := d.*1.
Definition dict_values (d : list (string * V)) : list V := d.*2.

Fixpoint dict_get (k : string) (d : list (string * V)) : option V :=
  match d with
  | [] => None
  | (k', v) :: d' => if decide (k' = k) then Some v else dict_get k d'
  end.

Fixpoint dict_setitem (k : string) (v : V) (d : list (string * V))
  : list (string * V) :=
  match d with
  | [] => [(k, v)]
  | (k', v') :: d' =>
      if decide (k' = k) then (k, v) :: d' else (k', v') :: dict_setitem k v d'
  end.
End Dict.

(** ** SHA-256 ([hashlib.sha256(...).hexdigest()]), FIPS 180-4 *)

Module SHA256.

Definition w32 (x : Z) : Z := Z.land x 0xffffffff.
Definition add32 (x y : Z) : Z := w32 (x + y).
Definition rotr (n x : Z) : Z :=
  Z.lor (Z.shiftr x n) (w32 (Z.shiftl x (32 - n))).
Definition shr (n x : Z) : Z := Z.shiftr x n.

Definition Ch (x y z : Z) : Z := Z.lxor (Z.land x y) (Z.land (Z.lnot x) z).
Definition Maj (x y z : Z) : Z :=
  Z.lxor (Z.lxor (Z.land x y) (Z.land x z)) (Z.land y z).
Definition Sigma0 (x : Z) : Z := Z.lxor (Z.lxor (rotr 2 x) (rotr 13 x)) (rotr 22 x).
Definition Sigma1 (x : Z) : Z := Z.lxor (Z.lxor (rotr 6 x) (rotr 11 x)) (rotr 25 x).
Definition sigma0 (x : Z) : Z := Z.lxor (Z.lxor (rotr 7 x) (rotr 18 x)) (shr 3 x).
Definition sigma1 (x : Z) : Z := Z.lxor (Z.lxor (rotr 17 x) (rotr 19 x)) (shr 10 x).

(** The round constants are the first 32 bits of the fractional parts of the
    cube roots of the first 64 primes, the initial hash value those of the
    square roots of the first 8. *)
Definition is_prime (n : Z) : bool :=
  (1 <? n) && forallb (fun d => negb (n mod d =? 0))
                      (List.filter (fun d => d * d <=? n) (Z.of_nat <$> seq 2 20)).

Definition primes : list Z := List.filter is_prime (Z.of_nat <$> seq 2 310).

(** Integer cube root of [n], for [n] below [2 ^ (3 * bits)]. *)
Fixpoint icbrt (bits : nat) (n r : Z) : Z :=
  match bits with
  | O => r
  | S b =>
      let c := r + 2 ^ Z.of_nat b in
      icbrt b n (if c * c * c <=? n then c else r)
  end.

Definition K : list Z :=
  Eval vm_compute in
    (fun p => w32 (icbrt 36 (p * 2 ^ 96) 0)) <$> take 64 primes.

Definition H0 : list Z :=
  Eval vm_compute in
    (fun p => w32 (Z.sqrt (p * 2 ^ 64))) <$> take 8 primes.

(** Big-endian encoding of [x] on [n] bytes. *)
Fixpoint be_bytes (n : nat) (x : Z) : list Z :=
  match n with
  | O => []
  | S n' => Z.land (Z.shiftr x (8 * Z.of_nat n')) 0xff :: be_bytes n' x
  end.

Definition be_word (bs : list Z) : Z :=
  fold_left (fun acc b => Z.lor (Z.shiftl acc 8) b) bs 0.

(** Message, one [0x80] byte, zeros up to 56 modulo 64, bit length on 8 bytes. *)
Definition pad (msg : list Z) : list Z :=
  let len := Z.of_nat (length msg) in
  let zeros := Z.to_nat ((55 - len) mod 64) in
  msg ++ [0x80] ++ replicate zeros 0 ++ be_bytes 8 (8 * len).

Fixpoint chunks (fuel n : nat) (l : list Z) : list (list Z) :=
  match fuel with
  | O => []
  | S fuel' =>
      match l with
      | [] => []
      | _ => take n l :: chunks fuel' n (drop n l)
      end
  end.

(** The message schedule, most recent word first: [extend k ws] adds [k] words. *)
Fixpoint extend (k : nat) (rev_ws : list Z) : list Z :=
  match k with
  | O => rev_ws
  | S k' =>
      let w i := nth i rev_ws 0 in
      let next := add32 (add32 (sigma1 (w 1%nat)) (w 6%nat))
                        (add32 (sigma0 (w 14%nat)) (w 15%nat)) in
      extend k' (next :: rev_ws)
  end.

Definition schedule (block : list Z) : list Z :=
  rev (extend 48 (rev (be_word <$> chunks 16 4 block))).

Definition round (st : list Z) (kw : Z * Z) : list Z :=
  match st with
  | [a; b; c; d; e; f; g; h] =>
      let t1 := add32 (add32 (add32 h (Sigma1 e)) (add32 (Ch e f g) kw.1)) kw.2 in
      let t2 := add32 (Sigma0 a) (Maj a b c) in
      [add32 t1 t2; a; b; c; add32 d t1; e; f; g]
  | _ => st
  end.

Definition compress (h : list Z) (block : list Z) : list Z :=
  zip_with add32 h (fold_left round (zip K (schedule block)) h).

Definition digest (msg : list Z) : list Z :=
  let padded := pad msg in
  let blocks := chunks (length padded) 64 padded in
  mjoin (be_bytes 4 <$> fold_left compress blocks H0).

Definition hex_digit (n : Z) : ascii :=
  nth (Z.to_nat n) (list_ascii_of_string "0123456789abcdef") "0"%char.

Definition hex (bs : list Z) : string :=
  string_of_list_ascii
    (mjoin ((fun b => [hex_digit (Z.shiftr b 4); hex_digit (Z.land b 0xf)]) <$> bs)).

(** [s.encode()]: a [string] is its own sequence of (UTF-8) bytes. *)
Definition encode (s : string) : list Z :=
  (fun c => Z.of_N (N_of_ascii c)) <$> list_ascii_of_string s.

Definition hexdigest (s : string) : string := hex (digest (encode s)).

End SHA256.

(** ** security_manager.py *)

Module Security.

Inductive http_error :=
| HTTPException (status_code : Z) (detail : string)
| StopIteration.

Record SecurityManager := mkSecurityManager {
  api_keys : list (string * string);
  rate_limit_window : Q;
  rate_limit_requests : Z;
  request_counts : gmap string (list Q);
  enable_ip_whitelist : bool;
  allowed_ips : list string
}.

Definition set_api_keys (d : list (string * string)) (self : SecurityManager) :=
  mkSecurityManager d (rate_limit_window self) (rate_limit_requests self)
    (request_counts self) (enable_ip_whitelist self) (allowed_ips self).

Definition set_request_counts (c : gmap string (list Q)) (self : SecurityManager) :=
  mkSecurityManager (api_keys self) (rate_limit_window self)
    (rate_limit_requests self) c (enable_ip_whitelist self) (allowed_ips self).

(** [SecurityManager.__init__] *)
Definition init : SecurityManager :=
  {| api_keys := [ ("n8n_main", "sk_codealchemy_n8n_2025");
                   ("n8n_monitoring", "sk_codealchemy_monitor_2025");
                   ("n8n_automation", "sk_codealchemy_auto_2025") ];
     rate_limit_window := 60;
     rate_limit_requests := 100;
     request_counts := ∅;
     enable_ip_whitelist := true;
     allowed_ips := ["127.0.0.1"; "localhost"; "::1"] |}.

Definition Unauthorized : http_error := HTTPException 401 "Invalid API key".
Definition RateLimited : http_error :=
  HTTPException 429 "Rate limit exceeded. Maximum 100 requests per minute.".
Definition Forbidden : http_error := HTTPException 403 "IP address not authorized".

(** [validate_api_key]: membership in [api_keys.values()], then the first
    name, in dictionary order, whose key is the one presented. *)
Definition validate_api_key (api_key : string) (self : SecurityManager)
  : outcome http_error string :=
  if bool_decide (api_key ∉ dict_values (api_keys self)) then Raise Unauthorized
  else
    match List.find (fun item => bool_decide (item.2 = api_key)) (api_keys self) with
    | Some (name, _) => Return name
    | None => Raise StopIteration
    end.

(** [a < b] on rationals, as a boolean. *)
Definition Qltb (a b : Q) : bool := (Qnum a * QDen b <? Qnum b * QDen a)%Z.

(** The comprehension of [check_rate_limit]: the requests still inside the
    window at [current_time]. *)
Definition recent (window current_time : Q) (reqs : list Q) : list Q :=
  List.filter (fun req_time => Qltb (current_time - req_time) window) reqs.

(** [check_rate_limit]; [current_time] is the reading of [time.time()]. *)
Definition check_rate_limit (api_key : string) (current_time : Q)
    (self : SecurityManager) : outcome http_error unit * SecurityManager :=
  let counts :=
    match request_counts self !! api_key with
    | None => <[api_key := []]> (request_counts self)
    | Some _ => request_counts self
    end in
  let kept :=
    recent (rate_limit_window self) current_time (default [] (counts !! api_key)) in
  let counts := <[api_key := kept]> counts in
  if (Z.of_nat (length kept) >=? rate_limit_requests self)%Z then
    (Raise RateLimited, set_request_counts counts self)
  else
    (Return tt, set_request_counts (<[api_key := kept ++ [current_time]]> counts) self).

(** [validate_ip_address], on [request.client.host]. *)
Definition validate_ip_address (client_ip : string) (self : SecurityManager)
  : outcome http_error unit :=
  if negb (enable_ip_whitelist self) then Return tt
  else if bool_decide (client_ip ∉ allowed_ips self) then Raise Forbidden
  else Return tt.

(** [rotate_api_key] *)
Definition rotate_api_key (key_name new_key : string) (self : SecurityManager)
  : bool * SecurityManager :=
  if bool_decide (key_name ∉ dict_keys (api_keys self)) then (false, self)
  else
    let hashed_key := SHA256.hexdigest new_key in
    (true, set_api_keys (dict_setitem key_name hashed_key (api_keys self)) self).

(** The window of [api_key], empty when the key was never seen. *)
Definition window_of (api_key : string) (self : SecurityManager) : list Q :=
  default [] (request_counts self !! api_key).

(** A run of calls to [check_rate_limit] for one key, one per clock reading. *)
Fixpoint check_all (api_key : string) (times : list Q) (self : SecurityManager)
  : list (outcome http_error unit) * SecurityManager :=
  match times with
  | [] => ([], self)
  | t :: times' =>
      let '(r, self1) := check_rate_limit api_key t self in
      let '(rs, self2) := check_all api_key times' self1 in
      (r :: rs, self2)
  end.

(** Each request of [ts] comes less than [W] after every request before it. *)
Fixpoint burst (W : Q) (ts : list Q) : Prop :=
  match ts with
  | [] => True
  | t :: ts' => (forall t', t' ∈ ts' -> (t' - t < W)%Q) /\ burst W ts'
  end.

(** [get_api_key_from_header], on [credentials.credentials]. *)
Definition get_api_key_from_header (credentials : string) (self : SecurityManager)
  : outcome http_error string :=
  validate_api_key credentials self.

(** [secure_endpoint], on [request.client.host], [api_key.credentials] and the
    reading of [time.time()]. *)
Definition secure_endpoint (client_ip credentials : string) (current_time : Q)
    (self : SecurityManager) : outcome http_error string * SecurityManager :=
  match validate_ip_address client_ip self with
  | Raise e => (Raise e, self)
  | Return _ =>
      match validate_api_key credentials self with
      | Raise e => (Raise e, self)
      | Return key_name =>
          match check_rate_limit credentials current_time self with
          | (Raise e, self') => (Raise e, self')
          | (Return _, self') => (Return key_name, self')
          end
      end
  end.

Record security_status := mkSecurityStatus {
  api_keys_configured : nat;
  status_rate_limit_window : Q;
  status_rate_limit_requests : Z;
  ip_whitelist_enabled : bool;
  status_allowed_ips : list string;
  active_requests : gmap string nat
}.

(** [get_security_status] *)
Definition get_security_status (self : SecurityManager) : security_status :=
  {| api_keys_configured := length (api_keys self);
     status_rate_limit_window := rate_limit_window self;
     status_rate_limit_requests := rate_limit_requests self;
     ip_whitelist_enabled := enable_ip_whitelist self;
     status_allowed_ips := allowed_ips self;
     active_requests := length <$> request_counts self |}.

(** A run of calls to [check_rate_limit], each with its key and its clock
    reading. *)
Fixpoint check_many (reqs : list (string * Q)) (self : SecurityManager)
  : SecurityManager :=
  match reqs with
  | [] => self
  | (api_key, t) :: reqs' => check_many reqs' (check_rate_limit api_key t self).2
  end.

(** The clock readings of the calls that passed. *)
Fixpoint accepted (ts : list Q) (rs : list (outcome http_error unit)) : list Q :=
  match ts, rs with
  | t :: ts', Return _ :: rs' => t :: accepted ts' rs'
  | _ :: ts', Raise _ :: rs' => accepted ts' rs'
  | _, _ => []
  end.

(** No clock reading of [ts] is earlier than one before it. *)
Fixpoint nondecreasing (ts : list Q) : Prop :=
  match ts with
  | [] => True
  | t :: ts' => (forall t', t' ∈ ts' -> (t <= t')%Q) /\ nondecreasing ts'
  end.

End Security.

(** A [Dict[str, Any]] bag whose order of keys plays no role. *)
Abbreviation pydict := (gmap string pyval).

(** [d.get(k, default)] *)
Definition get (k : string) (dflt : pyval) (d : pydict) : pyval :=
  default dflt (d !! k).

(** A dictionary display [{k1: v1, k2: v2, ...}]: a repeated key keeps its
    first position and its last value. *)
Definition dict_display (items : list (string * pyval)) : list (string * pyval) :=
  fold_left (fun d kv => dict_setitem kv.1 kv.2 d) items [].

(** ** Bounded histories

    Both history lists are kept short the same way: [l.append(x)], then
    [l.pop(0)] when [len(l)] exceeds the maximum. *)

Definition append_evict {A : Type} (cap : Z) (l : list A) (x : A) : list A :=
  if (Z.of_nat (length (l ++ [x])) >? cap)%Z then drop 1 (l ++ [x]) else l ++ [x].

(** The [n] most recent elements of a list that grows at its end. *)
Definition keep_last {A : Type} (n : nat) (l : list A) : list A :=
  drop (length l - n) l.

(** [l[start:]]: a negative [start] counts from the end, and either way the
    bound is clipped to the list. *)
Definition slice_from {A : Type} (start : Z) (l : list A) : list A :=
  if (start <? 0)%Z
  then drop (Z.to_nat (Z.max (Z.of_nat (length l) + start) 0)) l
  else drop (Z.to_nat start) l.

(** ** [datetime]

    A naive local [datetime.datetime], by its fields. *)

Record datetime := mkDatetime {
  year : Z; month : Z; day : Z;
  hour : Z; minute : Z; second : Z; microsecond : Z
}.

(** The ranges of the fields of a [datetime] with a four-digit year, for
    which [strftime("%Y")] prints the same text on every platform. *)
Definition valid_datetime (dt : datetime) : Prop :=
  1000 <= year dt <= 9999 /\ 1 <= month dt <= 12 /\ 1 <= day dt <= 31
  /\ 0 <= hour dt <= 23 /\ 0 <= minute dt <= 59 /\ 0 <= second dt <= 59
  /\ 0 <= microsecond dt <= 999999.

Definition digit_char (n : Z) : ascii :=
  ascii_of_N (Z.to_N (48 + n mod 10)).

(** The [width] low decimal digits of [n], zero padded: [%0<width>d]. *)
Fixpoint zfill (width : nat) (n : Z) : string :=
  match width with
  | O => EmptyString
  | S w => zfill w (n / 10) +:+ String (digit_char n) EmptyString
  end.

(** [dt.strftime("%Y%m%d_%H%M%S_%f")], for a four-digit year. *)
Definition strftime_id (dt : datetime) : string :=
  zfill 4 (year dt) +:+ zfill 2 (month dt) +:+ zfill 2 (day dt) +:+ "_" +:+
  zfill 2 (hour dt) +:+ zfill 2 (minute dt) +:+ zfill 2 (second dt) +:+ "_" +:+
  zfill 6 (microsecond dt).

(** [dt.isoformat()]: the fraction is printed only when it is not zero. *)
Definition isoformat (dt : datetime) : string :=
  zfill 4 (year dt) +:+ "-" +:+ zfill 2 (month dt) +:+ "-" +:+ zfill 2 (day dt)
  +:+ "T" +:+
  zfill 2 (hour dt) +:+ ":" +:+ zfill 2 (minute dt) +:+ ":" +:+ zfill 2 (second dt)
  +:+ (if microsecond dt =? 0 then EmptyString else "." +:+ zfill 6 (microsecond dt)).

Definition _is_leap (y : Z) : bool :=
  (y mod 4 =? 0) && (negb (y mod 100 =? 0) || (y mod 400 =? 0)).

Definition _days_before_year (y : Z) : Z :=
  let y := y - 1 in y * 365 + y / 4 - y / 100 + y / 400.

Definition _DAYS_BEFORE_MONTH : list Z :=
  [-1; 0; 31; 59; 90; 120; 151; 181; 212; 243; 273; 304; 334].

Definition _days_before_month (y m : Z) : Z :=
  nth (Z.to_nat m) _DAYS_BEFORE_MONTH 0
  + (if (m >? 2) && _is_leap y then 1 else 0).

Definition _ymd2ord (y m d : Z) : Z :=
  _days_before_year y + _days_before_month y m + d.

(** Microseconds since the start of the proleptic calendar. *)
Definition to_microseconds (dt : datetime) : Z :=
  ((_ymd2ord (year dt) (month dt) (day dt) * 86400
    + hour dt * 3600 + minute dt * 60 + second dt) * 1000000)
  + microsecond dt.

(** [(a - b).total_seconds()] *)
Definition total_seconds_between (a b : datetime) : Q :=
  Qmake (to_microseconds a - to_microseconds b) 1000000.

(** ** webhook_handler.py *)

Module Webhook.

(** The webhook dictionaries are shared: the caller's object, the history
    and the queue all hold the same reference.  [loc] is such a reference
    and [objects] the store of the dictionaries they denote. *)
Abbreviation loc := nat.

Inductive log_level := DEBUG | INFO | WARNING | ERROR.

(** A call to [logger]: the text of the f-string with its holes, and the
    values that fill them. *)
Record log_record := mkLog {
  levelname : log_level;
  template : string;
  holes : list pyval
}.

Record WebhookHandler := mkWebhookHandler {
  n8n_webhook_url : string;
  webhook_history : list loc;
  processing_queue : list loc;      (* asyncio.Queue(), unbounded *)
  max_history : Z
}.

Record World := mkWorld {
  objects : gmap loc pydict;
  logs : list log_record;
  self : WebhookHandler
}.

(** [WebhookHandler.__init__] *)
Definition init (url : string) : WebhookHandler :=
  {| n8n_webhook_url := url; webhook_history := [];
     processing_queue := []; max_history := 1000 |}.

Definition init_world : World :=
  {| objects := ∅; logs := []; self := init "http://localhost:5678" |}.

Definition _generate_webhook_id (now : datetime) : string :=
  "webhook_" +:+ strftime_id now.

(** [process_webhook].  [webhook_data] is the caller's dictionary;
    [t_received] and [t_id] are the two readings of [datetime.now()], in the
    order the dictionary display evaluates them.  No statement of the [try]
    body raises on a dictionary, so the [except] branch is not reached. *)
Definition process_webhook (webhook_data : loc) (t_received t_id : datetime)
    (w : World) : pydict * World :=
  let webhook_id := PStr (_generate_webhook_id t_id) in
  let objects1 :=
    alter (fun d => <["webhook_id" := webhook_id]>
                      (<["processed" := PBool false]>
                        (<["received_at" := PStr (isoformat t_received)]> d)))
          webhook_data (objects w) in
  let history := webhook_history (self w) ++ [webhook_data] in
  let history :=
    if (Z.of_nat (length history) >? max_history (self w))%Z
    then drop 1 history                                   (* pop(0) *)
    else history in
  let queue := processing_queue (self w) ++ [webhook_data] in
  let result : pydict :=
    <["processing" := PStr "queued"]>
      (<["webhook_id" := webhook_id]>
        (<["status" := PStr "accepted"]> {["success" := PBool true]})) in
  (result,
   {| objects := objects1;
      logs := logs w ++ [mkLog INFO "Webhook queued for processing: {}" [webhook_id]];
      self := {| n8n_webhook_url := n8n_webhook_url (self w);
                 webhook_history := history;
                 processing_queue := queue;
                 max_history := max_history (self w) |} |}).

(** [str.upper], on the ASCII letters. *)
Definition upper_char (c : ascii) : ascii :=
  let n := nat_of_ascii c in
  if (97 <=? n)%nat && (n <=? 122)%nat then ascii_of_nat (n - 32) else c.

Fixpoint upper (s : string) : string :=
  match s with
  | EmptyString => EmptyString
  | String c s' => String (upper_char c) (upper s')
  end.

(** [v.upper()]: only [str] has the method. *)
Definition call_upper (v : pyval) : outcome exn string :=
  match v with
  | PStr s => Return (upper s)
  | _ => Raise (PyExc "AttributeError"
                  ("'" +:+ type_name v +:+ "' object has no attribute 'upper'"))
  end.

(** The handlers return what they log and their result or exception. *)
Definition handled := (list log_record * outcome exn (list (string * pyval)))%type.

Definition _handle_system_alert (webhook_data : pydict) : handled :=
  let alert_type := get "alert_type" (PStr "info") webhook_data in
  let message := get "message" (PStr EmptyString) webhook_data in
  let severity := get "severity" (PStr "info") webhook_data in
  match call_upper severity with
  | Raise e => ([], Raise e)
  | Return up =>
      ([mkLog INFO "System Alert [{}]: {}" [PStr up; message]],
       Return (dict_display
         [("status", PStr "processed"); ("alert_type", alert_type);
          ("severity", severity); ("action", PStr "logged")]))
  end.

Definition _handle_file_organization (webhook_data : pydict) : handled :=
  let action := get "action" (PStr "unknown") webhook_data in
  let file_path := get "file_path" (PStr EmptyString) webhook_data in
  ([mkLog INFO "File Organization: {} - {}" [action; file_path]],
   Return (dict_display
     [("status", PStr "processed"); ("action", action);
      ("file_path", file_path); ("result", PStr "acknowledged")])).

Definition _handle_content_analysis (webhook_data : pydict) : handled :=
  let content_type := get "content_type" (PStr "unknown") webhook_data in
  let content_id := get "content_id" (PStr EmptyString) webhook_data in
  ([mkLog INFO "Content Analysis: {} - {}" [content_type; content_id]],
   Return (dict_display
     [("status", PStr "processed"); ("content_type", content_type);
      ("content_id", content_id); ("result", PStr "acknowledged")])).

Definition _handle_agent_status (webhook_data : pydict) : handled :=
  let agent_name := get "agent_name" (PStr "unknown") webhook_data in
  let status := get "status" (PStr "unknown") webhook_data in
  ([mkLog INFO "Agent Status: {} - {}" [agent_name; status]],
   Return (dict_display
     [("status", PStr "processed"); ("agent_name", agent_name);
      ("status", status); ("result", PStr "acknowledged")])).

Definition _handle_generic_webhook (webhook_data : pydict) : handled :=
  ([mkLog INFO "Generic webhook received: {}"
      [get "type" (PStr "unknown") webhook_data]],
   Return (dict_display
     [("status", PStr "processed"); ("type", PStr "generic");
      ("result", PStr "acknowledged")])).

Definition is_str (s : string) (v : pyval) : bool :=
  match v with PStr s' => String.eqb s' s | _ => false end.

(** The [if]/[elif] chain inside the [try] of [_route_webhook]. *)
Definition handler_for (webhook_type : pyval) : pydict -> handled :=
  if is_str "system_alert" webhook_type then _handle_system_alert
  else if is_str "file_organization" webhook_type then _handle_file_organization
  else if is_str "content_analysis" webhook_type then _handle_content_analysis
  else if is_str "agent_status" webhook_type then _handle_agent_status
  else _handle_generic_webhook.

(** [_route_webhook]: an exception of the handler becomes an error result. *)
Definition _route_webhook (webhook_data : pydict)
  : list log_record * list (string * pyval) :=
  let webhook_type := get "type" (PStr "unknown") webhook_data in
  match handler_for webhook_type webhook_data with
  | (lg, Return result) => (lg, result)
  | (lg, Raise e) =>
      (lg ++ [mkLog ERROR "Error routing webhook {}: {}"
                [webhook_type; PStr (str_exn e)]],
       dict_display [("status", PStr "error"); ("message", PStr (str_exn e))])
  end.

(** One pass through the body of the [while True] of
    [_process_webhook_queue]; [None] when the queue is empty and
    [await self.processing_queue.get()] stays suspended.  [now] is the reading
    of [datetime.now()] taken after the handler has returned.  The only
    statement of the loop's own [try] that can raise is the last log call,
    when the record carries no ["webhook_id"]; the loop's [except] logs that
    [KeyError]. *)
Definition loop_body (now : datetime) (w : World) : option World :=
  match processing_queue (self w) with
  | [] => None
  | webhook_data :: queue =>
      let d := default ∅ (objects w !! webhook_data) in
      let '(route_logs, result) := _route_webhook d in
      let d' := <["result" := PDict result]>
                  (<["processed_at" := PStr (isoformat now)]>
                    (<["processed" := PBool true]> d)) in
      let last_log :=
        match d' !! "webhook_id" with
        | Some id => mkLog INFO "Webhook processed: {}" [id]
        | None => mkLog ERROR "Error in webhook queue processing: {}"
                    [PStr "'webhook_id'"]
        end in
      Some {| objects := <[webhook_data := d']> (objects w);
              logs := logs w ++ route_logs ++ [last_log];
              self := {| n8n_webhook_url := n8n_webhook_url (self w);
                         webhook_history := webhook_history (self w);
                         processing_queue := queue;
                         max_history := max_history (self w) |} |}
  end.

(** The record [d] once the loop body is done with it at [now]. *)
Definition processed_record (d : pydict) (now : datetime) : pydict :=
  <["result" := PDict (_route_webhook d).2]>
    (<["processed_at" := PStr (isoformat now)]>
      (<["processed" := PBool true]> d)).

(** [_process_webhook_queue]: the consumer loop, one iteration for each clock
    reading it is given; it waits on an empty queue. *)
Fixpoint _process_webhook_queue (clock : list datetime) (w : World) : World :=
  match clock with
  | [] => w
  | now :: clock' =>
      match loop_body now w with
      | Some w' => _process_webhook_queue clock' w'
      | None => w
      end
  end.

Record webhook_stats := mkStats {
  total_webhooks : nat;
  processed_webhooks : nat;
  pending_webhooks : nat;
  success_rate : Q
}.

(** [w.get("processed")], as a condition *)
Definition is_processed (objs : gmap loc pydict) (l : loc) : bool :=
  truthy (get "processed" PNone (default ∅ (objs !! l))).

(** [get_webhook_stats] *)
Definition get_webhook_stats (w : World) : webhook_stats :=
  let total := length (webhook_history (self w)) in
  let processed :=
    length (List.filter (is_processed (objects w)) (webhook_history (self w))) in
  {| total_webhooks := total;
     processed_webhooks := processed;
     pending_webhooks := length (processing_queue (self w));
     success_rate :=
       if (0 <? total)%nat
       then (inject_Z (Z.of_nat processed) / inject_Z (Z.of_nat total) * 100)%Q
       else 0%Q |}.

(** The references of a run of submissions, in the order submitted. *)
Definition refs_of (subs : list (loc * datetime * datetime)) : list loc :=
  (fun s => s.1.1) <$> subs.

(** A run of submissions, each with its two clock readings. *)
Fixpoint submit_all (subs : list (loc * datetime * datetime)) (w : World) : World :=
  match subs with
  | [] => w
  | (l, t1, t2) :: subs' => submit_all subs' (process_webhook l t1 t2 w).2
  end.

(** [get_webhook_history]: [self.webhook_history[-limit:]]. *)
Definition get_webhook_history (limit : Z) (w : World) : list loc :=
  slice_from (- limit) (webhook_history (self w)).

(** What happens to a handler over time: submissions and passes of the
    consumer loop, in any order.  A pass on an empty queue waits. *)
Inductive event :=
| Submit (webhook_data : loc) (t_received t_id : datetime)
| Pass (now : datetime).

Definition occur (ev : event) (w : World) : World :=
  match ev with
  | Submit l t_received t_id => (process_webhook l t_received t_id w).2
  | Pass now => default w (loop_body now w)
  end.

Definition occur_all (evs : list event) (w : World) : World :=
  fold_left (fun w ev => occur ev w) evs w.

(** A record of the history waits in the queue or is marked processed. *)
Definition accounted (w : World) : Prop :=
  forall l, l ∈ webhook_history (self w) ->
            l ∈ processing_queue (self w) \/ is_processed (objects w) l = true.

(** The keys that [process_webhook] and the consumer loop write. *)
Definition bookkeeping_keys : list string :=
  ["received_at"; "processed"; "webhook_id"; "processed_at"; "result"].

End Webhook.

(** ** agents/base/agent_interface.py and agents/agent_manager.py *)

Module Agents.

Inductive AgentStatus := IDLE | RUNNING | COMPLETED | FAILED | DISABLED.

(** [status.value] *)
Definition status_value (s : AgentStatus) : string :=
  match s with
  | IDLE => "idle" | RUNNING => "running" | COMPLETED => "completed"
  | FAILED => "failed" | DISABLED => "disabled"
  end.

Inductive AgentPriority := LOW | NORMAL | HIGH | CRITICAL.

(** The four keys [BaseAgent.__init__] puts in [processing_stats]. *)
Record ProcessingStats := mkStats {
  tasks_completed : Z;
  tasks_failed : Z;
  total_processing_time : Q;
  last_task_time : option Q
}.

Record WorkflowTrigger := mkTrigger {
  trigger_name : string;
  trigger_config : pydict;
  added_at : datetime
}.

(** An agent object.  [attrs] stands for everything a subclass adds to the
    object (its own attributes and its own keys of [processing_stats]);
    [execute] and [validate_parameters] are the subclass's methods, which read
    and write [attrs] and either return or raise.  As in
    [FileOrganizationAgent], they leave the bookkeeping of [BaseAgent] alone. *)
Record BaseAgent (P : Type) := mkAgent {
  agent_name : string;
  status : AgentStatus;
  priority : AgentPriority;
  enabled : bool;
  last_activity : option datetime;
  processing_stats : ProcessingStats;
  webhook_enabled : bool;
  auto_report_status : bool;
  workflow_triggers : list WorkflowTrigger;
  attrs : P;
  execute : pydict -> P -> outcome exn pydict * P;
  validate_parameters : pydict -> P -> outcome exn bool * P
}.
Arguments mkAgent {P}.
Arguments agent_name {P}.
Arguments status {P}.
Arguments priority {P}.
Arguments enabled {P}.
Arguments last_activity {P}.
Arguments processing_stats {P}.
Arguments webhook_enabled {P}.
Arguments auto_report_status {P}.
Arguments workflow_triggers {P}.
Arguments attrs {P}.
Arguments execute {P}.
Arguments validate_parameters {P}.

Record ResultSummary := mkSummary {
  summary_status : pyval;
  summary_message : pyval;
  summary_error : pyval
}.

Record ExecutionHistoryEntry := mkEntry {
  entry_agent_name : string;
  entry_timestamp : string;
  entry_execution_time : Q;
  entry_success : pyval;
  entry_result_summary : ResultSummary
}.

Record AgentManager (P : Type) := mkManager {
  agents : gmap string (BaseAgent P);
  agent_status_history : list ExecutionHistoryEntry;
  max_history : Z
}.
Arguments mkManager {P}.
Arguments agents {P}.
Arguments agent_status_history {P}.
Arguments max_history {P}.

Section Manager.
Context {P : Type}.
Implicit Types (agent : BaseAgent P) (self : AgentManager P).

(** [BaseAgent.__init__], with the subclass's part. *)
Definition new_agent (name : string) (p : P)
    (exec : pydict -> P -> outcome exn pydict * P)
    (valid : pydict -> P -> outcome exn bool * P) : BaseAgent P :=
  {| agent_name := name; status := IDLE; priority := NORMAL; enabled := true;
     last_activity := None;
     processing_stats := mkStats 0 0 0 None;
     webhook_enabled := true; auto_report_status := true;
     workflow_triggers := []; attrs := p;
     execute := exec; validate_parameters := valid |}.

(** The default [validate_parameters] of [BaseAgent]. *)
Definition default_validate_parameters (_ : pydict) (p : P)
  : outcome exn bool * P := (Return true, p).

Definition set_status (s : AgentStatus) (t : option datetime) agent :=
  mkAgent (agent_name agent) s (priority agent) (enabled agent) t
    (processing_stats agent) (webhook_enabled agent) (auto_report_status agent)
    (workflow_triggers agent) (attrs agent) (execute agent)
    (validate_parameters agent).

Definition set_enabled (b : bool) agent :=
  mkAgent (agent_name agent) (status agent) (priority agent) b
    (last_activity agent) (processing_stats agent) (webhook_enabled agent)
    (auto_report_status agent) (workflow_triggers agent) (attrs agent)
    (execute agent) (validate_parameters agent).

Definition set_processing_stats (st : ProcessingStats) agent :=
  mkAgent (agent_name agent) (status agent) (priority agent) (enabled agent)
    (last_activity agent) st (webhook_enabled agent)
    (auto_report_status agent) (workflow_triggers agent) (attrs agent)
    (execute agent) (validate_parameters agent).

Definition set_workflow_triggers (ts : list WorkflowTrigger) agent :=
  mkAgent (agent_name agent) (status agent) (priority agent) (enabled agent)
    (last_activity agent) (processing_stats agent) (webhook_enabled agent)
    (auto_report_status agent) ts (attrs agent)
    (execute agent) (validate_parameters agent).

Definition set_attrs (p : P) agent :=
  mkAgent (agent_name agent) (status agent) (priority agent) (enabled agent)
    (last_activity agent) (processing_stats agent) (webhook_enabled agent)
    (auto_report_status agent) (workflow_triggers agent) p
    (execute agent) (validate_parameters agent).

(** [update_status]; [now] is its reading of [datetime.now()].  The report
    to the webhook system, [_report_status_change], runs inside a
    [try]/[except: pass] and reaches no state of the manager. *)
Definition update_status (s : AgentStatus) (now : datetime) agent :=
  set_status s (Some now) agent.

(** [BaseAgent.add_workflow_trigger] *)
Definition agent_add_workflow_trigger (name : string) (config : pydict)
    (now : datetime) agent :=
  set_workflow_triggers (workflow_triggers agent ++ [mkTrigger name config now]) agent.

(** [BaseAgent.reset_stats] *)
Definition reset_stats agent :=
  set_processing_stats (mkStats 0 0 0 None) agent.

Definition opt_float (o : option Q) : pyval :=
  match o with Some q => PFloat q | None => PNone end.

(** [get_health_metrics], with the four base keys of [processing_stats]. *)
Definition get_health_metrics agent : list (string * pyval) :=
  let st := processing_stats agent in
  dict_display
    [("agent_name", PStr (agent_name agent));
     ("status", PStr (status_value (status agent)));
     ("enabled", PBool (enabled agent));
     ("last_activity",
        match last_activity agent with
        | Some t => PStr (isoformat t) | None => PNone end);
     ("processing_stats", PDict (dict_display
        [("tasks_completed", PInt (tasks_completed st));
         ("tasks_failed", PInt (tasks_failed st));
         ("total_processing_time", PFloat (total_processing_time st));
         ("last_task_time", opt_float (last_task_time st))]));
     ("webhook_enabled", PBool (webhook_enabled agent));
     ("workflow_triggers_count",
        PInt (Z.of_nat (length (workflow_triggers agent))))].

Definition set_agents (ags : gmap string (BaseAgent P)) self :=
  mkManager ags (agent_status_history self) (max_history self).

Definition set_history (h : list ExecutionHistoryEntry) self :=
  mkManager (agents self) h (max_history self).

(** The dictionary [history_entry] that [_add_to_history] builds. *)
Definition history_entry (name : string) (result : pydict)
    (execution_time : Q) (now : datetime) : ExecutionHistoryEntry :=
  {| entry_agent_name := name;
     entry_timestamp := isoformat now;
     entry_execution_time := execution_time;
     entry_success := get "success" (PBool false) result;
     entry_result_summary :=
       {| summary_status := get "status" (PStr "unknown") result;
          summary_message := get "message" (PStr EmptyString) result;
          summary_error := get "error" (PStr EmptyString) result |} |}.

(** [_add_to_history]; [now] is its reading of [datetime.now()]. *)
Definition _add_to_history (name : string) (result : pydict)
    (execution_time : Q) (now : datetime) self :=
  let history :=
    agent_status_history self ++ [history_entry name result execution_time now] in
  if (Z.of_nat (length history) >? max_history self)%Z
  then set_history (drop 1 history) self                 (* pop(0) *)
  else set_history history self.

(** [_setup_workflow_triggers]; [t1] and [t2] are the clock readings of the
    two calls of [add_workflow_trigger]. *)
Definition _setup_workflow_triggers (t1 t2 : datetime) self : AgentManager P :=
  match agents self !! "file_organization" with
  | Some file_org =>
      let file_org :=
        agent_add_workflow_trigger "file_upload"
          (<["triggers" := PList [PStr "new_file"; PStr "file_modified";
                                  PStr "file_deleted"]]>
            (<["endpoint" := PStr "/webhook/file-organization"]>
              {["type" := PStr "webhook"]}))
          t1 file_org in
      let file_org :=
        agent_add_workflow_trigger "batch_processing"
          (<["action" := PStr "process_documents"]>
            (<["schedule" := PStr "0 */6 * * *"]>
              {["type" := PStr "scheduled"]}))
          t2 file_org in
      set_agents (<["file_organization" := file_org]> (agents self)) self
  | None => self
  end.

(** [AgentManager.__init__], given the agent that [_initialize_agents]
    constructs for ["file_organization"]. *)
Definition init (file_org : BaseAgent P) (t1 t2 : datetime) : AgentManager P :=
  _setup_workflow_triggers t1 t2
    {| agents := {["file_organization" := file_org]};
       agent_status_history := [];
       max_history := 1000 |}.

Definition not_found (name : string) self : pydict :=
  <["available_agents" := PList (PStr <$> (map_to_list (agents self)).*1)]>
    (<["error" := PStr ("Agent " +:+ name +:+ " not found")]>
      {["success" := PBool false]}).

Definition is_disabled (name : string) : pydict :=
  <["error" := PStr ("Agent " +:+ name +:+ " is disabled")]>
    {["success" := PBool false]}.

Definition invalid_parameters (name : string) : pydict :=
  <["error" := PStr ("Invalid parameters for agent " +:+ name)]>
    {["success" := PBool false]}.

(** The [except Exception as e] branch of [execute_agent]; [t_status] and
    [t_result] are its two clock readings. *)
Definition on_exception (name : string) (e : exn) (t_status t_result : datetime)
    self : pydict * AgentManager P :=
  let self :=
    match agents self !! name with
    | Some agent =>
        set_agents (<[name := update_status FAILED t_status agent]> (agents self)) self
    | None => self
    end in
  (<["timestamp" := PStr (isoformat t_result)]>
     (<["agent_name" := PStr name]>
       (<["error" := PStr (str_exn e)]> {["success" := PBool false]})),
   self).

Definition count_task (ok : bool) (st : ProcessingStats) : ProcessingStats :=
  if ok
  then mkStats (tasks_completed st + 1) (tasks_failed st)
         (total_processing_time st) (last_task_time st)
  else mkStats (tasks_completed st) (tasks_failed st + 1)
         (total_processing_time st) (last_task_time st).

Definition add_time (execution_time : Q) (st : ProcessingStats) : ProcessingStats :=
  mkStats (tasks_completed st) (tasks_failed st)
    (total_processing_time st + execution_time)%Q (Some execution_time).

(** [execute_agent].  [clock i] is the [i]-th reading of [datetime.now()]
    made during the call, counted from 0.  The writes to the agent object
    are written back to the registry where the source mutates it in place. *)
Definition execute_agent (name : string) (parameters : pydict)
    (clock : nat -> datetime) self : pydict * AgentManager P :=
  match agents self !! name with
  | None => (not_found name self, self)
  | Some agent =>
      if negb (enabled agent) then (is_disabled name, self)
      else
        let '(valid, p) := validate_parameters agent parameters (attrs agent) in
        let agent := set_attrs p agent in
        let self := set_agents (<[name := agent]> (agents self)) self in
        match valid with
        | Raise e => on_exception name e (clock 0%nat) (clock 1%nat) self
        | Return false => (invalid_parameters name, self)
        | Return true =>
            let agent := update_status RUNNING (clock 0%nat) agent in
            let start_time := clock 1%nat in
            let '(ran, p) := execute agent parameters (attrs agent) in
            let agent := set_attrs p agent in
            let self := set_agents (<[name := agent]> (agents self)) self in
            match ran with
            | Raise e => on_exception name e (clock 2%nat) (clock 3%nat) self
            | Return result =>
                let execution_time := total_seconds_between (clock 2%nat) start_time in
                let ok := truthy (get "success" PNone result) in
                let agent :=
                  set_processing_stats (count_task ok (processing_stats agent)) agent in
                let agent :=
                  update_status (if ok then COMPLETED else FAILED) (clock 3%nat) agent in
                let agent :=
                  set_processing_stats
                    (add_time execution_time (processing_stats agent)) agent in
                let self := set_agents (<[name := agent]> (agents self)) self in
                let self :=
                  _add_to_history name result execution_time (clock 4%nat) self in
                let result :=
                  <["agent_status" := PStr (status_value (status agent))]>
                    (<["timestamp" := PStr (isoformat (clock 5%nat))]>
                      (<["execution_time" := PFloat execution_time]>
                        (<["agent_name" := PStr name]> result))) in
                (result, self)
            end
        end
  end.

Definition agent_not_found (name : string) : pydict :=
  <["error" := PStr ("Agent " +:+ name +:+ " not found")]>
    {["success" := PBool false]}.

(** [enable_agent] *)
Definition enable_agent (name : string) (now : datetime) self
  : pydict * AgentManager P :=
  match agents self !! name with
  | None => (agent_not_found name, self)
  | Some agent =>
      let agent := update_status IDLE now (set_enabled true agent) in
      (<["agent_status" := PDict (get_health_metrics agent)]>
         (<["message" := PStr ("Agent " +:+ name +:+ " enabled")]>
           {["success" := PBool true]}),
       set_agents (<[name := agent]> (agents self)) self)
  end.

(** [disable_agent] *)
Definition disable_agent (name : string) (now : datetime) self
  : pydict * AgentManager P :=
  match agents self !! name with
  | None => (agent_not_found name, self)
  | Some agent =>
      let agent := update_status DISABLED now (set_enabled false agent) in
      (<["agent_status" := PDict (get_health_metrics agent)]>
         (<["message" := PStr ("Agent " +:+ name +:+ " disabled")]>
           {["success" := PBool true]}),
       set_agents (<[name := agent]> (agents self)) self)
  end.

(** [add_workflow_trigger] *)
Definition add_workflow_trigger (name trigger : string) (config : pydict)
    (now : datetime) self : pydict * AgentManager P :=
  match agents self !! name with
  | None => (agent_not_found name, self)
  | Some agent =>
      let agent := agent_add_workflow_trigger trigger config now agent in
      (<["trigger" := PDict (dict_display
            [("name", PStr trigger);
             ("config", PDict (map_to_list config));
             ("agent", PStr name)])]>
         (<["message" := PStr ("Workflow trigger added to " +:+ name)]>
           {["success" := PBool true]}),
       set_agents (<[name := agent]> (agents self)) self)
  end.

(** The entries of the history that carry [name], as selected by
    [get_execution_history]. *)
Definition entries_of (name : string) (h : list ExecutionHistoryEntry)
  : list ExecutionHistoryEntry :=
  List.filter (fun entry => bool_decide (entry_agent_name entry = name)) h.

(** The calls that change an [AgentManager]. *)
Inductive call :=
| ExecuteAgent (name : string) (parameters : pydict) (clock : nat -> datetime)
| EnableAgent (name : string) (now : datetime)
| DisableAgent (name : string) (now : datetime)
| AddWorkflowTrigger (name trigger : string) (config : pydict) (now : datetime).

Definition perform (c : call) self : AgentManager P :=
  match c with
  | ExecuteAgent name parameters clock => (execute_agent name parameters clock self).2
  | EnableAgent name now => (enable_agent name now self).2
  | DisableAgent name now => (disable_agent name now self).2
  | AddWorkflowTrigger name trigger config now =>
      (add_workflow_trigger name trigger config now self).2
  end.

Definition perform_all (cs : list call) self : AgentManager P :=
  fold_left (fun m c => perform c m) cs self.

(** The entry a dispatch hands to [_add_to_history], when it gets there:
    the agent is registered and enabled, accepts the parameters, and its
    [execute] returns. *)
Definition recorded_entry (name : string) (parameters : pydict)
    (clock : nat -> datetime) self : option ExecutionHistoryEntry :=
  match agents self !! name with
  | None => None
  | Some agent =>
      if negb (enabled agent) then None
      else
        match validate_parameters agent parameters (attrs agent) with
        | (Return true, p) =>
            match execute agent parameters p with
            | (Return result, _) =>
                Some (history_entry name result
                        (total_seconds_between (clock 2%nat) (clock 1%nat))
                        (clock 4%nat))
            | (Raise _, _) => None
            end
        | _ => None
        end
  end.

Definition recorded_by (c : call) self : list ExecutionHistoryEntry :=
  match c with
  | ExecuteAgent name parameters clock =>
      option_list (recorded_entry name parameters clock self)
  | _ => []
  end.

(** Every entry recorded up to the end of the calls [cs], oldest first,
    evicted or not; [sofar] are those recorded before [cs]. *)
Fixpoint recorded (cs : list call) self (sofar : list ExecutionHistoryEntry)
  : list ExecutionHistoryEntry :=
  match cs with
  | [] => sofar
  | c :: cs' => recorded cs' (perform c self) (sofar ++ recorded_by c self)
  end.

(** A run of calls to [_add_to_history], each with its arguments and its
    clock reading. *)
Fixpoint add_all (recs : list (string * pydict * Q * datetime)) self
  : AgentManager P :=
  match recs with
  | [] => self
  | (name, result, execution_time, now) :: recs' =>
      add_all recs' (_add_to_history name result execution_time now self)
  end.

Definition entry_of (rec : string * pydict * Q * datetime) : ExecutionHistoryEntry :=
  history_entry rec.1.1.1 rec.1.1.2 rec.1.2 rec.2.

(** [stats.completed + stats.failed] *)
Definition tasks_counted agent : Z :=
  tasks_completed (processing_stats agent) + tasks_failed (processing_stats agent).

(** The descriptor of [agent] after a dispatch whose [execute] returned:
    [ok] is the truth value of the result's ["success"], [p] the subclass's
    attributes after the call, [t_done] the clock reading of the last
    [update_status]. *)
Definition dispatched agent (p : P) (ok : bool) (execution_time : Q)
    (t_done : datetime) : BaseAgent P :=
  mkAgent (agent_name agent) (if ok then COMPLETED else FAILED) (priority agent)
    (enabled agent) (Some t_done)
    (add_time execution_time (count_task ok (processing_stats agent)))
    (webhook_enabled agent) (auto_report_status agent) (workflow_triggers agent)
    p (execute agent) (validate_parameters agent).

(** The descriptor of [agent] after a dispatch that ended in the [except]
    branch: [p] are the subclass's attributes by then, [t_status] is the clock
    reading of the branch's [update_status]. *)
Definition failed_by_exception agent (p : P) (t_status : datetime) : BaseAgent P :=
  mkAgent (agent_name agent) FAILED (priority agent) (enabled agent)
    (Some t_status) (processing_stats agent)
    (webhook_enabled agent) (auto_report_status agent) (workflow_triggers agent)
    p (execute agent) (validate_parameters agent).

(** The result of [execute_agent] when an exception [e] was caught. *)
Definition exception_result (name : string) (e : exn) (t_result : datetime) : pydict :=
  <["timestamp" := PStr (isoformat t_result)]>
    (<["agent_name" := PStr name]>
      (<["error" := PStr (str_exn e)]> {["success" := PBool false]})).

(** The state of a manager at process start: no history, no task counted. *)
Definition fresh self : Prop :=
  agent_status_history self = []
  /\ max_history self = 1000
  /\ forall name agent, agents self !! name = Some agent ->
        tasks_completed (processing_stats agent) = 0
        /\ tasks_failed (processing_stats agent) = 0.

Record history_report := mkReport {
  report_history : list ExecutionHistoryEntry;
  total_entries : nat;
  report_timestamp : string
}.

(** [get_execution_history]; [agent_name] is [None] for Python's [None], and
    the empty string is as false as [None]. *)
Definition get_execution_history (agent_name : option string) (limit : Z)
    (now : datetime) self : history_report :=
  let filtered_history :=
    match agent_name with
    | Some name =>
        if String.eqb name EmptyString then agent_status_history self
        else entries_of name (agent_status_history self)
    | None => agent_status_history self
    end in
  let filtered_history :=
    if (limit >? 0)%Z then slice_from (- limit) filtered_history
    else filtered_history in
  {| report_history := filtered_history;
     total_entries := length filtered_history;
     report_timestamp := isoformat now |}.

Record agent_line := mkLine {
  line_status : string;
  line_enabled : bool;
  line_last_activity : option string;
  line_tasks_completed : Z;
  line_tasks_failed : Z
}.

Record agent_summary := mkAgentSummary {
  total_agents : nat;
  enabled_agents : nat;
  running_agents : nat;
  idle_agents : nat;
  failed_agents : nat;
  total_tasks_completed : Z;
  total_tasks_failed : Z;
  summary_agents : gmap string agent_line;
  summary_timestamp : string
}.

Definition has_status (s : AgentStatus) agent : bool :=
  match s, status agent with
  | IDLE, IDLE | RUNNING, RUNNING | COMPLETED, COMPLETED
  | FAILED, FAILED | DISABLED, DISABLED => true
  | _, _ => false
  end.

(** The agents that are enabled and in status [s]. *)
Definition count_enabled_in (s : AgentStatus) self : nat :=
  length (List.filter (fun kv => enabled kv.2 && has_status s kv.2)
            (map_to_list (agents self))).

Definition sum_over (f : BaseAgent P -> Z) self : Z :=
  foldr (fun kv acc => f kv.2 + acc) 0 (map_to_list (agents self)).

(** [get_agent_summary]: the loop over [self.agents.items()] only counts and
    adds, so the order of the items plays no role. *)
Definition get_agent_summary (now : datetime) self : agent_summary :=
  {| total_agents := size (agents self);
     enabled_agents :=
       length (List.filter (fun kv => enabled kv.2) (map_to_list (agents self)));
     running_agents := count_enabled_in RUNNING self;
     idle_agents := count_enabled_in IDLE self;
     failed_agents := count_enabled_in FAILED self;
     total_tasks_completed :=
       sum_over (fun agent => tasks_completed (processing_stats agent)) self;
     total_tasks_failed :=
       sum_over (fun agent => tasks_failed (processing_stats agent)) self;
     summary_agents :=
       (fun agent =>
          {| line_status := status_value (status agent);
             line_enabled := enabled agent;
             line_last_activity := isoformat <$> last_activity agent;
             line_tasks_completed := tasks_completed (processing_stats agent);
             line_tasks_failed := tasks_failed (processing_stats agent) |})
       <$> agents self;
     summary_timestamp := isoformat now |}.

End Manager.

End Agents.

(** ** agents/file_organization/agent.py *)

Module FileOrganization.

(** The table [categories] of [_determine_category], in its order. *)
Definition categories : list (string * list string) :=
  [ ("image", ["jpg"; "jpeg"; "png"; "gif"; "bmp"; "tiff"; "webp"]);
    ("video", ["mp4"; "avi"; "mov"; "wmv"; "flv"; "mkv"; "webm"]);
    ("audio", ["mp3"; "wav"; "flac"; "aac"; "ogg"; "m4a"]);
    ("document", ["pdf"; "doc"; "docx"; "txt"; "rtf"; "odt"]);
    ("spreadsheet", ["xls"; "xlsx"; "csv"; "ods"]);
    ("presentation", ["ppt"; "pptx"; "odp"]);
    ("archive", ["zip"; "rar"; "7z"; "tar"; "gz"]);
    ("code", ["py"; "js"; "html"; "css"; "java"; "cpp"; "c"; "php"; "rb"; "go"; "rs"]);
    ("data", ["json"; "xml"; "yaml"; "yml"; "sql"; "db"; "sqlite"]) ].

(** The fallback of [_determine_category] on the first part of the MIME type. *)
Definition category_of_type (file_type : string) : string :=
  if bool_decide (file_type ∈ ["image"; "video"; "audio"]) then file_type
  else if String.eqb file_type "text" then "document"
  else "other".

(** [_determine_category], on [file_info['type']] and [file_info['extension']]. *)
Definition _determine_category (file_type extension : string) : string :=
  match List.find (fun item => bool_decide (extension ∈ item.2)) categories with
  | Some (category, _) => category
  | None => category_of_type file_type
  end.

(** What [Path.suffix] returns, in lower case or not: nothing, or a dot and
    what follows it. *)
Definition is_suffix (extension : string) : Prop :=
  extension = EmptyString \/ exists rest, extension = String "." rest.

Definition supported_operations : pyval :=
  PList [PStr "process_documents"; PStr "add_test_files"; PStr "organize_files"].

Section Execute.
Context {P : Type}.

(** [process_documents] and [add_test_files] work on the file system; they
    are taken as given, on the agent's own attributes.  [format_value v] is
    the text an f-string prints for [v]. *)
Variable process_documents add_test_files : P -> outcome exn pydict * P.
Variable format_value : pyval -> string.

(** [FileOrganizationAgent.execute] *)
Definition execute (parameters : pydict) (p : P) : outcome exn pydict * P :=
  let operation := get "operation" (PStr "process_documents") parameters in
  if Webhook.is_str "process_documents" operation then process_documents p
  else if Webhook.is_str "add_test_files" operation then add_test_files p
  else if Webhook.is_str "organize_files" operation then process_documents p
  else
    (Return (<["supported_operations" := supported_operations]>
               (<["error" := PStr ("Unknown operation: " +:+ format_value operation)]>
                 {["success" := PBool false]})),
     p).

End Execute.

End FileOrganization.

(** ** n8n_integration/api.py

    The endpoints of [N8NIntegrationAPI.setup_routes].  The dependency
    [get_api_key_from_header] is resolved before the body of an endpoint, so
    its [HTTPException] reaches the client as it is; the body runs inside
    [try ... except Exception as e: raise HTTPException(500, str(e))], which
    also catches the [HTTPException]s raised in it. *)

Module Api.

Inductive response := JSONResponse (content : pydict) (status_code : Z).

Record N8NIntegrationAPI (P : Type) := mkApi {
  security_manager : Security.SecurityManager;
  webhook_handler : Webhook.World;
  agent_manager : Agents.AgentManager P      (* the module-level instance *)
}.
Arguments mkApi {P}.
Arguments security_manager {P}.
Arguments webhook_handler {P}.
Arguments agent_manager {P}.

Section Endpoints.
Context {P : Type}.

(** [str(e)] for the [HTTPException] of the installed framework. *)
Variable str_http : Security.http_error -> string.

Definition internal_error (e : Security.http_error) : Security.http_error :=
  Security.HTTPException 500 (str_http e).

(** The two security calls that open the body of every endpoint; [api_key]
    is what the dependency returned, the name of the key. *)
Definition validate_security (client_ip api_key : string) (current_time : Q)
    (sm : Security.SecurityManager)
  : outcome Security.http_error unit * Security.SecurityManager :=
  match Security.validate_ip_address client_ip sm with
  | Raise e => (Raise e, sm)
  | Return _ => Security.check_rate_limit api_key current_time sm
  end.

(** A new dictionary object. *)
Definition new_object (d : pydict) (w : Webhook.World) : Webhook.loc * Webhook.World :=
  let l := fresh (dom (Webhook.objects w)) in
  (l, {| Webhook.objects := <[l := d]> (Webhook.objects w);
         Webhook.logs := Webhook.logs w;
         Webhook.self := Webhook.self w |}).

(** The four webhook endpoints, which differ in [webhook_type] only:
    [system_alert], [file_organization], [content_analysis], [productivity]. *)
Definition webhook_endpoint (webhook_type : string)
    (client_ip credentials : string) (data : list (string * pyval))
    (current_time : Q) (t_received t_id : datetime) (api : N8NIntegrationAPI P)
  : outcome Security.http_error response * N8NIntegrationAPI P :=
  match Security.get_api_key_from_header credentials (security_manager api) with
  | Raise e => (Raise e, api)
  | Return api_key =>
      match validate_security client_ip api_key current_time (security_manager api) with
      | (Raise e, sm) =>
          (Raise (internal_error e),
           mkApi sm (webhook_handler api) (agent_manager api))
      | (Return _, sm) =>
          let '(l, w) :=
            new_object (<["source" := PStr "n8n"]>
                          (<["data" := PDict data]>
                            {["type" := PStr webhook_type]}))
                       (webhook_handler api) in
          let '(result, w) := Webhook.process_webhook l t_received t_id w in
          (Return (JSONResponse result 200), mkApi sm w (agent_manager api))
      end
  end.

Definition system_alert_webhook := webhook_endpoint "system_alert".
Definition file_organization_webhook := webhook_endpoint "file_organization".
Definition content_analysis_webhook := webhook_endpoint "content_analysis".
Definition productivity_webhook := webhook_endpoint "productivity".

(** An endpoint that, once past the security calls, returns what a method of
    the agent manager returns. *)
Definition agent_endpoint
    (method : Agents.AgentManager P -> pydict * Agents.AgentManager P)
    (client_ip credentials : string) (current_time : Q) (api : N8NIntegrationAPI P)
  : outcome Security.http_error pydict * N8NIntegrationAPI P :=
  match Security.get_api_key_from_header credentials (security_manager api) with
  | Raise e => (Raise e, api)
  | Return api_key =>
      match validate_security client_ip api_key current_time (security_manager api) with
      | (Raise e, sm) =>
          (Raise (internal_error e),
           mkApi sm (webhook_handler api) (agent_manager api))
      | (Return _, sm) =>
          let '(result, m) := method (agent_manager api) in
          (Return result, mkApi sm (webhook_handler api) m)
      end
  end.

(** [POST /api/agents/{agent_name}/trigger] *)
Definition trigger_agent (agent_name : string) (params : pydict)
    (clock : nat -> datetime) :=
  agent_endpoint (Agents.execute_agent agent_name params clock).

(** [POST /api/agents/{agent_name}/enable] *)
Definition enable_agent (agent_name : string) (now : datetime) :=
  agent_endpoint (Agents.enable_agent agent_name now).

(** [POST /api/agents/{agent_name}/disable] *)
Definition disable_agent (agent_name : string) (now : datetime) :=
  agent_endpoint (Agents.disable_agent agent_name now).

End Endpoints.

End Api.

(** ** Sample objects

    Concrete agents, webhooks and clock readings on which the properties
    below are evaluated. *)

Module Samples.

Definition at_us (us : Z) : datetime := mkDatetime 2025 1 15 12 0 0 us.

(** A system alert whose severity is a number: [severity.upper()] raises. *)
Definition bad_alert : pydict :=
  <["severity" := PInt 5]> {["type" := PStr "system_alert"]}.

Definition noop_file_event : pydict :=
  <["operation" := PStr "noop"]> {["type" := PStr "file_organization"]}.

(** Two dictionaries the caller holds, not yet submitted. *)
Definition two_events : Webhook.World :=
  {| Webhook.objects := <[1%nat := noop_file_event]> {[0%nat := bad_alert]};
     Webhook.logs := [];
     Webhook.self := Webhook.init "http://localhost:5678" |}.

(** Both submitted, the alert first. *)
Definition two_queued : Webhook.World :=
  Webhook.submit_all
    [(0%nat, at_us 1, at_us 2); (1%nat, at_us 3, at_us 4)] two_events.

Definition tick (i : nat) : datetime := at_us (Z.of_nat i).

(** A spy: its only attribute counts the calls of [execute]. *)
Definition spy_execute (_ : pydict) (calls : nat) : outcome exn pydict * nat :=
  (Return {["success" := PBool true]}, S calls).

(** An agent whose [execute] raises [RuntimeError("boom")]. *)
Definition raising_execute (_ : pydict) (calls : nat) : outcome exn pydict * nat :=
  (Raise (PyExc "RuntimeError" "boom"), S calls).

(** A stub that returns [{"success": True, "files_processed": 3}]. *)
Definition stub_execute (_ : pydict) (calls : nat) : outcome exn pydict * nat :=
  (Return (<["files_processed" := PInt 3]> {["success" := PBool true]}), S calls).

Definition manager_of (agent : Agents.BaseAgent nat) : Agents.AgentManager nat :=
  Agents.init agent (at_us 0) (at_us 0).

Definition spy_agent : Agents.BaseAgent nat :=
  Agents.new_agent "File Organization Agent" 0%nat spy_execute
    Agents.default_validate_parameters.

Definition disabled_spy : Agents.AgentManager nat :=
  (Agents.disable_agent "file_organization" (at_us 0) (manager_of spy_agent)).2.

Definition raising_manager : Agents.AgentManager nat :=
  manager_of (Agents.new_agent "File Organization Agent" 0%nat raising_execute
                Agents.default_validate_parameters).

Definition stub_manager : Agents.AgentManager nat :=
  manager_of (Agents.new_agent "File Organization Agent" 0%nat stub_execute
                Agents.default_validate_parameters).

Definition process_documents : pydict :=
  {["operation" := PStr "process_documents"]}.

End Samples.

(** * Properties *)

(** ** Sanity checks of the embedding against the Python library *)

Example sha256_constants :
  length SHA256.K = 64%nat /\ length SHA256.H0 = 8%nat
  /\ SHA256.K !! 0%nat = Some 0x428a2f98 /\ SHA256.K !! 63%nat = Some 0xc67178f2
  /\ SHA256.H0 !! 0%nat = Some 0x6a09e667 /\ SHA256.H0 !! 7%nat = Some 0x5be0cd19.
Proof. repeat split; reflexivity. Qed.

Example sha256_abc :
  SHA256.hexdigest "abc"
  = "ba7816bf8f01cfea414140de5dae2223b00361a396177a9cb410ff61f20015ad".
Proof. vm_compute. reflexivity. Qed.

Example sha256_empty :
  SHA256.hexdigest EmptyString
  = "e3b0c44298fc1c149afbf4c8996fb92427ae41e4649b934ca495991b7852b855".
Proof. vm_compute. reflexivity. Qed.

Example sha256_two_blocks :
  SHA256.hexdigest (string_of_list_ascii (replicate 70 "a"%char))
  = "6bd5e5034855a11241f0dee8fc72850ffd9955b28347a86428b5fa19119f6ad0".
Proof. vm_compute. reflexivity. Qed.

Example sha256_pad_boundary :
  SHA256.hexdigest (string_of_list_ascii (replicate 56 "a"%char))
  = "b35439a4ac6f0948b6d6f9e3c6af0f5f590ce20f1bde7090ef7970686ec6738a".
Proof. vm_compute. reflexivity. Qed.

Example strftime_id_example :
  strftime_id (mkDatetime 2025 8 9 7 5 3 42) = "20250809_070503_000042".
Proof. reflexivity. Qed.

Example isoformat_example :
  isoformat (mkDatetime 2025 8 9 7 5 3 42) = "2025-08-09T07:05:03.000042"
  /\ isoformat (mkDatetime 2025 12 31 23 59 59 0) = "2025-12-31T23:59:59".
Proof. split; reflexivity. Qed.

Example total_seconds_example :
  total_seconds_between (mkDatetime 2024 3 1 0 0 0 500000)
                        (mkDatetime 2024 2 28 23 59 59 0)
  = Qmake 86401500000 1000000.
Proof. reflexivity. Qed.

(** ** The security manager *)

Section SecurityFacts.
Import Security.
Implicit Types (self : SecurityManager) (ts : list Q).

Lemma Qltb_lt (a b : Q) : Qltb a b = true <-> (a < b)%Q.
Proof. unfold Qltb, Qlt. apply Z.ltb_lt. Qed.

Lemma Qltb_ge (a b : Q) : Qltb a b = false <-> (b <= a)%Q.
Proof. unfold Qltb, Qle. rewrite Z.ltb_ge. reflexivity. Qed.

Lemma elem_of_recent (W now t : Q) (reqs : list Q) :
  t ∈ recent W now reqs <-> t ∈ reqs /\ (now - t < W)%Q.
Proof.
  unfold recent. rewrite !list_elem_of_In, filter_In, Qltb_lt. reflexivity.
Qed.

Lemma recent_all (W now : Q) (reqs : list Q) :
  (forall t, t ∈ reqs -> (now - t < W)%Q) -> recent W now reqs = reqs.
Proof.
  induction reqs as [|t reqs IH]; intros Hall; [reflexivity|].
  unfold recent in *. simpl.
  destruct (Qltb (now - t) W) eqn:E.
  - f_equal. apply IH. intros t' Ht'. apply Hall. by right.
  - apply Qltb_ge in E. specialize (Hall t ltac:(left)). lra.
Qed.

Lemma recent_none (W now : Q) (reqs : list Q) :
  (forall t, t ∈ reqs -> (W <= now - t)%Q) -> recent W now reqs = [].
Proof.
  induction reqs as [|t reqs IH]; intros Hall; [reflexivity|].
  unfold recent in *. simpl.
  destruct (Qltb (now - t) W) eqn:E.
  - apply Qltb_lt in E. specialize (Hall t ltac:(left)). lra.
  - apply IH. intros t' Ht'. apply Hall. by right.
Qed.

(** The window of the key after one call, and the outcome of the call. *)
Lemma check_rate_limit_unfold api_key now self :
  let kept := recent (rate_limit_window self) now (window_of api_key self) in
  let '(r, self') := check_rate_limit api_key now self in
  rate_limit_window self' = rate_limit_window self
  /\ rate_limit_requests self' = rate_limit_requests self
  /\ api_keys self' = api_keys self
  /\ (rate_limit_requests self <= Z.of_nat (length kept) ->
        r = Raise RateLimited /\ window_of api_key self' = kept)
  /\ (Z.of_nat (length kept) < rate_limit_requests self ->
        r = Return tt /\ window_of api_key self' = kept ++ [now]).
Proof.
  unfold check_rate_limit, window_of.
  assert (Hsame :
    default [] (match request_counts self !! api_key with
                | None => <[api_key := []]> (request_counts self)
                | Some _ => request_counts self
                end !! api_key)
    = default [] (request_counts self !! api_key)).
  { destruct (request_counts self !! api_key) eqn:E; [by rewrite E|].
    by rewrite lookup_insert_eq. }
  rewrite Hsame. cbv zeta.
  destruct (Z.geb_spec
    (Z.of_nat (length (recent (rate_limit_window self) now
       (default [] (request_counts self !! api_key)))))
    (rate_limit_requests self)) as [Hge|Hlt]; simpl;
    rewrite ?lookup_insert_eq; simpl; repeat split; try done; lia.
Qed.

Lemma check_rate_limit_fail api_key now self :
  rate_limit_requests self
    <= Z.of_nat (length (recent (rate_limit_window self) now (window_of api_key self))) ->
  (check_rate_limit api_key now self).1 = Raise RateLimited
  /\ window_of api_key (check_rate_limit api_key now self).2
     = recent (rate_limit_window self) now (window_of api_key self).
Proof.
  intros H. pose proof (check_rate_limit_unfold api_key now self) as U.
  cbv zeta in U. destruct (check_rate_limit api_key now self) as [r s'].
  simpl. destruct U as (_ & _ & _ & U & _). auto.
Qed.

Lemma check_rate_limit_pass api_key now self :
  Z.of_nat (length (recent (rate_limit_window self) now (window_of api_key self)))
    < rate_limit_requests self ->
  (check_rate_limit api_key now self).1 = Return tt
  /\ window_of api_key (check_rate_limit api_key now self).2
     = recent (rate_limit_window self) now (window_of api_key self) ++ [now].
Proof.
  intros H. pose proof (check_rate_limit_unfold api_key now self) as U.
  cbv zeta in U. destruct (check_rate_limit api_key now self) as [r s'].
  simpl. destruct U as (_ & _ & _ & _ & U). auto.
Qed.

Lemma check_rate_limit_config api_key now self :
  rate_limit_window (check_rate_limit api_key now self).2 = rate_limit_window self
  /\ rate_limit_requests (check_rate_limit api_key now self).2
     = rate_limit_requests self.
Proof.
  pose proof (check_rate_limit_unfold api_key now self) as U.
  cbv zeta in U. destruct (check_rate_limit api_key now self) as [r s'].
  simpl. destruct U as (? & ? & _). auto.
Qed.

(** What a call leaves in the window was there before or is the call itself. *)
Lemma check_rate_limit_window_from api_key now self t :
  t ∈ window_of api_key (check_rate_limit api_key now self).2 ->
  (t ∈ window_of api_key self /\ (now - t < rate_limit_window self)%Q) \/ t = now.
Proof.
  pose proof (check_rate_limit_unfold api_key now self) as U.
  cbv zeta in U. destruct (check_rate_limit api_key now self) as [r s'].
  simpl. destruct U as (_ & _ & _ & Uf & Up).
  destruct (Z_le_gt_dec (rate_limit_requests self)
    (Z.of_nat (length (recent (rate_limit_window self) now (window_of api_key self)))))
    as [Hge|Hlt].
  - destruct (Uf Hge) as [_ ->]. rewrite elem_of_recent. auto.
  - destruct (Up ltac:(lia)) as [_ ->].
    rewrite elem_of_app, elem_of_recent, list_elem_of_singleton. tauto.
Qed.

Lemma check_all_cons api_key t ts self :
  check_all api_key (t :: ts) self
  = ((check_rate_limit api_key t self).1
       :: (check_all api_key ts (check_rate_limit api_key t self).2).1,
     (check_all api_key ts (check_rate_limit api_key t self).2).2).
Proof.
  simpl. destruct (check_rate_limit api_key t self) as [r s1]. simpl.
  destruct (check_all api_key ts s1) as [rs s2]. reflexivity.
Qed.

Lemma check_all_config api_key ts self :
  rate_limit_window (check_all api_key ts self).2 = rate_limit_window self
  /\ rate_limit_requests (check_all api_key ts self).2 = rate_limit_requests self.
Proof.
  revert self. induction ts as [|t ts IH]; intros self; [done|].
  rewrite check_all_cons. simpl.
  destruct (IH (check_rate_limit api_key t self).2) as [-> ->].
  apply check_rate_limit_config.
Qed.

Lemma check_all_window_from api_key ts self t :
  t ∈ window_of api_key (check_all api_key ts self).2 ->
  t ∈ window_of api_key self \/ t ∈ ts.
Proof.
  revert self. induction ts as [|t0 ts IH]; intros self; [by left|].
  rewrite check_all_cons. simpl. intros H.
  destruct (IH _ H) as [H1|H1].
  - destruct (check_rate_limit_window_from _ _ _ _ H1) as [[? _]| ->];
      [by left | right; by left].
  - right. by right.
Qed.

Lemma burst_of_lookup (W : Q) ts :
  (forall (i j : nat) ti tj,
      (i < j)%nat -> ts !! i = Some ti -> ts !! j = Some tj -> (tj - ti < W)%Q) ->
  burst W ts.
Proof.
  induction ts as [|t ts IH]; intros H; [exact I|]. split.
  - intros t' Ht'. apply list_elem_of_lookup in Ht' as [j Hj].
    apply (H 0%nat (S j) t t'); [lia|done|done].
  - apply IH. intros i j ti tj Hij Hi Hj.
    apply (H (S i) (S j) ti tj); [lia|done|done].
Qed.

(** A burst against a window it falls into: request number [k] passes
    exactly when fewer than the maximum are in the window before it. *)
Lemma check_all_burst api_key ts : forall self,
  (forall t t', t ∈ window_of api_key self -> t' ∈ ts ->
                (t' - t < rate_limit_window self)%Q) ->
  burst (rate_limit_window self) ts ->
  forall (k : nat) r, (check_all api_key ts self).1 !! k = Some r ->
    r = if (Z.of_nat (length (window_of api_key self) + k)
              <? rate_limit_requests self)
        then Return tt else Raise RateLimited.
Proof.
  induction ts as [|t ts IH]; intros self Hold Hb k r Hk; [done|].
  rewrite check_all_cons in Hk. simpl in Hk.
  destruct Hb as [Hnext Hb].
  assert (Hkept : recent (rate_limit_window self) t (window_of api_key self)
                  = window_of api_key self).
  { apply recent_all. intros t0 Ht0. apply Hold; [done|by left]. }
  destruct (check_rate_limit_config api_key t self) as [HW HM].
  destruct (Z.ltb_spec (Z.of_nat (length (window_of api_key self)))
                       (rate_limit_requests self)) as [Hlt|Hge].
  - destruct (check_rate_limit_pass api_key t self) as [Hr Hw];
      [rewrite Hkept; lia|].
    rewrite Hkept in Hw.
    destruct k as [|k]; simpl in Hk.
    + rewrite Hr in Hk. inversion Hk; subst r.
      rewrite Nat.add_0_r. destruct (Z.ltb_spec
        (Z.of_nat (length (window_of api_key self))) (rate_limit_requests self));
        [done|lia].
    + apply IH in Hk.
      * rewrite Hk, Hw, HM, length_app. simpl.
        replace (length (window_of api_key self) + 1 + k)%nat
          with (length (window_of api_key self) + S k)%nat by lia.
        reflexivity.
      * rewrite Hw, HW. intros t0 t' Ht0 Ht'.
        apply elem_of_app in Ht0 as [Ht0|Ht0].
        -- apply Hold; [done|by right].
        -- apply list_elem_of_singleton in Ht0 as ->. by apply Hnext.
      * by rewrite HW.
  - destruct (check_rate_limit_fail api_key t self) as [Hr Hw];
      [rewrite Hkept; lia|].
    rewrite Hkept in Hw.
    destruct k as [|k]; simpl in Hk.
    + rewrite Hr in Hk. inversion Hk; subst r.
      destruct (Z.ltb_spec (Z.of_nat (length (window_of api_key self) + 0))
                           (rate_limit_requests self)); [lia|done].
    + apply IH in Hk.
      * rewrite Hk, Hw, HM.
        destruct (Z.ltb_spec (Z.of_nat (length (window_of api_key self) + k))
                             (rate_limit_requests self)); [lia|].
        destruct (Z.ltb_spec (Z.of_nat (length (window_of api_key self) + S k))
                             (rate_limit_requests self)); [lia|done].
      * rewrite Hw, HW. intros t0 t' Ht0 Ht'. apply Hold; [done|by right].
      * by rewrite HW.
Qed.

Lemma check_all_length api_key ts self :
  length (check_all api_key ts self).1 = length ts.
Proof.
  revert self. induction ts as [|t ts IH]; intros self; [done|].
  rewrite check_all_cons. simpl. by rewrite IH.
Qed.

End SecurityFacts.

(** C4.  With the configuration of [__init__] (a window of 60 seconds, at most
    100 requests), [check_rate_limit] keeps of the key's window the requests
    less than 60 seconds old, so none older than [now - 60] remains; it raises
    [HTTPException(429)] when at least 100 are kept and leaves the kept ones,
    and otherwise appends [now] and returns.  Hence, from an empty window, of
    more than 100 requests that all fall in one window the first 100 pass and
    the 101st is refused, and a request made once the window has elapsed for
    all of them passes again. *)
Theorem check_rate_limit_sliding_window
    (self : Security.SecurityManager) (api_key : string) :
  Security.rate_limit_window self = 60%Q ->
  Security.rate_limit_requests self = 100 ->
  (forall now : Q,
     let kept := Security.recent 60 now (Security.window_of api_key self) in
     let r := (Security.check_rate_limit api_key now self).1 in
     let after :=
       Security.window_of api_key (Security.check_rate_limit api_key now self).2 in
     (forall t, t ∈ kept <-> t ∈ Security.window_of api_key self /\ (now - t < 60)%Q)
     /\ (forall t, t ∈ after -> ~ (t < now - 60)%Q)
     /\ ((100 <= length kept)%nat ->
           r = Raise (Security.HTTPException 429
                 "Rate limit exceeded. Maximum 100 requests per minute.")
           /\ after = kept)
     /\ ((length kept < 100)%nat -> r = Return tt /\ after = kept ++ [now]))
  /\ (forall (ts : list Q) (later : Q),
        Security.window_of api_key self = [] ->
        (100 < length ts)%nat ->
        (forall (i j : nat) ti tj,
            (i < j)%nat -> ts !! i = Some ti -> ts !! j = Some tj ->
            (tj - ti < 60)%Q) ->
        let rs := (Security.check_all api_key ts self).1 in
        let self' := (Security.check_all api_key ts self).2 in
        (forall k : nat, (k < 100)%nat -> rs !! k = Some (Return tt))
        /\ rs !! 100%nat = Some (Raise Security.RateLimited)
        /\ ((forall t, t ∈ ts -> (60 <= later - t)%Q) ->
              (Security.check_rate_limit api_key later self').1 = Return tt)).
Proof.
  intros HW HM. split.
  - intros now. cbv zeta.
    pose proof (check_rate_limit_unfold api_key now self) as U. cbv zeta in U.
    destruct (Security.check_rate_limit api_key now self) as [r s']. simpl.
    rewrite HW, HM in U. destruct U as (_ & _ & _ & Uf & Up).
    assert (Hafter : forall t, t ∈ Security.window_of api_key s' ->
                               ~ (t < now - 60)%Q).
    { intros t Ht.
      destruct (le_lt_dec 100 (length (Security.recent 60 now
                   (Security.window_of api_key self)))) as [Hge|Hlt].
      - destruct (Uf ltac:(lia)) as [_ E]. rewrite E in Ht.
        apply elem_of_recent in Ht as [_ Ht]. lra.
      - destruct (Up ltac:(lia)) as [_ E]. rewrite E in Ht.
        apply elem_of_app in Ht as [Ht|Ht].
        + apply elem_of_recent in Ht as [_ Ht]. lra.
        + apply list_elem_of_singleton in Ht as ->. lra. }
    split; [intros t; apply elem_of_recent|].
    split; [exact Hafter|].
    split; intros H; [apply Uf|apply Up]; lia.
  - intros ts later Hfresh Hlen Hin. cbv zeta.
    assert (Hb : Security.burst (Security.rate_limit_window self) ts).
    { rewrite HW. by apply burst_of_lookup. }
    assert (Hold : forall t t', t ∈ Security.window_of api_key self -> t' ∈ ts ->
                     (t' - t < Security.rate_limit_window self)%Q).
    { rewrite Hfresh. intros t t' Ht. by apply elem_of_nil in Ht. }
    pose proof (check_all_burst api_key ts self Hold Hb) as Hk.
    pose proof (check_all_length api_key ts self) as Hl.
    rewrite Hfresh, HM in Hk. simpl in Hk.
    split; [|split].
    + intros k Hlt.
      destruct ((Security.check_all api_key ts self).1 !! k) as [r|] eqn:E.
      * rewrite (Hk k r E). destruct (Z.ltb_spec (Z.of_nat k) 100); [done|lia].
      * apply lookup_ge_None in E. lia.
    + destruct ((Security.check_all api_key ts self).1 !! 100%nat) as [r|] eqn:E.
      * rewrite (Hk _ r E). reflexivity.
      * apply lookup_ge_None in E. lia.
    + intros Hlater.
      destruct (check_all_config api_key ts self) as [HW' HM'].
      apply check_rate_limit_pass. rewrite HW', HM', HW, HM.
      rewrite recent_none; [simpl; lia|].
      intros t Ht. apply check_all_window_from in Ht as [Ht|Ht].
      * rewrite Hfresh in Ht. by apply elem_of_nil in Ht.
      * by apply Hlater.
Qed.

(** On the manager of [__init__]: a first request of [n8n_main] at time 5
    passes and is the whole window. *)
Lemma check_rate_limit_sliding_window_witness :
  Security.rate_limit_window Security.init = 60%Q
  /\ Security.rate_limit_requests Security.init = 100
  /\ (Security.check_rate_limit "n8n_main" 5 Security.init).1 = Return tt
  /\ Security.window_of "n8n_main"
       (Security.check_rate_limit "n8n_main" 5 Security.init).2 = [5%Q].
Proof.
  split; [reflexivity|]. split; [reflexivity|].
  destruct (check_rate_limit_sliding_window Security.init "n8n_main"
              eq_refl eq_refl) as [Hone _].
  destruct (Hone 5%Q) as (_ & _ & _ & Hpass).
  apply Hpass. vm_compute. lia.
Defined.

(** ** Key rotation *)

Section DictFacts.
Context {V : Type}.
Implicit Types (d : list (string * V)).

Lemma dict_keys_setitem k v d :
  k ∈ dict_keys d -> dict_keys (dict_setitem k v d) = dict_keys d.
Proof.
  unfold dict_keys. induction d as [|[k' v'] d IH]; intros Hk.
  - by apply elem_of_nil in Hk.
  - simpl. destruct (decide (k' = k)) as [->|Hne]; [done|].
    simpl. f_equal. apply IH. simpl in Hk.
    apply elem_of_cons in Hk as [Hk|Hk]; [congruence|done].
Qed.

Lemma dict_get_elem_of k v d :
  NoDup (dict_keys d) -> (k, v) ∈ d -> dict_get k d = Some v.
Proof.
  unfold dict_keys. induction d as [|[k' v'] d IH]; intros Hnd Hin.
  - by apply elem_of_nil in Hin.
  - simpl in *. apply NoDup_cons in Hnd as [Hk' Hnd].
    apply elem_of_cons in Hin as [Hin|Hin].
    + inversion Hin; subst. by rewrite decide_True.
    + destruct (decide (k' = k)) as [->|Hne]; [|by apply IH].
      exfalso. apply Hk'. apply list_elem_of_fmap. by exists (k, v).
Qed.

Lemma elem_of_dict_setitem k v k' v' d :
  NoDup (dict_keys d) ->
  (k', v') ∈ dict_setitem k v d ->
  (k' = k /\ v' = v) \/ (k' <> k /\ dict_get k' d = Some v').
Proof.
  unfold dict_keys. induction d as [|[k0 v0] d IH]; intros Hnd Hin; simpl in *.
  - apply list_elem_of_singleton in Hin. inversion Hin. by left.
  - apply NoDup_cons in Hnd as [Hk0 Hnd].
    destruct (decide (k0 = k)) as [->|Hne].
    + apply elem_of_cons in Hin as [Hin|Hin]; [inversion Hin; by left|].
      right. assert (k' <> k).
      { intros ->. apply Hk0. apply list_elem_of_fmap. by exists (k, v'). }
      split; [done|]. rewrite decide_False by done.
      by apply dict_get_elem_of.
    + apply elem_of_cons in Hin as [Hin|Hin].
      * inversion Hin; subst. right. split; [done|]. by rewrite decide_True.
      * destruct (IH Hnd Hin) as [[-> ->]|[Hk' Hg]]; [by left|].
        right. split; [done|].
        destruct (decide (k0 = k')) as [->|]; [|done].
        exfalso. apply Hk0. clear -Hg.
        induction d as [|[k1 v1] d IH]; [done|]. simpl in *.
        destruct (decide (k1 = k')) as [->|]; [by left|]. right. by apply IH.
Qed.

Lemma elem_of_dict_setitem_same k v d :
  k ∈ dict_keys d -> (k, v) ∈ dict_setitem k v d.
Proof.
  unfold dict_keys. induction d as [|[k0 v0] d IH]; intros Hk; simpl in *.
  - by apply elem_of_nil in Hk.
  - destruct (decide (k0 = k)) as [->|Hne]; [by left|].
    right. apply IH. apply elem_of_cons in Hk as [Hk|Hk]; [congruence|done].
Qed.
End DictFacts.

Section RotationFacts.
Import Security.

Lemma validate_api_key_Return candidate name self :
  validate_api_key candidate self = Return name ->
  (name, candidate) ∈ api_keys self.
Proof.
  unfold validate_api_key. case_bool_decide; [done|].
  destruct (List.find _ _) as [[n k]|] eqn:E; [|done].
  intros [= ->]. apply find_some in E as [Hin Hk].
  apply bool_decide_eq_true in Hk. simpl in Hk. subst k.
  by apply list_elem_of_In.
Qed.

Lemma validate_api_key_accepts candidate self :
  candidate ∈ dict_values (api_keys self) ->
  exists name, validate_api_key candidate self = Return name.
Proof.
  intros Hin. unfold validate_api_key.
  rewrite bool_decide_eq_false_2 by tauto.
  destruct (List.find _ _) as [[n k]|] eqn:E; [by exists n|].
  exfalso. unfold dict_values in Hin.
  apply list_elem_of_fmap in Hin as [[n k] [-> Hin]].
  apply list_elem_of_In in Hin.
  pose proof (find_none _ _ E _ Hin) as Hf. simpl in Hf.
  by apply bool_decide_eq_false in Hf.
Qed.

Lemma validate_api_key_rejects candidate self :
  candidate ∉ dict_values (api_keys self) ->
  validate_api_key candidate self = Raise Unauthorized.
Proof. intros H. unfold validate_api_key. by rewrite bool_decide_eq_true_2. Qed.

Lemma rotate_api_key_true key_name new_key self self' :
  rotate_api_key key_name new_key self = (true, self') ->
  key_name ∈ dict_keys (api_keys self)
  /\ api_keys self'
     = dict_setitem key_name (SHA256.hexdigest new_key) (api_keys self).
Proof.
  unfold rotate_api_key. case_bool_decide as Hk; [done|].
  intros [= <-]. split; [|done].
  destruct (decide (key_name ∈ dict_keys (api_keys self))); tauto.
Qed.
End RotationFacts.

(** C9, as stated, fails: rotating [n8n_main] to the key that
    [n8n_monitoring] still uses leaves the new key, which is not its own
    digest, a valid credential. *)
Lemma rotate_api_key_new_key_still_valid :
  ~ (forall (self self' : Security.SecurityManager) (key_name new_key : string),
       Security.rotate_api_key key_name new_key self = (true, self') ->
       new_key <> SHA256.hexdigest new_key ->
       Security.validate_api_key new_key self' = Raise Security.Unauthorized).
Proof.
  intros H.
  specialize (H Security.init
    (Security.rotate_api_key "n8n_main" "sk_codealchemy_monitor_2025" Security.init).2
    "n8n_main" "sk_codealchemy_monitor_2025" eq_refl).
  assert (Hne : "sk_codealchemy_monitor_2025"
                <> SHA256.hexdigest "sk_codealchemy_monitor_2025")
    by (vm_compute; discriminate).
  specialize (H Hne). vm_compute in H. discriminate H.
Qed.

(** C9, amended.  After [rotate_api_key key_name new_key] has returned
    [True] the dictionary holds the SHA-256 hex digest of [new_key] for
    [key_name].  [validate_api_key new_key] raises [HTTPException(401)] when
    [new_key] differs from its digest and is not the key stored for another
    name; a credential accepted for [key_name] is the digest; and the digest
    is accepted for [key_name] when no other name stores the same string. *)
Theorem rotate_api_key_stores_digest
    (self self' : Security.SecurityManager) (key_name new_key : string) :
  NoDup (dict_keys (Security.api_keys self)) ->
  Security.rotate_api_key key_name new_key self = (true, self') ->
  dict_get key_name (Security.api_keys self') = Some (SHA256.hexdigest new_key)
  /\ (new_key <> SHA256.hexdigest new_key ->
      (forall name, name <> key_name ->
                    dict_get name (Security.api_keys self) <> Some new_key) ->
      Security.validate_api_key new_key self'
      = Raise (Security.HTTPException 401 "Invalid API key"))
  /\ (forall candidate,
        Security.validate_api_key candidate self' = Return key_name ->
        candidate = SHA256.hexdigest new_key)
  /\ ((forall name, name <> key_name ->
         dict_get name (Security.api_keys self) <> Some (SHA256.hexdigest new_key)) ->
      Security.validate_api_key (SHA256.hexdigest new_key) self' = Return key_name).
Proof.
  intros Hnd Hrot. apply rotate_api_key_true in Hrot as [Hk Hkeys].
  assert (Hnd' : NoDup (dict_keys (Security.api_keys self'))).
  { rewrite Hkeys, dict_keys_setitem; done. }
  assert (Hstored : (key_name, SHA256.hexdigest new_key) ∈ Security.api_keys self').
  { rewrite Hkeys. by apply elem_of_dict_setitem_same. }
  split; [by apply dict_get_elem_of|].
  split; [|split].
  - intros Hne Hother. apply validate_api_key_rejects.
    unfold dict_values. intros Hin.
    apply list_elem_of_fmap in Hin as [[n k] [-> Hin]]. simpl in *.
    rewrite Hkeys in Hin.
    apply elem_of_dict_setitem in Hin; [|done].
    destruct Hin as [[_ E]|[Hn Hg]]; [congruence|].
    by apply (Hother n).
  - intros candidate Hv. apply validate_api_key_Return in Hv.
    pose proof (dict_get_elem_of _ _ _ Hnd' Hv) as E1.
    pose proof (dict_get_elem_of _ _ _ Hnd' Hstored) as E2. congruence.
  - intros Hother.
    destruct (validate_api_key_accepts (SHA256.hexdigest new_key) self') as [n Hn].
    { unfold dict_values. apply list_elem_of_fmap.
      by exists (key_name, SHA256.hexdigest new_key). }
    rewrite Hn. f_equal.
    apply validate_api_key_Return in Hn. rewrite Hkeys in Hn.
    apply elem_of_dict_setitem in Hn; [|done].
    destruct Hn as [[-> _]|[Hne Hg]]; [done|].
    by destruct (Hother n Hne).
Qed.

(** On the manager of [__init__]: after rotating [n8n_main] to ["abc"] the
    dictionary holds the digest of ["abc"]. *)
Lemma rotate_api_key_stores_digest_witness :
  NoDup (dict_keys (Security.api_keys Security.init))
  /\ dict_get "n8n_main"
       (Security.api_keys (Security.rotate_api_key "n8n_main" "abc" Security.init).2)
     = Some "ba7816bf8f01cfea414140de5dae2223b00361a396177a9cb410ff61f20015ad".
Proof.
  assert (Hnd : NoDup (dict_keys (Security.api_keys Security.init))).
  { apply (bool_decide_unpack _). vm_compute. exact I. }
  split; [exact Hnd|].
  destruct (rotate_api_key_stores_digest Security.init
              (Security.rotate_api_key "n8n_main" "abc" Security.init).2
              "n8n_main" "abc" Hnd eq_refl) as [H _].
  rewrite H. vm_compute. reflexivity.
Defined.

(** ** Bounded histories *)

Section HistoryFacts.
Context {A : Type}.
Implicit Types (l : list A) (x : A).

Lemma keep_last_length n l : length (keep_last n l) = Nat.min (length l) n.
Proof. unfold keep_last. rewrite length_drop. lia. Qed.

Lemma keep_last_short n l : (length l <= n)%nat -> keep_last n l = l.
Proof.
  intros H. unfold keep_last. by replace (length l - n)%nat with 0%nat by lia.
Qed.

Lemma append_evict_keep_last cap l x :
  0 <= cap ->
  append_evict cap (keep_last (Z.to_nat cap) l) x
  = keep_last (Z.to_nat cap) (l ++ [x]).
Proof.
  intros Hcap. unfold append_evict.
  rewrite length_app, keep_last_length. simpl.
  destruct (le_lt_dec (Z.to_nat cap) (length l)) as [Hfull|Hroom].
  - destruct (Z.gtb_spec
      (Z.of_nat (Nat.min (length l) (Z.to_nat cap) + 1)) cap) as [_|Hle]; [|lia].
    unfold keep_last. rewrite length_app. simpl.
    rewrite <- drop_app_le by lia. rewrite drop_drop. f_equal. lia.
  - destruct (Z.gtb_spec
      (Z.of_nat (Nat.min (length l) (Z.to_nat cap) + 1)) cap) as [Hgt|_]; [lia|].
    rewrite !keep_last_short; [done|rewrite length_app; simpl; lia|lia].
Qed.

Lemma append_evict_bounded cap l x :
  Z.of_nat (length l) <= cap -> Z.of_nat (length (append_evict cap l x)) <= cap.
Proof.
  intros H. unfold append_evict. rewrite length_app. simpl.
  destruct (Z.gtb_spec (Z.of_nat (length l + 1)) cap) as [Hgt|Hle].
  - rewrite length_drop, length_app. simpl. lia.
  - rewrite length_app. simpl. lia.
Qed.

End HistoryFacts.

(** ** The webhook handler *)

Section WebhookFacts.
Import Webhook.
Implicit Types (w : World) (l : loc) (d : pydict).

Lemma process_webhook_history l t1 t2 w :
  webhook_history (self (process_webhook l t1 t2 w).2)
  = append_evict (max_history (self w)) (webhook_history (self w)) l.
Proof. reflexivity. Qed.

Lemma process_webhook_queue l t1 t2 w :
  processing_queue (self (process_webhook l t1 t2 w).2)
  = processing_queue (self w) ++ [l].
Proof. reflexivity. Qed.

Lemma process_webhook_max_history l t1 t2 w :
  max_history (self (process_webhook l t1 t2 w).2) = max_history (self w).
Proof. reflexivity. Qed.

Lemma process_webhook_id l t1 t2 w :
  (process_webhook l t1 t2 w).1 !! "webhook_id"
  = Some (PStr (_generate_webhook_id t2)).
Proof.
  unfold process_webhook. cbn [fst].
  rewrite lookup_insert_ne by done. by rewrite lookup_insert_eq.
Qed.

Lemma submit_all_cons l t1 t2 subs w :
  submit_all ((l, t1, t2) :: subs) w = submit_all subs (process_webhook l t1 t2 w).2.
Proof. reflexivity. Qed.

Lemma submit_all_max_history subs w :
  max_history (self (submit_all subs w)) = max_history (self w).
Proof.
  revert w. induction subs as [|[[l t1] t2] subs IH]; intros w; [done|].
  by rewrite submit_all_cons, IH.
Qed.

Lemma submit_all_queue subs w :
  processing_queue (self (submit_all subs w))
  = processing_queue (self w) ++ refs_of subs.
Proof.
  revert w. induction subs as [|[[l t1] t2] subs IH]; intros w.
  - simpl. by rewrite app_nil_r.
  - rewrite submit_all_cons, IH, process_webhook_queue, <- app_assoc. reflexivity.
Qed.

Lemma submit_all_bounded subs w :
  Z.of_nat (length (webhook_history (self w))) <= max_history (self w) ->
  Z.of_nat (length (webhook_history (self (submit_all subs w))))
    <= max_history (self w).
Proof.
  revert w. induction subs as [|[[l t1] t2] subs IH]; intros w Hb; [done|].
  rewrite submit_all_cons, <- (process_webhook_max_history l t1 t2 w). apply IH.
  rewrite process_webhook_history, process_webhook_max_history.
  by apply append_evict_bounded.
Qed.

(** The history is what is left of everything submitted so far. *)
Lemma submit_all_keep_last subs : forall w (sofar : list loc),
  0 <= max_history (self w) ->
  webhook_history (self w) = keep_last (Z.to_nat (max_history (self w))) sofar ->
  webhook_history (self (submit_all subs w))
  = keep_last (Z.to_nat (max_history (self w))) (sofar ++ refs_of subs).
Proof.
  induction subs as [|[[l t1] t2] subs IH]; intros w sofar Hcap Hh.
  - simpl. by rewrite app_nil_r.
  - rewrite submit_all_cons, (IH _ (sofar ++ [l])).
    + rewrite process_webhook_max_history, <- app_assoc. reflexivity.
    + by rewrite process_webhook_max_history.
    + rewrite process_webhook_history, process_webhook_max_history, Hh.
      by apply append_evict_keep_last.
Qed.

(** *** The consumer loop *)

Lemma loop_body_cons now w l queue :
  processing_queue (self w) = l :: queue ->
  exists w',
    loop_body now w = Some w'
    /\ objects w' = <[l := processed_record (default ∅ (objects w !! l)) now]> (objects w)
    /\ processing_queue (self w') = queue
    /\ webhook_history (self w') = webhook_history (self w)
    /\ max_history (self w') = max_history (self w)
    /\ exists last_log,
         logs w' = logs w ++ (_route_webhook (default ∅ (objects w !! l))).1 ++ [last_log].
Proof.
  intros Hq. unfold loop_body, processed_record. rewrite Hq.
  destruct (_route_webhook (default ∅ (objects w !! l))) as [route_logs result].
  eexists. split; [reflexivity|]. simpl. repeat split. eauto.
Qed.

Lemma loop_body_nil now w :
  processing_queue (self w) = [] -> loop_body now w = None.
Proof. intros Hq. unfold loop_body. by rewrite Hq. Qed.

Lemma process_webhook_queue_logs clock : forall w r,
  r ∈ logs w -> r ∈ logs (_process_webhook_queue clock w).
Proof.
  induction clock as [|now clock IH]; intros w r Hr; [done|]. simpl.
  destruct (processing_queue (self w)) as [|l queue] eqn:Hq.
  - by rewrite loop_body_nil.
  - destruct (loop_body_cons now w l queue Hq) as (w' & -> & _ & _ & _ & _ & ll & Hl).
    apply IH. rewrite Hl. apply elem_of_app. by left.
Qed.

Lemma process_webhook_queue_history clock : forall w,
  webhook_history (self (_process_webhook_queue clock w)) = webhook_history (self w).
Proof.
  induction clock as [|now clock IH]; intros w; [done|]. simpl.
  destruct (processing_queue (self w)) as [|l queue] eqn:Hq.
  - by rewrite loop_body_nil.
  - destruct (loop_body_cons now w l queue Hq) as (w' & -> & _ & _ & Hh & _).
    by rewrite IH.
Qed.

(** The loop, given one clock reading for each queued record. *)
Lemma process_webhook_queue_drains clock : forall w,
  NoDup (processing_queue (self w)) ->
  length clock = length (processing_queue (self w)) ->
  processing_queue (self (_process_webhook_queue clock w)) = []
  /\ (forall (i : nat) l now,
        processing_queue (self w) !! i = Some l -> clock !! i = Some now ->
        objects (_process_webhook_queue clock w) !! l
        = Some (processed_record (default ∅ (objects w !! l)) now)
        /\ forall r, r ∈ (_route_webhook (default ∅ (objects w !! l))).1 ->
                     r ∈ logs (_process_webhook_queue clock w))
  /\ (forall l, l ∉ processing_queue (self w) ->
        objects (_process_webhook_queue clock w) !! l = objects w !! l).
Proof.
  induction clock as [|now clock IH]; intros w Hnd Hlen.
  - destruct (processing_queue (self w)) eqn:Hq; [|done]. simpl.
    rewrite Hq. repeat split; try done.
  - destruct (processing_queue (self w)) as [|l queue] eqn:Hq; [done|].
    destruct (loop_body_cons now w l queue Hq)
      as (w' & Hbody & Hobj & Hqueue & _ & _ & ll & Hlogs).
    simpl. rewrite Hbody.
    apply NoDup_cons in Hnd as [Hl Hnd]. simpl in Hlen.
    destruct (IH w') as (Hend & Hproc & Hrest).
    { by rewrite Hqueue. }
    { rewrite Hqueue. lia. }
    rewrite Hqueue in Hproc, Hrest.
    split; [done|]. split.
    + intros i l' now' Hi Hc. destruct i as [|i]; simpl in Hi, Hc.
      * inversion Hi; inversion Hc; subst l' now'. split.
        -- rewrite (Hrest l Hl), Hobj. by rewrite lookup_insert_eq.
        -- intros r Hr. apply process_webhook_queue_logs. rewrite Hlogs.
           rewrite !elem_of_app. auto.
      * assert (Hne : l <> l').
        { intros ->. apply Hl. by apply list_elem_of_lookup_2 in Hi. }
        destruct (Hproc i l' now' Hi Hc) as [Ho Hr].
        rewrite Hobj, lookup_insert_ne in Ho, Hr by done. by split.
    + intros l' Hl'. apply not_elem_of_cons in Hl' as [Hne Hl'].
      rewrite (Hrest l' Hl'), Hobj. by rewrite lookup_insert_ne.
Qed.

Lemma processed_record_fields d now :
  processed_record d now !! "processed" = Some (PBool true)
  /\ processed_record d now !! "processed_at" = Some (PStr (isoformat now))
  /\ processed_record d now !! "result" = Some (PDict (_route_webhook d).2).
Proof.
  unfold processed_record. repeat split.
  - rewrite lookup_insert_ne by done. rewrite lookup_insert_ne by done.
    by rewrite lookup_insert_eq.
  - rewrite lookup_insert_ne by done. by rewrite lookup_insert_eq.
  - by rewrite lookup_insert_eq.
Qed.

Lemma process_webhook_queue_blocked clock w :
  processing_queue (self w) = [] -> _process_webhook_queue clock w = w.
Proof.
  intros Hq. destruct clock as [|now clock]; [done|].
  simpl. by rewrite loop_body_nil.
Qed.

(** Running the loop on two stretches of clock readings, one after the other. *)
Lemma process_webhook_queue_app clock1 clock2 : forall w,
  _process_webhook_queue (clock1 ++ clock2) w
  = _process_webhook_queue clock2 (_process_webhook_queue clock1 w).
Proof.
  induction clock1 as [|now clock1 IH]; intros w; [done|]. simpl.
  destruct (processing_queue (self w)) as [|l queue] eqn:Hq.
  - rewrite loop_body_nil by done. by rewrite process_webhook_queue_blocked.
  - destruct (loop_body_cons now w l queue Hq) as (w' & -> & _). apply IH.
Qed.

(** After [n] iterations the first [n] records have left the queue. *)
Lemma process_webhook_queue_queue clock : forall w,
  (length clock <= length (processing_queue (self w)))%nat ->
  processing_queue (self (_process_webhook_queue clock w))
  = drop (length clock) (processing_queue (self w)).
Proof.
  induction clock as [|now clock IH]; intros w Hlen; [done|]. simpl.
  destruct (processing_queue (self w)) as [|l queue] eqn:Hq; [simpl in Hlen; lia|].
  destruct (loop_body_cons now w l queue Hq) as (w' & -> & _ & Hqueue & _).
  rewrite IH; rewrite Hqueue; [done|simpl in Hlen; lia].
Qed.

(** A record marked processed stays so. *)
Lemma process_webhook_queue_stays_processed clock : forall w l,
  (objects w !! l ≫= lookup "processed") = Some (PBool true) ->
  (objects (_process_webhook_queue clock w) !! l ≫= lookup "processed")
  = Some (PBool true).
Proof.
  induction clock as [|now clock IH]; intros w l Hp; [done|]. simpl.
  destruct (processing_queue (self w)) as [|l0 queue] eqn:Hq.
  - by rewrite loop_body_nil.
  - destruct (loop_body_cons now w l0 queue Hq) as (w' & -> & Hobj & _).
    apply IH. rewrite Hobj.
    destruct (decide (l0 = l)) as [->|Hne].
    + rewrite lookup_insert_eq. simpl.
      apply (processed_record_fields (default ∅ (objects w !! l)) now).
    + by rewrite lookup_insert_ne.
Qed.

(** The iteration number [i] works on the record queued at position [i]. *)
Lemma process_webhook_queue_turn clock w (i : nat) l now :
  length clock = length (processing_queue (self w)) ->
  processing_queue (self w) !! i = Some l ->
  clock !! i = Some now ->
  let before := _process_webhook_queue (take i clock) w in
  let after := _process_webhook_queue (take (S i) clock) w in
  processing_queue (self before) = l :: drop (S i) (processing_queue (self w))
  /\ objects after
     = <[l := processed_record (default ∅ (objects before !! l)) now]> (objects before)
  /\ (forall r, r ∈ (_route_webhook (default ∅ (objects before !! l))).1 ->
                r ∈ logs (_process_webhook_queue clock w))
  /\ (objects (_process_webhook_queue clock w) !! l ≫= lookup "processed")
     = Some (PBool true).
Proof.
  intros Hlen Hi Hc. cbv zeta.
  pose proof (lookup_lt_Some _ _ _ Hc) as Hlt.
  assert (Hq : processing_queue (self (_process_webhook_queue (take i clock) w))
               = l :: drop (S i) (processing_queue (self w))).
  { rewrite process_webhook_queue_queue; rewrite length_take; [|lia].
    replace (i `min` length clock)%nat with i by lia. by apply drop_S. }
  destruct (loop_body_cons now _ l _ Hq) as (w' & Hbody & Hobj & _ & _ & _ & ll & Hlogs).
  assert (Hafter : _process_webhook_queue (take (S i) clock) w = w').
  { rewrite (take_S_r _ _ _ Hc), process_webhook_queue_app. simpl. by rewrite Hbody. }
  assert (Hall : _process_webhook_queue clock w
                 = _process_webhook_queue (drop (S i) clock) w').
  { rewrite <- (take_drop (S i) clock) at 1.
    by rewrite process_webhook_queue_app, Hafter. }
  rewrite Hafter, Hall. repeat split; try done.
  - intros r Hr. apply process_webhook_queue_logs. rewrite Hlogs.
    rewrite !elem_of_app. auto.
  - apply process_webhook_queue_stays_processed. rewrite Hobj, lookup_insert_eq.
    simpl. apply processed_record_fields.
Qed.

(** What [_route_webhook] makes of a handler that raises. *)
Lemma route_webhook_raise d e lg :
  handler_for (get "type" (PStr "unknown") d) d = (lg, Raise e) ->
  (_route_webhook d).2
  = [("status", PStr "error"); ("message", PStr (str_exn e))]
  /\ mkLog ERROR "Error routing webhook {}: {}"
       [get "type" (PStr "unknown") d; PStr (str_exn e)] ∈ (_route_webhook d).1.
Proof.
  intros H. unfold _route_webhook. rewrite H. simpl. split; [reflexivity|].
  apply elem_of_app. right. by left.
Qed.

End WebhookFacts.

(** C6.  The consumer loop is not stopped by a handler that raises, and it
    works in submission order.  The queue after a run of submissions is the
    queue before followed by the submitted records in order.  Given one clock
    reading per queued record the loop empties the queue; iteration [i] finds
    the record queued at position [i] at the head of the queue and leaves it
    marked processed and stamped with reading [i], whatever the handlers of
    the records before it did, and the record is still marked processed when
    the loop is done.  Where the handler of a record raises, the record's
    result is the error dictionary and the error is in the log.  When no
    dictionary is queued twice, the records at the end are those of the
    start, each processed at its own reading. *)
Theorem dispatcher_survives_handler_errors_in_order
    (w : Webhook.World) (subs : list (Webhook.loc * datetime * datetime))
    (clock : list datetime) :
  let w1 := Webhook.submit_all subs w in
  let w2 := Webhook._process_webhook_queue clock w1 in
  length clock = length (Webhook.processing_queue (Webhook.self w1)) ->
  Webhook.processing_queue (Webhook.self w1)
  = Webhook.processing_queue (Webhook.self w) ++ Webhook.refs_of subs
  /\ Webhook.processing_queue (Webhook.self w2) = []
  /\ (forall (i : nat) l now,
        Webhook.processing_queue (Webhook.self w1) !! i = Some l ->
        clock !! i = Some now ->
        let before := Webhook._process_webhook_queue (take i clock) w1 in
        let after := Webhook._process_webhook_queue (take (S i) clock) w1 in
        let d := default ∅ (Webhook.objects before !! l) in
        Webhook.processing_queue (Webhook.self before)
        = l :: drop (S i) (Webhook.processing_queue (Webhook.self w1))
        /\ Webhook.objects after !! l = Some (Webhook.processed_record d now)
        /\ Webhook.processed_record d now !! "processed" = Some (PBool true)
        /\ Webhook.processed_record d now !! "processed_at"
           = Some (PStr (isoformat now))
        /\ (Webhook.objects w2 !! l ≫= lookup "processed") = Some (PBool true)
        /\ forall lg e,
             Webhook.handler_for (get "type" (PStr "unknown") d) d = (lg, Raise e) ->
             Webhook.processed_record d now !! "result"
             = Some (PDict [("status", PStr "error");
                            ("message", PStr (str_exn e))])
             /\ Webhook.mkLog Webhook.ERROR "Error routing webhook {}: {}"
                  [get "type" (PStr "unknown") d; PStr (str_exn e)]
                ∈ Webhook.logs w2)
  /\ (NoDup (Webhook.processing_queue (Webhook.self w1)) ->
      forall (i : nat) l now,
        Webhook.processing_queue (Webhook.self w1) !! i = Some l ->
        clock !! i = Some now ->
        Webhook.objects w2 !! l
        = Some (Webhook.processed_record (default ∅ (Webhook.objects w1 !! l)) now)).
Proof.
  cbv zeta. intros Hlen.
  split; [apply submit_all_queue|]. split; [|split].
  - rewrite process_webhook_queue_queue by lia. rewrite Hlen. apply drop_all.
  - intros i l now Hi Hc.
    pose proof (process_webhook_queue_turn clock _ i l now Hlen Hi Hc) as Hturn.
    cbv zeta in Hturn. destruct Hturn as (Hhead & Hobj & Hlogs & Hfinal).
    destruct (processed_record_fields
                (default ∅ (Webhook.objects
                   (Webhook._process_webhook_queue (take i clock)
                      (Webhook.submit_all subs w)) !! l)) now)
      as (Hp & Hat & Hres).
    split; [exact Hhead|]. split; [rewrite Hobj; apply lookup_insert_eq|].
    split; [exact Hp|]. split; [exact Hat|]. split; [exact Hfinal|].
    intros lg e Hraise.
    destruct (route_webhook_raise _ _ _ Hraise) as [Hroute Hlog].
    split; [by rewrite Hres, Hroute|by apply Hlogs].
  - intros Hnd i l now Hi Hc.
    destruct (process_webhook_queue_drains clock _ Hnd Hlen) as (_ & Hproc & _).
    by destruct (Hproc i l now Hi Hc).
Qed.

(** A bad alert and a file event, queued in that order: the loop gets past
    the alert, whose handler raises, and stamps the file event with the second
    reading. *)
Lemma dispatcher_survives_handler_errors_in_order_witness :
  let w2 := Webhook._process_webhook_queue [Samples.at_us 10; Samples.at_us 20]
              Samples.two_queued in
  Webhook.processing_queue (Webhook.self w2) = []
  /\ (Webhook.objects w2 !! 0%nat ≫= lookup "processed") = Some (PBool true)
  /\ (Webhook.objects w2 !! 1%nat ≫= lookup "processed_at")
     = Some (PStr "2025-01-15T12:00:00.000020").
Proof.
  cbv zeta.
  destruct (dispatcher_survives_handler_errors_in_order Samples.two_events
              [(0%nat, Samples.at_us 1, Samples.at_us 2);
               (1%nat, Samples.at_us 3, Samples.at_us 4)]
              [Samples.at_us 10; Samples.at_us 20] eq_refl)
    as (_ & Hend & Hturn & Hfinal).
  split; [exact Hend|]. split.
  - destruct (Hturn 0%nat 0%nat (Samples.at_us 10) eq_refl eq_refl)
      as (_ & _ & _ & _ & Hp & _).
    exact Hp.
  - assert (Hnd : NoDup (Webhook.processing_queue (Webhook.self
              (Webhook.submit_all [(0%nat, Samples.at_us 1, Samples.at_us 2);
                                   (1%nat, Samples.at_us 3, Samples.at_us 4)]
                 Samples.two_events)))).
    { apply (bool_decide_unpack _). vm_compute. exact I. }
    unfold Samples.two_queued.
    rewrite (Hfinal Hnd 1%nat 1%nat (Samples.at_us 20) eq_refl eq_refl).
    simpl. apply processed_record_fields.
Defined.

(** C8.  Two different webhooks submitted one after the other while
    [datetime.now()] returns the same reading receive the same [webhook_id]. *)
Theorem webhook_id_collision :
  let t := Samples.at_us 7 in
  let first := Webhook.process_webhook 0%nat t t Samples.two_events in
  let second := Webhook.process_webhook 1%nat t t first.2 in
  first.1 !! "webhook_id" = Some (PStr "webhook_20250115_120000_000007")
  /\ second.1 !! "webhook_id" = Some (PStr "webhook_20250115_120000_000007")
  /\ (Webhook.objects second.2 !! 0%nat ≫= lookup "webhook_id")
     = (Webhook.objects second.2 !! 1%nat ≫= lookup "webhook_id")
  /\ Webhook.webhook_history (Webhook.self second.2) = [0%nat; 1%nat].
Proof. vm_compute. repeat split; reflexivity. Qed.

Section StatsFacts.
Import Webhook.

Lemma filter_length_pos {A} (f : A -> bool) (l : list A) (x : A) :
  x ∈ l -> f x = true -> (1 <= length (List.filter f l))%nat.
Proof.
  intros Hin Hf. apply list_elem_of_In in Hin.
  assert (Hx : In x (List.filter f l)) by (apply filter_In; auto).
  destruct (List.filter f l); [destruct Hx|simpl; lia].
Qed.

Lemma success_rate_pos w :
  (1 <= processed_webhooks (get_webhook_stats w))%nat ->
  (0 < success_rate (get_webhook_stats w))%Q.
Proof.
  unfold get_webhook_stats. simpl. intros Hp.
  assert (Ht : (1 <= length (webhook_history (self w)))%nat).
  { etransitivity; [exact Hp|]. apply List.filter_length_le. }
  destruct (Nat.ltb_spec 0 (length (webhook_history (self w)))) as [_|]; [|lia].
  apply Qmult_lt_0_compat; [|reflexivity].
  apply Qmult_lt_0_compat; [|apply Qinv_lt_0_compat];
    unfold Qlt; simpl; lia.
Qed.

End StatsFacts.

(** C10.  When the handler of the record at the head of the queue raises,
    one pass of the loop still marks the record processed, stamps
    [processed_at] and stores [{"status": "error", "message": str(e)}] as its
    result; the record then satisfies the test [get_webhook_stats] counts by,
    so that, when it is in the history, it is counted in [processed_webhooks],
    the numerator of [success_rate]. *)
Theorem error_handled_record_is_marked_processed
    (w : Webhook.World) (l : Webhook.loc) (queue : list Webhook.loc)
    (now : datetime) (lg : list Webhook.log_record) (e : exn) :
  Webhook.processing_queue (Webhook.self w) = l :: queue ->
  Webhook.handler_for
    (get "type" (PStr "unknown") (default ∅ (Webhook.objects w !! l)))
    (default ∅ (Webhook.objects w !! l)) = (lg, Raise e) ->
  exists w' d',
    Webhook.loop_body now w = Some w'
    /\ Webhook.processing_queue (Webhook.self w') = queue
    /\ Webhook.objects w' !! l = Some d'
    /\ d' !! "processed" = Some (PBool true)
    /\ d' !! "processed_at" = Some (PStr (isoformat now))
    /\ d' !! "result"
       = Some (PDict [("status", PStr "error"); ("message", PStr (str_exn e))])
    /\ Webhook.is_processed (Webhook.objects w') l = true
    /\ (l ∈ Webhook.webhook_history (Webhook.self w) ->
        (1 <= Webhook.processed_webhooks (Webhook.get_webhook_stats w'))%nat
        /\ (0 < Webhook.success_rate (Webhook.get_webhook_stats w'))%Q).
Proof.
  intros Hq Hraise.
  destruct (loop_body_cons now w l queue Hq)
    as (w' & Hbody & Hobj & Hqueue & Hhist & _ & _).
  destruct (processed_record_fields (default ∅ (Webhook.objects w !! l)) now)
    as (Hp & Hat & Hres).
  destruct (route_webhook_raise _ _ _ Hraise) as [Hroute _].
  assert (Ho : Webhook.objects w' !! l
               = Some (Webhook.processed_record
                         (default ∅ (Webhook.objects w !! l)) now)).
  { rewrite Hobj. apply lookup_insert_eq. }
  assert (Hproc : Webhook.is_processed (Webhook.objects w') l = true).
  { unfold Webhook.is_processed, get. rewrite Ho. simpl. by rewrite Hp. }
  exists w', (Webhook.processed_record (default ∅ (Webhook.objects w !! l)) now).
  repeat split; try done.
  - by rewrite Hres, Hroute.
  - unfold Webhook.get_webhook_stats. simpl. rewrite Hhist.
    by apply filter_length_pos with (x := l).
  - apply success_rate_pos. unfold Webhook.get_webhook_stats. simpl.
    rewrite Hhist. by apply filter_length_pos with (x := l).
Qed.

(** The bad alert at the head of the queue: one pass marks it processed and
    the statistics count it. *)
Lemma error_handled_record_is_marked_processed_witness :
  exists w',
    Webhook.loop_body (Samples.at_us 10) Samples.two_queued = Some w'
    /\ (Webhook.objects w' !! 0%nat ≫= lookup "processed") = Some (PBool true)
    /\ (1 <= Webhook.processed_webhooks (Webhook.get_webhook_stats w'))%nat.
Proof.
  destruct (error_handled_record_is_marked_processed Samples.two_queued
              0%nat [1%nat] (Samples.at_us 10) []
              (PyExc "AttributeError" "'int' object has no attribute 'upper'")
              eq_refl eq_refl)
    as (w' & d' & Hbody & _ & Ho & Hp & _ & _ & _ & Hstats).
  exists w'. split; [exact Hbody|]. split.
  - rewrite Ho. exact Hp.
  - apply Hstats. vm_compute. apply list_elem_of_here.
Defined.

(** ** The agent manager *)

Section AgentFacts.
Import Agents.
Context {P : Type}.
Implicit Types (agent : BaseAgent P) (self : AgentManager P).

Lemma execute_agent_not_found name parameters clock self :
  agents self !! name = None ->
  execute_agent name parameters clock self = (not_found name self, self).
Proof. intros H. unfold execute_agent. by rewrite H. Qed.

Lemma execute_agent_is_disabled name parameters clock self agent :
  agents self !! name = Some agent -> enabled agent = false ->
  execute_agent name parameters clock self = (is_disabled name, self).
Proof. intros H He. unfold execute_agent. by rewrite H, He. Qed.

Lemma execute_agent_invalid name parameters clock self agent p :
  agents self !! name = Some agent -> enabled agent = true ->
  validate_parameters agent parameters (attrs agent) = (Return false, p) ->
  execute_agent name parameters clock self
  = (invalid_parameters name,
     set_agents (<[name := set_attrs p agent]> (agents self)) self).
Proof. intros H He Hv. unfold execute_agent. by rewrite H, He, Hv. Qed.

Lemma execute_agent_validate_raises name parameters clock self agent p e :
  agents self !! name = Some agent -> enabled agent = true ->
  validate_parameters agent parameters (attrs agent) = (Raise e, p) ->
  execute_agent name parameters clock self
  = (exception_result name e (clock 1%nat),
     set_agents (<[name := failed_by_exception agent p (clock 0%nat)]> (agents self))
       self).
Proof.
  intros H He Hv. unfold execute_agent. rewrite H, He, Hv.
  cbv beta iota zeta. unfold on_exception. cbn [negb agents set_agents].
  rewrite lookup_insert_eq. unfold set_agents. cbn [agents agent_status_history max_history].
  by rewrite insert_insert_eq.
Qed.

Lemma execute_agent_raises name parameters clock self agent p1 p2 e :
  agents self !! name = Some agent -> enabled agent = true ->
  validate_parameters agent parameters (attrs agent) = (Return true, p1) ->
  execute agent parameters p1 = (Raise e, p2) ->
  execute_agent name parameters clock self
  = (exception_result name e (clock 3%nat),
     set_agents (<[name := failed_by_exception agent p2 (clock 2%nat)]> (agents self))
       self).
Proof.
  intros H He Hv Hx. unfold execute_agent. rewrite H, He, Hv.
  cbv beta iota zeta. cbn [negb].
  change (execute (update_status RUNNING (clock 0%nat) (set_attrs p1 agent)) parameters
            (attrs (update_status RUNNING (clock 0%nat) (set_attrs p1 agent))))
    with (execute agent parameters p1).
  rewrite Hx. cbv beta iota zeta. unfold on_exception, set_agents.
  cbn [agents agent_status_history max_history].
  rewrite lookup_insert_eq. cbn [agents agent_status_history max_history].
  by rewrite !insert_insert_eq.
Qed.

Lemma execute_agent_returns name parameters clock self agent p1 p2 result :
  agents self !! name = Some agent -> enabled agent = true ->
  validate_parameters agent parameters (attrs agent) = (Return true, p1) ->
  execute agent parameters p1 = (Return result, p2) ->
  let execution_time := total_seconds_between (clock 2%nat) (clock 1%nat) in
  let ok := truthy (get "success" PNone result) in
  execute_agent name parameters clock self
  = (<["agent_status" := PStr (if ok then "completed" else "failed")]>
       (<["timestamp" := PStr (isoformat (clock 5%nat))]>
         (<["execution_time" := PFloat execution_time]>
           (<["agent_name" := PStr name]> result))),
     mkManager
       (<[name := dispatched agent p2 ok execution_time (clock 3%nat)]> (agents self))
       (append_evict (max_history self) (agent_status_history self)
          (history_entry name result execution_time (clock 4%nat)))
       (max_history self)).
Proof.
  intros H He Hv Hx. cbv zeta. unfold execute_agent. rewrite H, He, Hv.
  cbv beta iota zeta. cbn [negb].
  change (execute (update_status RUNNING (clock 0%nat) (set_attrs p1 agent)) parameters
            (attrs (update_status RUNNING (clock 0%nat) (set_attrs p1 agent))))
    with (execute agent parameters p1).
  rewrite Hx. cbv beta iota zeta.
  unfold _add_to_history, append_evict, set_agents, set_history.
  cbn [agents agent_status_history max_history].
  rewrite !insert_insert_eq.
  destruct (truthy (get "success" PNone result));
    destruct (Z.of_nat _ >? max_history self); reflexivity.
Qed.

(** The manager built by [__init__]: one agent, with its two triggers, no
    history, no task counted. *)
Lemma init_registry (file_org : BaseAgent P) (t1 t2 : datetime) :
  exists triggers,
    agents (init file_org t1 t2)
    = {["file_organization" := set_workflow_triggers triggers file_org]}
    /\ agent_status_history (init file_org t1 t2) = []
    /\ max_history (init file_org t1 t2) = 1000.
Proof.
  unfold init, _setup_workflow_triggers. cbn [agents].
  rewrite lookup_singleton_eq. eexists. cbn.
  rewrite insert_singleton_eq. split; [reflexivity|done].
Qed.

Lemma init_fresh (file_org : BaseAgent P) (t1 t2 : datetime) :
  tasks_completed (processing_stats file_org) = 0 ->
  tasks_failed (processing_stats file_org) = 0 ->
  fresh (init file_org t1 t2).
Proof.
  intros Hc Hf. destruct (init_registry file_org t1 t2) as (ts & Ha & Hh & Hm).
  split; [done|]. split; [done|].
  intros name agent Hl. rewrite Ha in Hl.
  apply lookup_singleton_Some in Hl as [_ <-]. by split.
Qed.

End AgentFacts.

Section AgentHistoryFacts.
Import Agents.
Context {P : Type}.
Implicit Types (agent : BaseAgent P) (self : AgentManager P).

Lemma entries_of_app name (h1 h2 : list ExecutionHistoryEntry) :
  entries_of name (h1 ++ h2) = entries_of name h1 ++ entries_of name h2.
Proof. unfold entries_of. apply List.filter_app. Qed.

Lemma entries_of_drop_length name k (h : list ExecutionHistoryEntry) :
  (length (entries_of name (drop k h)) <= length (entries_of name h))%nat.
Proof.
  rewrite <- (take_drop k h) at 2. rewrite entries_of_app, length_app. lia.
Qed.

Lemma add_to_history_history name result execution_time now self :
  agent_status_history (_add_to_history name result execution_time now self)
  = append_evict (max_history self) (agent_status_history self)
      (history_entry name result execution_time now).
Proof.
  unfold _add_to_history, append_evict.
  by destruct (Z.of_nat _ >? max_history self).
Qed.

Lemma add_to_history_max_history name result execution_time now self :
  max_history (_add_to_history name result execution_time now self)
  = max_history self.
Proof.
  unfold _add_to_history. by destruct (Z.of_nat _ >? max_history self).
Qed.

Lemma add_all_max_history recs : forall self,
  max_history (add_all recs self) = max_history self.
Proof.
  induction recs as [|[[[name result] et] now] recs IH]; intros self; [done|].
  cbn [add_all]. by rewrite IH, add_to_history_max_history.
Qed.

Lemma add_all_keep_last recs : forall self (sofar : list ExecutionHistoryEntry),
  0 <= max_history self ->
  agent_status_history self = keep_last (Z.to_nat (max_history self)) sofar ->
  agent_status_history (add_all recs self)
  = keep_last (Z.to_nat (max_history self)) (sofar ++ (entry_of <$> recs)).
Proof.
  induction recs as [|[[[name result] et] now] recs IH]; intros self sofar Hcap Hh.
  - simpl. by rewrite app_nil_r.
  - cbn [add_all]. rewrite (IH _ (sofar ++ [history_entry name result et now])).
    + rewrite add_to_history_max_history, <- app_assoc. reflexivity.
    + by rewrite add_to_history_max_history.
    + rewrite add_to_history_history, add_to_history_max_history, Hh.
      by apply append_evict_keep_last.
Qed.

(** What a call does to the history and to the task counters. *)
Lemma perform_frame (c : call) self :
  max_history (perform c self) = max_history self
  /\ agent_status_history (perform c self)
     = fold_left (append_evict (max_history self)) (recorded_by c self)
         (agent_status_history self)
  /\ forall name agent',
       agents (perform c self) !! name = Some agent' ->
       exists agent,
         agents self !! name = Some agent
         /\ tasks_counted agent'
            = tasks_counted agent
              + Z.of_nat (length (entries_of name (recorded_by c self))).
Proof.
  assert (Hsame : forall name0 (agent0 agent1 : BaseAgent P),
    agents self !! name0 = Some agent0 ->
    processing_stats agent1 = processing_stats agent0 ->
    forall name agent',
      <[name0 := agent1]> (agents self) !! name = Some agent' ->
      exists agent, agents self !! name = Some agent
                    /\ tasks_counted agent' = tasks_counted agent + Z.of_nat 0).
  { intros name0 agent0 agent1 H0 Hst name agent' Hl.
    destruct (decide (name0 = name)) as [->|Hne].
    - rewrite lookup_insert_eq in Hl. inversion Hl; subst agent'.
      exists agent0. split; [done|]. unfold tasks_counted. rewrite Hst. lia.
    - rewrite lookup_insert_ne in Hl by done. exists agent'. split; [done|lia]. }
  destruct c as [name parameters clock|name now|name now|name trigger config now];
    unfold perform, recorded_by.
  - unfold recorded_entry.
    destruct (agents self !! name) as [agent|] eqn:H.
    2:{ rewrite execute_agent_not_found by done. simpl.
        repeat split. intros n a Ha. exists a. split; [done|lia]. }
    destruct (enabled agent) eqn:He.
    2:{ rewrite (execute_agent_is_disabled _ _ _ _ agent) by done. simpl.
        repeat split. intros n a Ha. exists a. split; [done|lia]. }
    cbn [negb].
    destruct (validate_parameters agent parameters (attrs agent))
      as [[[|]|e] p1] eqn:Hv.
    + destruct (execute agent parameters p1) as [[result|e] p2] eqn:Hx.
      * pose proof (execute_agent_returns name parameters clock self agent
                      p1 p2 result H He Hv Hx) as E. cbv zeta in E.
        rewrite E. cbn [snd agents agent_status_history max_history option_list option_rect
                        fold_left].
        repeat split. intros n a Ha.
        destruct (decide (name = n)) as [<-|Hne].
        -- rewrite lookup_insert_eq in Ha. inversion Ha; subst a.
           exists agent. split; [done|].
           unfold entries_of, history_entry. cbn [List.filter entry_agent_name option_list option_rect].
           rewrite bool_decide_eq_true_2 by done.
           unfold tasks_counted, dispatched, add_time, count_task.
           destruct (truthy _); simpl; lia.
        -- rewrite lookup_insert_ne in Ha by done. exists a. split; [done|].
           unfold entries_of, history_entry. cbn [List.filter entry_agent_name option_list option_rect].
           rewrite bool_decide_eq_false_2 by done. simpl. lia.
      * rewrite (execute_agent_raises _ _ _ _ agent p1 p2 e) by done. simpl.
        repeat split. by apply (Hsame name agent).
    + rewrite (execute_agent_invalid _ _ _ _ agent p1) by done. simpl.
      repeat split. by apply (Hsame name agent).
    + rewrite (execute_agent_validate_raises _ _ _ _ agent p1 e) by done. simpl.
      repeat split. by apply (Hsame name agent).
  - unfold enable_agent. destruct (agents self !! name) as [agent|] eqn:H; simpl.
    + repeat split. by apply (Hsame name agent).
    + repeat split. intros n a Ha. exists a. split; [done|lia].
  - unfold disable_agent. destruct (agents self !! name) as [agent|] eqn:H; simpl.
    + repeat split. by apply (Hsame name agent).
    + repeat split. intros n a Ha. exists a. split; [done|lia].
  - unfold add_workflow_trigger.
    destruct (agents self !! name) as [agent|] eqn:H; simpl.
    + repeat split. by apply (Hsame name agent).
    + repeat split. intros n a Ha. exists a. split; [done|lia].
Qed.

Lemma recorded_by_length (c : call) self : (length (recorded_by c self) <= 1)%nat.
Proof.
  destruct c; simpl; try lia.
  destruct (recorded_entry _ _ _ _); simpl; lia.
Qed.

Lemma fold_append_evict_keep_last {A} cap (new sofar : list A) :
  0 <= cap ->
  fold_left (append_evict cap) new (keep_last (Z.to_nat cap) sofar)
  = keep_last (Z.to_nat cap) (sofar ++ new).
Proof.
  intros Hcap. revert sofar.
  induction new as [|x new IH]; intros sofar; simpl.
  - by rewrite app_nil_r.
  - rewrite append_evict_keep_last by done. rewrite IH, <- app_assoc. reflexivity.
Qed.

Lemma fold_append_evict_bounded {A} cap (new l : list A) :
  Z.of_nat (length l) <= cap ->
  Z.of_nat (length (fold_left (append_evict cap) new l)) <= cap.
Proof.
  revert l. induction new as [|x new IH]; intros l Hl; [done|]. simpl.
  apply IH. by apply append_evict_bounded.
Qed.

Lemma perform_all_max_history (cs : list call) : forall self,
  max_history (perform_all cs self) = max_history self.
Proof.
  induction cs as [|c cs IH]; intros self; [done|].
  unfold perform_all in *. simpl. rewrite IH. apply perform_frame.
Qed.

Lemma perform_all_bounded (cs : list call) : forall self,
  Z.of_nat (length (agent_status_history self)) <= max_history self ->
  Z.of_nat (length (agent_status_history (perform_all cs self))) <= max_history self.
Proof.
  induction cs as [|c cs IH]; intros self Hb; [done|].
  unfold perform_all in *. simpl.
  destruct (perform_frame c self) as (Hm & Hh & _).
  rewrite <- Hm. apply IH. rewrite Hm, Hh. by apply fold_append_evict_bounded.
Qed.

(** The history is what is left of everything recorded, and each agent's
    counters add up to the number of entries recorded under its name. *)
Lemma perform_all_recorded (cs : list call) :
  forall self (sofar : list ExecutionHistoryEntry),
  0 <= max_history self ->
  agent_status_history self = keep_last (Z.to_nat (max_history self)) sofar ->
  (forall name agent, agents self !! name = Some agent ->
     tasks_counted agent = Z.of_nat (length (entries_of name sofar))) ->
  agent_status_history (perform_all cs self)
  = keep_last (Z.to_nat (max_history self)) (recorded cs self sofar)
  /\ forall name agent, agents (perform_all cs self) !! name = Some agent ->
       tasks_counted agent
       = Z.of_nat (length (entries_of name (recorded cs self sofar))).
Proof.
  induction cs as [|c cs IH]; intros self sofar Hcap Hh Hcount; [done|].
  unfold perform_all in *. simpl.
  destruct (perform_frame c self) as (Hm & Hh' & Hstats).
  rewrite <- Hm. apply IH.
  - by rewrite Hm.
  - rewrite Hm, Hh', Hh. by apply fold_append_evict_keep_last.
  - intros name agent' Ha. destruct (Hstats name agent' Ha) as (agent & Ha0 & ->).
    rewrite (Hcount name agent Ha0), entries_of_app, length_app. lia.
Qed.

End AgentHistoryFacts.

(** C7.  A dispatch to a registered agent that is disabled returns the
    failure result saying so and leaves the manager as it was: no attribute
    of the agent, hence nothing its [execute] could have written, changes. *)
Theorem execute_agent_disabled_never_executes {P : Type}
    (self : Agents.AgentManager P) (name : string) (agent : Agents.BaseAgent P)
    (parameters : pydict) (clock : nat -> datetime) :
  Agents.agents self !! name = Some agent ->
  Agents.enabled agent = false ->
  Agents.execute_agent name parameters clock self
  = (<["error" := PStr ("Agent " +:+ name +:+ " is disabled")]>
       {["success" := PBool false]},
     self).
Proof. intros H He. by rewrite (execute_agent_is_disabled _ _ _ _ agent). Qed.

(** On a disabled spy: the dispatch fails and the spy still counts no call
    of [execute]. *)
Lemma execute_agent_disabled_never_executes_witness :
  exists spy,
    Agents.agents Samples.disabled_spy !! "file_organization" = Some spy
    /\ Agents.enabled spy = false
    /\ Agents.attrs spy = 0%nat
    /\ (Agents.execute_agent "file_organization" Samples.process_documents
          Samples.tick Samples.disabled_spy).1 !! "success" = Some (PBool false)
    /\ Agents.agents
         (Agents.execute_agent "file_organization" Samples.process_documents
            Samples.tick Samples.disabled_spy).2 !! "file_organization"
       = Some spy.
Proof.
  eexists. split; [vm_compute; reflexivity|].
  split; [reflexivity|]. split; [reflexivity|].
  rewrite (execute_agent_disabled_never_executes Samples.disabled_spy
             "file_organization" _ Samples.process_documents Samples.tick
             ltac:(vm_compute; reflexivity) eq_refl).
  split; vm_compute; reflexivity.
Defined.

(** C1.  A registered, enabled agent whose [execute] raises: the dispatch
    returns [success = False] with the exception's message and marks the
    agent [FAILED], but [tasks_failed] stays at 0 (and no history entry is
    written), although [execute] did run. *)
Theorem execute_agent_exception_is_not_counted :
  let r := Agents.execute_agent "file_organization" Samples.process_documents
             Samples.tick Samples.raising_manager in
  r.1 !! "success" = Some (PBool false)
  /\ r.1 !! "error" = Some (PStr "boom")
  /\ Agents.agent_status_history r.2 = []
  /\ exists agent,
       Agents.agents r.2 !! "file_organization" = Some agent
       /\ Agents.status agent = Agents.FAILED
       /\ Agents.attrs agent = 1%nat
       /\ Agents.tasks_failed (Agents.processing_stats agent) = 0
       /\ Agents.tasks_completed (Agents.processing_stats agent) = 0.
Proof.
  cbv zeta.
  destruct (init_registry
              (Agents.new_agent "File Organization Agent" 0%nat
                 Samples.raising_execute Agents.default_validate_parameters)
              (Samples.at_us 0) (Samples.at_us 0)) as (triggers & Ha & Hh & _).
  fold (Samples.manager_of
          (Agents.new_agent "File Organization Agent" 0%nat
             Samples.raising_execute Agents.default_validate_parameters)) in Ha, Hh.
  fold Samples.raising_manager in Ha, Hh.
  rewrite (execute_agent_raises "file_organization" Samples.process_documents
             Samples.tick Samples.raising_manager
             (Agents.set_workflow_triggers triggers
                (Agents.new_agent "File Organization Agent" 0%nat
                   Samples.raising_execute Agents.default_validate_parameters))
             0%nat 1%nat (PyExc "RuntimeError" "boom"));
    [|rewrite Ha; apply lookup_singleton_eq|reflexivity..].
  split; [vm_compute; reflexivity|]. split; [vm_compute; reflexivity|].
  split; [exact Hh|].
  eexists. split; [apply lookup_insert_eq|]. repeat split.
Qed.

(** C2.  A dispatch whose [execute] raises appends nothing to the history.
    For every registered, enabled agent whose validator accepts the
    parameters and whose [execute] raises, [execute_agent] replaces the
    descriptor of that agent, once, and of no other, but the history it leaves
    is the history it found: whenever the history has room, it is not the old
    one with an entry appended, whatever the entry. *)
Theorem execute_agent_exception_appends_nothing {P : Type}
    (self : Agents.AgentManager P) (name : string) (agent : Agents.BaseAgent P)
    (parameters : pydict) (clock : nat -> datetime) (p1 p2 : P) (e : exn) :
  Agents.agents self !! name = Some agent ->
  Agents.enabled agent = true ->
  Agents.validate_parameters agent parameters (Agents.attrs agent)
  = (Return true, p1) ->
  Agents.execute agent parameters p1 = (Raise e, p2) ->
  let self' := (Agents.execute_agent name parameters clock self).2 in
  Agents.agent_status_history self' = Agents.agent_status_history self
  /\ length (Agents.agent_status_history self')
     = length (Agents.agent_status_history self)
  /\ (Z.of_nat (length (Agents.agent_status_history self))
      < Agents.max_history self ->
      forall entry,
        Agents.agent_status_history self'
        <> append_evict (Agents.max_history self)
             (Agents.agent_status_history self) entry)
  /\ Agents.agents self'
     = <[name := Agents.failed_by_exception agent p2 (clock 2%nat)]>
         (Agents.agents self)
  /\ (forall other, other <> name ->
        Agents.agents self' !! other = Agents.agents self !! other).
Proof.
  intros H He Hv Hx. cbv zeta.
  rewrite (execute_agent_raises name parameters clock self agent p1 p2 e) by done.
  cbn [snd Agents.set_agents Agents.agents Agents.agent_status_history].
  split; [reflexivity|]. split; [reflexivity|]. split; [|split; [reflexivity|]].
  - intros Hroom entry Heq. apply (f_equal length) in Heq.
    unfold append_evict in Heq.
    destruct (Z.gtb_spec (Z.of_nat (length (Agents.agent_status_history self ++ [entry])))
                (Agents.max_history self)) as [Hgt|_];
      rewrite ?length_drop, length_app in *; simpl in *; lia.
  - intros other Hne. by rewrite lookup_insert_ne.
Qed.

(** On the agent whose [execute] raises: the history is still empty after
    the dispatch, and the descriptor is marked [FAILED]. *)
Lemma execute_agent_exception_appends_nothing_witness :
  let r := Agents.execute_agent "file_organization" Samples.process_documents
             Samples.tick Samples.raising_manager in
  Agents.agent_status_history r.2 = []
  /\ Agents.status <$> (Agents.agents r.2 !! "file_organization")
     = Some Agents.FAILED.
Proof.
  cbv zeta.
  destruct (init_registry
              (Agents.new_agent "File Organization Agent" 0%nat
                 Samples.raising_execute Agents.default_validate_parameters)
              (Samples.at_us 0) (Samples.at_us 0)) as (triggers & Ha & Hh & _).
  fold (Samples.manager_of
          (Agents.new_agent "File Organization Agent" 0%nat
             Samples.raising_execute Agents.default_validate_parameters)) in Ha, Hh.
  fold Samples.raising_manager in Ha, Hh.
  destruct (execute_agent_exception_appends_nothing Samples.raising_manager
              "file_organization"
              (Agents.set_workflow_triggers triggers
                 (Agents.new_agent "File Organization Agent" 0%nat
                    Samples.raising_execute Agents.default_validate_parameters))
              Samples.process_documents Samples.tick 0%nat 1%nat
              (PyExc "RuntimeError" "boom")
              ltac:(rewrite Ha; apply lookup_singleton_eq)
              eq_refl eq_refl eq_refl) as (Hhist & _ & _ & Hagents & _).
  split; [by rewrite Hhist|].
  rewrite Hagents, lookup_insert_eq. reflexivity.
Defined.

(** X26.  The dispatches that do not end in an exception.  One rejected
    because the name is unknown or the agent is disabled leaves the manager
    unchanged; one rejected by the agent's validator leaves the history and
    every other descriptor unchanged.  A dispatch whose [execute] returns
    appends exactly one entry to the history (evicting the oldest beyond the
    maximum), replaces the descriptor of the named agent, counting one more
    task for it, and touches no other descriptor. *)
Theorem execute_agent_one_mutation_one_append {P : Type}
    (self : Agents.AgentManager P) (name : string) (parameters : pydict)
    (clock : nat -> datetime) :
  let self' := (Agents.execute_agent name parameters clock self).2 in
  (Agents.agents self !! name = None -> self' = self)
  /\ (forall agent,
        Agents.agents self !! name = Some agent ->
        Agents.enabled agent = false -> self' = self)
  /\ (forall agent p,
        Agents.agents self !! name = Some agent ->
        Agents.enabled agent = true ->
        Agents.validate_parameters agent parameters (Agents.attrs agent)
        = (Return false, p) ->
        Agents.agent_status_history self' = Agents.agent_status_history self
        /\ Agents.agents self'
           = <[name := Agents.set_attrs p agent]> (Agents.agents self))
  /\ (forall agent p1 p2 result,
        Agents.agents self !! name = Some agent ->
        Agents.enabled agent = true ->
        Agents.validate_parameters agent parameters (Agents.attrs agent)
        = (Return true, p1) ->
        Agents.execute agent parameters p1 = (Return result, p2) ->
        let execution_time := total_seconds_between (clock 2%nat) (clock 1%nat) in
        let ok := truthy (get "success" PNone result) in
        let agent' :=
          Agents.dispatched agent p2 ok execution_time (clock 3%nat) in
        Agents.agent_status_history self'
        = append_evict (Agents.max_history self) (Agents.agent_status_history self)
            (Agents.history_entry name result execution_time (clock 4%nat))
        /\ Agents.agents self' = <[name := agent']> (Agents.agents self)
        /\ (forall other, other <> name ->
              Agents.agents self' !! other = Agents.agents self !! other)
        /\ Agents.tasks_completed (Agents.processing_stats agent')
           = Agents.tasks_completed (Agents.processing_stats agent)
             + (if ok then 1 else 0)
        /\ Agents.tasks_failed (Agents.processing_stats agent')
           = Agents.tasks_failed (Agents.processing_stats agent)
             + (if ok then 0 else 1)).
Proof.
  cbv zeta. split; [|split; [|split]].
  - intros H. by rewrite execute_agent_not_found.
  - intros agent H He. by rewrite (execute_agent_is_disabled _ _ _ _ agent).
  - intros agent p H He Hv.
    by rewrite (execute_agent_invalid _ _ _ _ agent p).
  - intros agent p1 p2 result H He Hv Hx.
    pose proof (execute_agent_returns name parameters clock self agent
                  p1 p2 result H He Hv Hx) as E. cbv zeta in E.
    rewrite E. cbn [snd Agents.agents Agents.agent_status_history].
    split; [done|]. split; [done|]. split.
    + intros other Hne. by rewrite lookup_insert_ne.
    + unfold Agents.dispatched, Agents.add_time, Agents.count_task.
      destruct (truthy _); simpl; split; lia.
Qed.

(** On the stub agent: one entry in the history, one completed task. *)
Lemma execute_agent_one_mutation_one_append_witness :
  let r := Agents.execute_agent "file_organization" Samples.process_documents
             Samples.tick Samples.stub_manager in
  length (Agents.agent_status_history r.2) = 1%nat
  /\ exists agent',
       Agents.agents r.2 !! "file_organization" = Some agent'
       /\ Agents.status agent' = Agents.COMPLETED
       /\ Agents.tasks_completed (Agents.processing_stats agent') = 1.
Proof.
  cbv zeta.
  destruct (execute_agent_one_mutation_one_append Samples.stub_manager
              "file_organization" Samples.process_documents Samples.tick)
    as (_ & _ & _ & Hrun).
  destruct (init_registry
              (Agents.new_agent "File Organization Agent" 0%nat
                 Samples.stub_execute Agents.default_validate_parameters)
              (Samples.at_us 0) (Samples.at_us 0)) as (triggers & Ha & Hh & _).
  fold (Samples.manager_of
          (Agents.new_agent "File Organization Agent" 0%nat
             Samples.stub_execute Agents.default_validate_parameters)) in Ha, Hh.
  fold Samples.stub_manager in Ha, Hh.
  destruct (Hrun (Agents.set_workflow_triggers triggers
                    (Agents.new_agent "File Organization Agent" 0%nat
                       Samples.stub_execute Agents.default_validate_parameters))
                 0%nat 1%nat
                 (<["files_processed" := PInt 3]> {["success" := PBool true]})
                 ltac:(rewrite Ha; apply lookup_singleton_eq)
                 eq_refl eq_refl eq_refl)
    as (Hhist & Hagents & _ & Hc & _).
  rewrite Hhist, Hagents, Hh. split; [reflexivity|].
  eexists. split; [apply lookup_insert_eq|].
  split; [reflexivity|]. rewrite Hc. reflexivity.
Defined.

(** C3.  From a manager at process start, after any sequence of calls
    ([execute_agent], [enable_agent], [disable_agent],
    [add_workflow_trigger]): the history is the last 1000 of the entries
    recorded since the start, and for every agent [tasks_completed +
    tasks_failed] is the number of entries recorded under its name, evicted
    ones included.  So the entries of that name still in the history never
    outnumber the counters, and they are as many while nothing has been
    evicted. *)
Theorem stats_agree_with_recorded_history {P : Type}
    (self : Agents.AgentManager P) (cs : list Agents.call) :
  Agents.fresh self ->
  let self' := Agents.perform_all cs self in
  let everything := Agents.recorded cs self [] in
  Agents.agent_status_history self' = keep_last 1000 everything
  /\ (forall name agent,
        Agents.agents self' !! name = Some agent ->
        Agents.tasks_completed (Agents.processing_stats agent)
        + Agents.tasks_failed (Agents.processing_stats agent)
        = Z.of_nat (length (Agents.entries_of name everything)))
  /\ (forall name agent,
        Agents.agents self' !! name = Some agent ->
        Z.of_nat (length (Agents.entries_of name (Agents.agent_status_history self')))
        <= Agents.tasks_completed (Agents.processing_stats agent)
           + Agents.tasks_failed (Agents.processing_stats agent))
  /\ ((length everything <= 1000)%nat ->
      forall name agent,
        Agents.agents self' !! name = Some agent ->
        Agents.tasks_completed (Agents.processing_stats agent)
        + Agents.tasks_failed (Agents.processing_stats agent)
        = Z.of_nat (length (Agents.entries_of name (Agents.agent_status_history self')))).
Proof.
  intros (Hh & Hm & Hz). cbv zeta.
  destruct (perform_all_recorded cs self []) as [Hhist Hcount].
  { rewrite Hm. lia. }
  { by rewrite Hh. }
  { intros name agent Ha. destruct (Hz name agent Ha) as [Hc Hf].
    unfold Agents.tasks_counted. rewrite Hc, Hf. reflexivity. }
  rewrite Hm in Hhist. change (Z.to_nat 1000) with 1000%nat in Hhist.
  split; [exact Hhist|]. split; [exact Hcount|]. split.
  - intros name agent Ha. pose proof (Hcount name agent Ha) as Hc.
    unfold Agents.tasks_counted in Hc. rewrite Hc, Hhist. unfold keep_last.
    apply inj_le, entries_of_drop_length.
  - intros Hshort name agent Ha.
    rewrite Hhist, keep_last_short by done. by apply (Hcount name agent).
Qed.

(** Three dispatches to the stub agent, the second while it is disabled: two
    entries in the history and two tasks counted. *)
Lemma stats_agree_with_recorded_history_witness :
  let cs := [ Agents.ExecuteAgent "file_organization" Samples.process_documents
                Samples.tick;
              Agents.DisableAgent "file_organization" (Samples.at_us 50);
              Agents.ExecuteAgent "file_organization" Samples.process_documents
                Samples.tick;
              Agents.EnableAgent "file_organization" (Samples.at_us 60);
              Agents.ExecuteAgent "file_organization" Samples.process_documents
                Samples.tick ] in
  Agents.fresh Samples.stub_manager
  /\ length (Agents.agent_status_history
               (Agents.perform_all cs Samples.stub_manager)) = 2%nat
  /\ exists agent,
       Agents.agents (Agents.perform_all cs Samples.stub_manager)
         !! "file_organization" = Some agent
       /\ Agents.tasks_completed (Agents.processing_stats agent)
          + Agents.tasks_failed (Agents.processing_stats agent) = 2.
Proof.
  cbv zeta.
  assert (Hfresh : Agents.fresh Samples.stub_manager).
  { apply init_fresh; reflexivity. }
  split; [exact Hfresh|].
  pose proof (stats_agree_with_recorded_history Samples.stub_manager
    [ Agents.ExecuteAgent "file_organization" Samples.process_documents
        Samples.tick;
      Agents.DisableAgent "file_organization" (Samples.at_us 50);
      Agents.ExecuteAgent "file_organization" Samples.process_documents
        Samples.tick;
      Agents.EnableAgent "file_organization" (Samples.at_us 60);
      Agents.ExecuteAgent "file_organization" Samples.process_documents
        Samples.tick ] Hfresh) as Hinv.
  cbv zeta in Hinv. destruct Hinv as (Hh & Hcount & _).
  split; [rewrite Hh; vm_compute; reflexivity|].
  destruct (Agents.agents _ !! "file_organization") as [agent|] eqn:Ha;
    [|vm_compute in Ha; discriminate Ha].
  exists agent. split; [reflexivity|].
  pose proof (Hcount _ _ Ha) as Hc. unfold Agents.tasks_counted in Hc.
  rewrite Hc. vm_compute. reflexivity.
Defined.

(** C5.  Neither history ever holds more than 1000 entries, and both evict
    the oldest first.  For the webhook history: submissions keep a history of
    at most 1000 within 1000; from the initial handler the history is the
    last 1000 of the references submitted, so after 1001 submissions it is
    the 1000 submitted last, and the first one is gone unless its dictionary
    was submitted again.  For the execution history: the same, for any calls
    on the manager and for the entries handed to [_add_to_history]. *)
Theorem history_buffers_are_bounded_fifo :
  (forall (w : Webhook.World) subs,
     Webhook.max_history (Webhook.self w) = 1000 ->
     (length (Webhook.webhook_history (Webhook.self w)) <= 1000)%nat ->
     (length (Webhook.webhook_history
                (Webhook.self (Webhook.submit_all subs w))) <= 1000)%nat)
  /\ (forall subs,
        Webhook.webhook_history
          (Webhook.self (Webhook.submit_all subs Webhook.init_world))
        = keep_last 1000 (Webhook.refs_of subs))
  /\ (forall first rest,
        length rest = 1000%nat ->
        let history :=
          Webhook.webhook_history
            (Webhook.self (Webhook.submit_all (first :: rest) Webhook.init_world)) in
        history = Webhook.refs_of rest
        /\ (first.1.1 ∉ Webhook.refs_of rest -> first.1.1 ∉ history))
  /\ (forall (P : Type) (m : Agents.AgentManager P) (cs : list Agents.call),
        Agents.max_history m = 1000 ->
        (length (Agents.agent_status_history m) <= 1000)%nat ->
        (length (Agents.agent_status_history (Agents.perform_all cs m))
           <= 1000)%nat)
  /\ (forall (P : Type) (m : Agents.AgentManager P) recs,
        Agents.max_history m = 1000 ->
        Agents.agent_status_history m = [] ->
        Agents.agent_status_history (Agents.add_all recs m)
        = keep_last 1000 (Agents.entry_of <$> recs))
  /\ (forall (P : Type) (m : Agents.AgentManager P) first rest,
        Agents.max_history m = 1000 ->
        Agents.agent_status_history m = [] ->
        length rest = 1000%nat ->
        let history := Agents.agent_status_history (Agents.add_all (first :: rest) m) in
        history = Agents.entry_of <$> rest
        /\ (Agents.entry_of first ∉ Agents.entry_of <$> rest ->
            Agents.entry_of first ∉ history)).
Proof.
  assert (Hweb : forall subs,
    Webhook.webhook_history
      (Webhook.self (Webhook.submit_all subs Webhook.init_world))
    = keep_last 1000 (Webhook.refs_of subs)).
  { intros subs.
    apply (submit_all_keep_last subs Webhook.init_world []); [simpl; lia|done]. }
  assert (Hagent : forall (P : Type) (m : Agents.AgentManager P) recs,
    Agents.max_history m = 1000 ->
    Agents.agent_status_history m = [] ->
    Agents.agent_status_history (Agents.add_all recs m)
    = keep_last 1000 (Agents.entry_of <$> recs)).
  { intros P m recs Hm Hh.
    pose proof (add_all_keep_last recs m []) as H. rewrite Hm in H.
    apply H; [lia|by rewrite Hh]. }
  assert (Hlast : forall {A} (x : A) (l : list A),
    length l = 1000%nat -> keep_last 1000 (x :: l) = l).
  { intros A x l Hl. unfold keep_last. simpl. rewrite Hl. reflexivity. }
  repeat apply conj.
  - intros w subs Hm Hl.
    pose proof (submit_all_bounded subs w) as H. rewrite Hm in H. lia.
  - exact Hweb.
  - intros first rest Hl. cbv zeta. rewrite Hweb.
    unfold Webhook.refs_of. rewrite fmap_cons, Hlast by (by rewrite length_fmap).
    done.
  - intros P m cs Hm Hl.
    pose proof (perform_all_bounded cs m) as H. rewrite Hm in H. lia.
  - exact Hagent.
  - intros P m first rest Hm Hh Hl. cbv zeta. rewrite Hagent by done.
    rewrite fmap_cons, Hlast by (by rewrite length_fmap). done.
Qed.

(** 1001 submissions of the dictionaries 0 to 1000: the history holds 1000
    references, starts at 1, and 0 is gone. *)
Lemma history_buffers_are_bounded_fifo_witness :
  let subs := (fun i => (i, Samples.tick i, Samples.tick i)) <$> seq 0 1001 in
  let history :=
    Webhook.webhook_history
      (Webhook.self (Webhook.submit_all subs Webhook.init_world)) in
  length history = 1000%nat /\ history !! 0%nat = Some 1%nat /\ 0%nat ∉ history.
Proof.
  cbv zeta.
  destruct history_buffers_are_bounded_fifo as (_ & _ & H1001 & _).
  destruct (H1001 (0%nat, Samples.tick 0, Samples.tick 0)
                  ((fun i => (i, Samples.tick i, Samples.tick i)) <$> seq 1 1000))
    as [Hh Hgone].
  { by rewrite length_fmap, length_seq. }
  change (seq 0 1001) with (0%nat :: seq 1 1000). rewrite fmap_cons.
  split; [|split].
  - rewrite Hh. unfold Webhook.refs_of. by rewrite !length_fmap, length_seq.
  - rewrite Hh. reflexivity.
  - apply Hgone. unfold Webhook.refs_of. rewrite <- list_fmap_compose.
    intros Hin. apply list_elem_of_fmap in Hin as (i & Hi & Hin).
    apply elem_of_seq in Hin. simpl in Hi. lia.
Defined.

(** ** Webhook identifiers and the clock *)

Section ClockFacts.

Lemma string_length_app (s t : string) :
  String.length (s +:+ t) = (String.length s + String.length t)%nat.
Proof. induction s as [|c s IH]; simpl; [done|by rewrite IH]. Qed.

Lemma zfill_length (width : nat) (n : Z) : String.length (zfill width n) = width.
Proof.
  revert n. induction width as [|w IH]; intros n; [reflexivity|].
  cbn [zfill]. rewrite string_length_app, IH. simpl. lia.
Qed.

Lemma string_app_inj (s1 s2 t1 t2 : string) :
  String.length s1 = String.length s2 ->
  s1 +:+ t1 = s2 +:+ t2 -> s1 = s2 /\ t1 = t2.
Proof.
  revert s2. induction s1 as [|c s1 IH]; intros [|c' s2] Hl H; try discriminate.
  - by split.
  - simpl in *. inversion H; subst. destruct (IH s2) as [-> ->]; [lia|done|done].
Qed.

Lemma digit_char_inj (n m : Z) : digit_char n = digit_char m -> n mod 10 = m mod 10.
Proof.
  unfold digit_char. intros H.
  apply (f_equal N_of_ascii) in H.
  pose proof (Z.mod_pos_bound n 10 ltac:(lia)).
  pose proof (Z.mod_pos_bound m 10 ltac:(lia)).
  rewrite !N_ascii_embedding in H by lia. lia.
Qed.

Lemma zfill_inj (width : nat) : forall n m,
  0 <= n < 10 ^ Z.of_nat width -> 0 <= m < 10 ^ Z.of_nat width ->
  zfill width n = zfill width m -> n = m.
Proof.
  induction width as [|w IH]; intros n m Hn Hm H.
  - simpl in *. lia.
  - cbn [zfill] in H.
    apply string_app_inj in H as [Hhigh Hlow]; [|by rewrite !zfill_length].
    inversion Hlow as [Hd]. apply digit_char_inj in Hd.
    rewrite Nat2Z.inj_succ, Z.pow_succ_r in Hn, Hm by lia.
    assert (n / 10 = m / 10).
    { apply IH; [| |done].
      - split; [apply Z.div_pos; lia|apply Z.div_lt_upper_bound; lia].
      - split; [apply Z.div_pos; lia|apply Z.div_lt_upper_bound; lia]. }
    rewrite (Z.div_mod n 10), (Z.div_mod m 10) by lia. congruence.
Qed.

(** Two valid clock readings with the same [webhook_id] are the same reading:
    the identifiers of two submissions differ exactly when the clock moved
    between them. *)
Lemma webhook_id_injective (t1 t2 : datetime) :
  valid_datetime t1 -> valid_datetime t2 ->
  Webhook._generate_webhook_id t1 = Webhook._generate_webhook_id t2 -> t1 = t2.
Proof.
  intros (Hy1 & Hm1 & Hd1 & Hh1 & Hmi1 & Hs1 & Hu1)
         (Hy2 & Hm2 & Hd2 & Hh2 & Hmi2 & Hs2 & Hu2) H.
  unfold Webhook._generate_webhook_id, strftime_id in H.
  apply string_app_inj in H as [_ H]; [|done].
  apply string_app_inj in H as [Hy H]; [|by rewrite !zfill_length].
  apply string_app_inj in H as [Hm H]; [|by rewrite !zfill_length].
  apply string_app_inj in H as [Hd H]; [|by rewrite !zfill_length].
  apply string_app_inj in H as [_ H]; [|done].
  apply string_app_inj in H as [Hh H]; [|by rewrite !zfill_length].
  apply string_app_inj in H as [Hmi H]; [|by rewrite !zfill_length].
  apply string_app_inj in H as [Hs H]; [|by rewrite !zfill_length].
  apply string_app_inj in H as [_ Hu]; [|done].
  apply zfill_inj in Hy; [|simpl; lia..].
  apply zfill_inj in Hm; [|simpl; lia..].
  apply zfill_inj in Hd; [|simpl; lia..].
  apply zfill_inj in Hh; [|simpl; lia..].
  apply zfill_inj in Hmi; [|simpl; lia..].
  apply zfill_inj in Hs; [|simpl; lia..].
  apply zfill_inj in Hu; [|simpl; lia..].
  destruct t1, t2; simpl in *; congruence.
Qed.

End ClockFacts.

(** ** Further properties of the slice *)

(** X1.  Two submissions whose calls of [_generate_webhook_id] read different
    valid clock values receive different identifiers. *)
Theorem webhook_ids_differ_when_clock_differs
    (w : Webhook.World) (l1 l2 : Webhook.loc) (ta tb t1 t2 : datetime) :
  valid_datetime t1 -> valid_datetime t2 -> t1 <> t2 ->
  let first := Webhook.process_webhook l1 ta t1 w in
  let second := Webhook.process_webhook l2 tb t2 first.2 in
  first.1 !! "webhook_id" <> second.1 !! "webhook_id".
Proof.
  intros H1 H2 Hne. cbv zeta. rewrite !process_webhook_id.
  intros E. apply Hne, webhook_id_injective; [done|done|congruence].
Qed.

(** Two submissions one microsecond apart. *)
Lemma webhook_ids_differ_when_clock_differs_witness :
  (Webhook.process_webhook 0%nat (Samples.at_us 1) (Samples.at_us 1)
     Samples.two_events).1 !! "webhook_id"
  <> (Webhook.process_webhook 1%nat (Samples.at_us 2) (Samples.at_us 2)
        (Webhook.process_webhook 0%nat (Samples.at_us 1) (Samples.at_us 1)
           Samples.two_events).2).1 !! "webhook_id".
Proof.
  apply (webhook_ids_differ_when_clock_differs Samples.two_events 0%nat 1%nat
           (Samples.at_us 1) (Samples.at_us 2) (Samples.at_us 1) (Samples.at_us 2)).
  - unfold valid_datetime. simpl. lia.
  - unfold valid_datetime. simpl. lia.
  - discriminate.
Defined.

(** X3.  Whenever [execute] of a registered, enabled agent raises, the
    dispatch returns the failure result with the exception's message and the
    agent's descriptor keeps its task counters; only its status, its last
    activity and the subclass's own attributes change, and the history is
    untouched. *)
Theorem execute_agent_exception_leaves_counters {P : Type}
    (self : Agents.AgentManager P) (name : string) (agent : Agents.BaseAgent P)
    (parameters : pydict) (clock : nat -> datetime) (p1 p2 : P) (e : exn) :
  Agents.agents self !! name = Some agent ->
  Agents.enabled agent = true ->
  Agents.validate_parameters agent parameters (Agents.attrs agent)
  = (Return true, p1) ->
  Agents.execute agent parameters p1 = (Raise e, p2) ->
  let r := Agents.execute_agent name parameters clock self in
  r.1 = <["timestamp" := PStr (isoformat (clock 3%nat))]>
          (<["agent_name" := PStr name]>
            (<["error" := PStr (str_exn e)]> {["success" := PBool false]}))
  /\ Agents.agent_status_history r.2 = Agents.agent_status_history self
  /\ exists agent',
       Agents.agents r.2 !! name = Some agent'
       /\ Agents.status agent' = Agents.FAILED
       /\ Agents.processing_stats agent' = Agents.processing_stats agent.
Proof.
  intros H He Hv Hx. cbv zeta.
  rewrite (execute_agent_raises name parameters clock self agent p1 p2 e) by done.
  split; [reflexivity|]. split; [reflexivity|].
  eexists. split; [apply lookup_insert_eq|]. by split.
Qed.

(** On the agent whose [execute] raises. *)
Lemma execute_agent_exception_leaves_counters_witness :
  (Agents.execute_agent "file_organization" Samples.process_documents
     Samples.tick Samples.raising_manager).1 !! "error" = Some (PStr "boom").
Proof.
  destruct (init_registry
              (Agents.new_agent "File Organization Agent" 0%nat
                 Samples.raising_execute Agents.default_validate_parameters)
              (Samples.at_us 0) (Samples.at_us 0)) as (triggers & Ha & _).
  fold (Samples.manager_of
          (Agents.new_agent "File Organization Agent" 0%nat
             Samples.raising_execute Agents.default_validate_parameters)) in Ha.
  fold Samples.raising_manager in Ha.
  destruct (execute_agent_exception_leaves_counters Samples.raising_manager
              "file_organization"
              (Agents.set_workflow_triggers triggers
                 (Agents.new_agent "File Organization Agent" 0%nat
                    Samples.raising_execute Agents.default_validate_parameters))
              Samples.process_documents Samples.tick 0%nat 1%nat
              (PyExc "RuntimeError" "boom")
              ltac:(rewrite Ha; apply lookup_singleton_eq)
              eq_refl eq_refl eq_refl) as [-> _].
  reflexivity.
Defined.

(** A [file_organization] webhook with payload [{"operation": "noop"}]:
    once submitted and drained it is marked processed and its result is the
    acknowledgement of [_handle_file_organization], not an error. *)
Theorem file_organization_webhook_is_acknowledged :
  let w := {| Webhook.objects := {[0%nat := Samples.noop_file_event]};
              Webhook.logs := [];
              Webhook.self := Webhook.init "http://localhost:5678" |} in
  let submitted := Webhook.process_webhook 0%nat (Samples.at_us 1) (Samples.at_us 2) w in
  let drained := Webhook._process_webhook_queue [Samples.at_us 9] submitted.2 in
  submitted.1 !! "status" = Some (PStr "accepted")
  /\ (Webhook.objects submitted.2 !! 0%nat ≫= lookup "processed")
     = Some (PBool false)
  /\ (Webhook.objects drained !! 0%nat ≫= lookup "processed") = Some (PBool true)
  /\ (Webhook.objects drained !! 0%nat ≫= lookup "result")
     = Some (PDict [("status", PStr "processed"); ("action", PStr "unknown");
                    ("file_path", PStr EmptyString); ("result", PStr "acknowledged")])
  /\ Webhook.processing_queue (Webhook.self drained) = [].
Proof. vm_compute. repeat split; reflexivity. Qed.

(** Dispatching ["file_organization"] to a stub that returns
    [{"success": True, "files_processed": 3}]: the payload carries the agent's
    name and the status ["completed"], and one completed task is counted. *)
Theorem dispatch_to_stub_agent_completes :
  let r := Agents.execute_agent "file_organization" Samples.process_documents
             Samples.tick Samples.stub_manager in
  r.1 !! "agent_name" = Some (PStr "file_organization")
  /\ r.1 !! "agent_status" = Some (PStr "completed")
  /\ r.1 !! "files_processed" = Some (PInt 3)
  /\ (Agents.tasks_completed ∘ Agents.processing_stats
        <$> Agents.agents r.2 !! "file_organization") = Some 1
  /\ length (Agents.agent_status_history r.2) = 1%nat.
Proof. vm_compute. repeat split; reflexivity. Qed.

(** ** More on the security manager *)

Section RateLimitFacts.
Import Security.
Implicit Types (self : SecurityManager) (ts : list Q).

Lemma check_rate_limit_other_key api_key other now self :
  other <> api_key ->
  request_counts (check_rate_limit api_key now self).2 !! other
  = request_counts self !! other.
Proof.
  intros Hne. unfold check_rate_limit.
  destruct (request_counts self !! api_key) eqn:E;
    destruct (Z.of_nat _ >=? rate_limit_requests self); simpl;
    rewrite ?lookup_insert_ne by done; reflexivity.
Qed.

Lemma check_rate_limit_static api_key now self :
  api_keys (check_rate_limit api_key now self).2 = api_keys self
  /\ enable_ip_whitelist (check_rate_limit api_key now self).2 = enable_ip_whitelist self
  /\ allowed_ips (check_rate_limit api_key now self).2 = allowed_ips self.
Proof.
  unfold check_rate_limit.
  by destruct (Z.of_nat _ >=? rate_limit_requests self).
Qed.

Lemma recent_length (W now : Q) (reqs : list Q) :
  (length (recent W now reqs) <= length reqs)%nat.
Proof. unfold recent. apply List.filter_length_le. Qed.

Lemma check_rate_limit_bounded api_key k now self :
  Z.of_nat (length (window_of k self)) <= rate_limit_requests self ->
  Z.of_nat (length (window_of k (check_rate_limit api_key now self).2))
    <= rate_limit_requests self.
Proof.
  intros Hb. destruct (decide (k = api_key)) as [->|Hne].
  - pose proof (recent_length (rate_limit_window self) now (window_of api_key self)).
    destruct (Z_le_gt_dec (rate_limit_requests self)
      (Z.of_nat (length (recent (rate_limit_window self) now
                           (window_of api_key self))))) as [Hge|Hlt].
    + destruct (check_rate_limit_fail api_key now self Hge) as [_ ->]. lia.
    + destruct (check_rate_limit_pass api_key now self ltac:(lia)) as [_ ->].
      rewrite length_app. simpl. lia.
  - unfold window_of in *. by rewrite check_rate_limit_other_key.
Qed.

Lemma check_many_config reqs : forall self,
  rate_limit_window (check_many reqs self) = rate_limit_window self
  /\ rate_limit_requests (check_many reqs self) = rate_limit_requests self.
Proof.
  induction reqs as [|[k t] reqs IH]; intros self; [done|].
  cbn [check_many]. destruct (IH (check_rate_limit k t self).2) as [-> ->].
  apply check_rate_limit_config.
Qed.

Lemma check_many_bounded reqs : forall self,
  (forall k, Z.of_nat (length (window_of k self)) <= rate_limit_requests self) ->
  forall k, Z.of_nat (length (window_of k (check_many reqs self)))
            <= rate_limit_requests self.
Proof.
  induction reqs as [|[k0 t] reqs IH]; intros self Hb k; [apply Hb|].
  cbn [check_many].
  destruct (check_rate_limit_config k0 t self) as [_ HM]. rewrite <- HM.
  apply IH. intros k'. rewrite HM. by apply check_rate_limit_bounded.
Qed.

Lemma recent_app (W now : Q) (l1 l2 : list Q) :
  recent W now (l1 ++ l2) = recent W now l1 ++ recent W now l2.
Proof. unfold recent. apply List.filter_app. Qed.

Lemma recent_recent (W t t' : Q) (l : list Q) :
  (t <= t')%Q -> recent W t' (recent W t l) = recent W t' l.
Proof.
  intros Hle. induction l as [|x l IH]; [reflexivity|].
  unfold recent in *. simpl.
  destruct (Qltb (t - x) W) eqn:E1; simpl.
  - by rewrite IH.
  - rewrite IH. destruct (Qltb (t' - x) W) eqn:E2; [|reflexivity].
    apply Qltb_ge in E1. apply Qltb_lt in E2. lra.
Qed.

Lemma recent_now (W now : Q) : (0 < W)%Q -> recent W now [now] = [now].
Proof.
  intros HW. unfold recent. simpl.
  destruct (Qltb (now - now) W) eqn:E; [reflexivity|].
  apply Qltb_ge in E. lra.
Qed.

(** Under a clock that does not go back, the window after a run of calls is
    what the window before and the calls that passed leave inside the window
    of the last call. *)
Lemma check_all_window api_key ts : forall self t_last,
  (0 < rate_limit_window self)%Q ->
  nondecreasing ts ->
  last ts = Some t_last ->
  window_of api_key (check_all api_key ts self).2
  = recent (rate_limit_window self) t_last
      (window_of api_key self ++ accepted ts (check_all api_key ts self).1).
Proof.
  induction ts as [|t ts IH]; intros self t_last HW Hnd Hlast; [done|].
  rewrite check_all_cons. cbn [fst snd].
  destruct Hnd as [Hle Hnd].
  destruct (check_rate_limit_config api_key t self) as [HW1 _].
  assert (Hstep :
    window_of api_key (check_rate_limit api_key t self).2
    = recent (rate_limit_window self) t (window_of api_key self)
      ++ accepted [t] [(check_rate_limit api_key t self).1]).
  { destruct (Z_le_gt_dec (rate_limit_requests self)
      (Z.of_nat (length (recent (rate_limit_window self) t
                           (window_of api_key self))))) as [Hge|Hlt].
    - destruct (check_rate_limit_fail api_key t self Hge) as [-> ->].
      simpl. by rewrite app_nil_r.
    - by destruct (check_rate_limit_pass api_key t self ltac:(lia)) as [-> ->]. }
  assert (Hacc : forall rs,
    accepted (t :: ts) ((check_rate_limit api_key t self).1 :: rs)
    = accepted [t] [(check_rate_limit api_key t self).1] ++ accepted ts rs).
  { intros rs. by destruct ((check_rate_limit api_key t self).1). }
  rewrite Hacc.
  destruct ts as [|t2 ts].
  - simpl in Hlast. inversion Hlast; subst t_last. cbn [check_all snd fst].
    rewrite Hstep, app_nil_r, recent_app.
    f_equal. destruct ((check_rate_limit api_key t self).1); cbn [accepted];
      [by rewrite recent_now|done].
  - assert (Hlast' : last (t2 :: ts) = Some t_last) by exact Hlast.
    assert (Htl : (t <= t_last)%Q).
    { apply Hle. apply last_Some in Hlast' as [l' ->].
      apply elem_of_app. right. by left. }
    rewrite (IH _ t_last); [|by rewrite HW1|done|done].
    rewrite HW1, Hstep, !recent_app, recent_recent by done.
    rewrite <- !app_assoc. reflexivity.
Qed.

End RateLimitFacts.

(** X4.  Calls of [check_rate_limit] never let a window grow beyond the
    maximum: when no key has more than [rate_limit_requests] timestamps,
    none has after any run of calls, for any keys at any times, so every
    count that [get_security_status] reports stays within the maximum. *)
Theorem rate_windows_stay_within_limit
    (self : Security.SecurityManager) (reqs : list (string * Q)) :
  (forall k, Z.of_nat (length (Security.window_of k self))
             <= Security.rate_limit_requests self) ->
  forall k n,
    Security.active_requests
      (Security.get_security_status (Security.check_many reqs self)) !! k = Some n ->
    Z.of_nat n <= Security.rate_limit_requests self.
Proof.
  intros Hb k n Hn. unfold Security.get_security_status in Hn. cbn in Hn.
  rewrite lookup_fmap in Hn.
  pose proof (check_many_bounded reqs self Hb k) as H.
  unfold Security.window_of in H.
  destruct (Security.request_counts (Security.check_many reqs self) !! k)
    as [l|]; [|done].
  simpl in *. inversion Hn; subst n. exact H.
Qed.

(** Three requests of one key and one of another, on the manager of
    [__init__]. *)
Lemma rate_windows_stay_within_limit_witness :
  exists n,
    Security.active_requests
      (Security.get_security_status
         (Security.check_many [("a", 1%Q); ("a", 2%Q); ("b", 2%Q); ("a", 70%Q)]
            Security.init)) !! "a" = Some n
    /\ Z.of_nat n <= 100.
Proof.
  assert (Hb : forall k, Z.of_nat (length (Security.window_of k Security.init))
                         <= Security.rate_limit_requests Security.init).
  { intros k. unfold Security.window_of. simpl. rewrite lookup_empty. simpl. lia. }
  exists 1%nat. split; [vm_compute; reflexivity|].
  apply (rate_windows_stay_within_limit Security.init
           [("a", 1%Q); ("a", 2%Q); ("b", 2%Q); ("a", 70%Q)] Hb "a").
  vm_compute. reflexivity.
Defined.

(** X5.  Under a clock that does not go back and from an empty window, the
    window of a key after any run of calls holds exactly the requests that
    passed less than [rate_limit_window] before the last call, and these are
    never more than [rate_limit_requests]: no more than the maximum is let
    through in any window. *)
Theorem window_holds_the_accepted_requests
    (self : Security.SecurityManager) (api_key : string) (ts : list Q) (t_last : Q) :
  (0 < Security.rate_limit_window self)%Q ->
  0 <= Security.rate_limit_requests self ->
  Security.window_of api_key self = [] ->
  Security.nondecreasing ts ->
  last ts = Some t_last ->
  let run := Security.check_all api_key ts self in
  let passed :=
    Security.recent (Security.rate_limit_window self) t_last
      (Security.accepted ts run.1) in
  Security.window_of api_key run.2 = passed
  /\ Z.of_nat (length passed) <= Security.rate_limit_requests self.
Proof.
  intros HW HM Hempty Hnd Hlast. cbv zeta.
  pose proof (check_all_window api_key ts self t_last HW Hnd Hlast) as Hwin.
  rewrite Hempty in Hwin. simpl in Hwin. split; [exact Hwin|].
  rewrite <- Hwin. clear Hwin.
  assert (Hgen : forall ts self,
    Z.of_nat (length (Security.window_of api_key self))
      <= Security.rate_limit_requests self ->
    Z.of_nat (length (Security.window_of api_key
                        (Security.check_all api_key ts self).2))
      <= Security.rate_limit_requests self).
  { clear. induction ts as [|t ts IH]; intros self Hb; [done|].
    rewrite check_all_cons. cbn [snd].
    destruct (check_rate_limit_config api_key t self) as [_ HM]. rewrite <- HM.
    apply IH. rewrite HM. by apply check_rate_limit_bounded. }
  apply Hgen. rewrite Hempty. simpl. lia.
Qed.

(** Requests at 0, 10, 65 and 75 seconds: at the last one the first two have
    left the window. *)
Lemma window_holds_the_accepted_requests_witness :
  Security.window_of "n8n_main"
    (Security.check_all "n8n_main" [0%Q; 10%Q; 65%Q; 75%Q] Security.init).2
  = [65%Q; 75%Q].
Proof.
  destruct (window_holds_the_accepted_requests Security.init "n8n_main"
              [0%Q; 10%Q; 65%Q; 75%Q] 75%Q) as [-> _].
  - reflexivity.
  - simpl. lia.
  - reflexivity.
  - simpl. repeat split; intros t' Ht';
      repeat (apply elem_of_cons in Ht' as [->|Ht']; [unfold Qle; simpl; lia|]);
      by apply elem_of_nil in Ht'.
  - reflexivity.
  - vm_compute. reflexivity.
Defined.

Section KeyFacts.
Import Security.
Implicit Types (self : SecurityManager).

Lemma dict_get_Some_elem_of {V} (k : string) (v : V) (d : list (string * V)) :
  dict_get k d = Some v -> (k, v) ∈ d.
Proof.
  induction d as [|[k' v'] d IH]; [done|]. simpl.
  destruct (decide (k' = k)) as [->|Hne].
  - intros [= ->]. by left.
  - intros H. right. by apply IH.
Qed.

Lemma dict_values_NoDup_inj {V} (a b : string) (v : V) (d : list (string * V)) :
  NoDup (dict_values d) -> (a, v) ∈ d -> (b, v) ∈ d -> a = b.
Proof.
  unfold dict_values. induction d as [|[k' v'] d IH]; intros Hnd Ha Hb.
  - by apply elem_of_nil in Ha.
  - simpl in Hnd. apply NoDup_cons in Hnd as [Hv Hnd].
    apply elem_of_cons in Ha as [Ha|Ha]; apply elem_of_cons in Hb as [Hb|Hb].
    + congruence.
    + inversion Ha; subst. exfalso. apply Hv.
      apply list_elem_of_fmap. by exists (b, v').
    + inversion Hb; subst. exfalso. apply Hv.
      apply list_elem_of_fmap. by exists (a, v').
    + by apply IH.
Qed.

Lemma dict_get_setitem_ne {V} (k k' : string) (v : V) (d : list (string * V)) :
  k' <> k -> dict_get k' (dict_setitem k v d) = dict_get k' d.
Proof.
  intros Hne. induction d as [|[k0 v0] d IH]; simpl.
  - by rewrite decide_False.
  - destruct (decide (k0 = k)) as [->|Hk0]; simpl.
    + by rewrite !decide_False.
    + destruct (decide (k0 = k')); [done|apply IH].
Qed.

Lemma check_rate_limit_outcome api_key now self1 self2 :
  window_of api_key self1 = window_of api_key self2 ->
  rate_limit_window self1 = rate_limit_window self2 ->
  rate_limit_requests self1 = rate_limit_requests self2 ->
  (check_rate_limit api_key now self1).1 = (check_rate_limit api_key now self2).1.
Proof.
  intros Hw HW HM.
  destruct (Z_le_gt_dec (rate_limit_requests self1)
    (Z.of_nat (length (recent (rate_limit_window self1) now
                         (window_of api_key self1))))) as [Hge|Hlt].
  - destruct (check_rate_limit_fail api_key now self1 Hge) as [-> _].
    rewrite Hw, HW, HM in Hge.
    by destruct (check_rate_limit_fail api_key now self2 Hge) as [-> _].
  - destruct (check_rate_limit_pass api_key now self1 ltac:(lia)) as [-> _].
    rewrite Hw, HW, HM in Hlt.
    by destruct (check_rate_limit_pass api_key now self2 ltac:(lia)) as [-> _].
Qed.

End KeyFacts.

(** X6.  The keys are limited apart from one another: a call of
    [check_rate_limit] for one key leaves the window of every other key, the
    key dictionary and the allow-list as they were, and does not change the
    answer that a later call for another key gets. *)
Theorem check_rate_limit_isolates_keys
    (self : Security.SecurityManager) (api_key other : string) (now later : Q) :
  other <> api_key ->
  let self' := (Security.check_rate_limit api_key now self).2 in
  Security.request_counts self' !! other = Security.request_counts self !! other
  /\ Security.api_keys self' = Security.api_keys self
  /\ Security.allowed_ips self' = Security.allowed_ips self
  /\ (Security.check_rate_limit other later self').1
     = (Security.check_rate_limit other later self).1.
Proof.
  intros Hne. cbv zeta.
  pose proof (check_rate_limit_other_key api_key other now self Hne) as Ho.
  destruct (check_rate_limit_static api_key now self) as (Hk & _ & Hi).
  destruct (check_rate_limit_config api_key now self) as [HW HM].
  repeat split; try done.
  apply check_rate_limit_outcome; [|done|done].
  unfold Security.window_of. by rewrite Ho.
Qed.

(** A request of ["b"] is answered the same after a request of ["a"]. *)
Lemma check_rate_limit_isolates_keys_witness :
  (Security.check_rate_limit "b" 2
     (Security.check_rate_limit "a" 1 Security.init).2).1 = Return tt.
Proof.
  destruct (check_rate_limit_isolates_keys Security.init "a" "b" 1%Q 2%Q
              ltac:(discriminate)) as (_ & _ & _ & ->).
  vm_compute. reflexivity.
Defined.

(** X7.  [secure_endpoint] checks the address, then the key, then the rate.
    A caller from an address outside the allow-list gets [HTTPException(403)]
    and one with an unknown key [HTTPException(401)], and neither changes the
    manager: only requests with a valid key reach the rate windows.  A
    request that passes both ends exactly as [check_rate_limit] on the
    credential does: with its exception and its state when it raises, which
    is when the window of the credential is full, and otherwise with its
    state and the name that [validate_api_key] finds for the credential. *)
Theorem secure_endpoint_checks_in_order
    (self : Security.SecurityManager) (client_ip credentials : string) (now : Q) :
  let r := Security.secure_endpoint client_ip credentials now self in
  let checked := Security.check_rate_limit credentials now self in
  (Security.enable_ip_whitelist self = true ->
   client_ip ∉ Security.allowed_ips self ->
   r = (Raise (Security.HTTPException 403 "IP address not authorized"), self))
  /\ ((Security.enable_ip_whitelist self = false
       \/ client_ip ∈ Security.allowed_ips self) ->
      (credentials ∉ dict_values (Security.api_keys self) ->
       r = (Raise (Security.HTTPException 401 "Invalid API key"), self))
      /\ (credentials ∈ dict_values (Security.api_keys self) ->
          exists key_name,
            Security.validate_api_key credentials self = Return key_name
            /\ (key_name, credentials) ∈ Security.api_keys self
            /\ r.2 = checked.2
            /\ (forall e, checked.1 = Raise e -> r.1 = Raise e)
            /\ (checked.1 = Return tt -> r.1 = Return key_name)
            /\ (Security.rate_limit_requests self
                <= Z.of_nat (length (Security.recent
                                       (Security.rate_limit_window self) now
                                       (Security.window_of credentials self))) ->
                r.1 = Raise Security.RateLimited)
            /\ (Z.of_nat (length (Security.recent
                                    (Security.rate_limit_window self) now
                                    (Security.window_of credentials self)))
                < Security.rate_limit_requests self ->
                r.1 = Return key_name))).
Proof.
  cbv zeta. unfold Security.secure_endpoint, Security.validate_ip_address.
  split.
  - intros He Hip. rewrite He. simpl. by rewrite bool_decide_eq_true_2.
  - intros Hip.
    assert (Hpass : (if negb (Security.enable_ip_whitelist self)
                     then Return tt
                     else if bool_decide (client_ip ∉ Security.allowed_ips self)
                          then Raise Security.Forbidden else Return tt)
                    = @Return Security.http_error unit tt).
    { destruct Hip as [->|Hin]; [done|].
      destruct (Security.enable_ip_whitelist self); simpl; [|done].
      rewrite bool_decide_eq_false_2; [done|tauto]. }
    rewrite Hpass. split.
    + intros Hk. by rewrite validate_api_key_rejects.
    + intros Hk. destruct (validate_api_key_accepts credentials self Hk) as [n Hn].
      rewrite Hn. exists n. split; [done|].
      split; [by apply validate_api_key_Return|].
      pose proof (check_rate_limit_fail credentials now self) as Hfail.
      pose proof (check_rate_limit_pass credentials now self) as Hpassed.
      destruct (Security.check_rate_limit credentials now self) as [[[]|e0] s'];
        cbn [fst snd] in *.
      * split; [done|]. split; [discriminate|]. split; [done|]. split; [|done].
        intros Hge. destruct (Hfail Hge) as [Ef _]. discriminate Ef.
      * split; [done|]. split; [by intros e [= ->]|]. split; [discriminate|].
        split.
        -- intros Hge. destruct (Hfail Hge) as [Ef _]. by injection Ef as ->.
        -- intros Hlt. destruct (Hpassed Hlt) as [Ef _]. discriminate Ef.
Qed.

(** X8.  [validate_api_key] answers with a name that stores the key
    presented and never fails in another way than [HTTPException(401)]; when
    no two names store the same key, it answers with the very name under which
    the key is stored. *)
Theorem validate_api_key_returns_the_owner
    (self : Security.SecurityManager) (candidate : string) :
  NoDup (dict_keys (Security.api_keys self)) ->
  (forall name,
     Security.validate_api_key candidate self = Return name ->
     dict_get name (Security.api_keys self) = Some candidate)
  /\ (forall e,
        Security.validate_api_key candidate self = Raise e ->
        e = Security.HTTPException 401 "Invalid API key"
        /\ forall name, dict_get name (Security.api_keys self) <> Some candidate)
  /\ (NoDup (dict_values (Security.api_keys self)) ->
      forall name,
        dict_get name (Security.api_keys self) = Some candidate ->
        Security.validate_api_key candidate self = Return name).
Proof.
  intros Hnd. split; [|split].
  - intros name Hv. apply validate_api_key_Return in Hv.
    by apply dict_get_elem_of.
  - intros e He.
    destruct (decide (candidate ∈ dict_values (Security.api_keys self))) as [Hin|Hout].
    + destruct (validate_api_key_accepts candidate self Hin) as [n Hn]. congruence.
    + rewrite validate_api_key_rejects in He by done. inversion He; subst e.
      split; [done|]. intros name Hg. apply Hout.
      apply dict_get_Some_elem_of in Hg. unfold dict_values.
      apply list_elem_of_fmap. by exists (name, candidate).
  - intros Hvals name Hg. apply dict_get_Some_elem_of in Hg.
    destruct (validate_api_key_accepts candidate self) as [n Hn].
    { unfold dict_values. apply list_elem_of_fmap. by exists (name, candidate). }
    rewrite Hn. f_equal. apply validate_api_key_Return in Hn.
    by apply (dict_values_NoDup_inj n name candidate (Security.api_keys self)).
Qed.

(** The key of [n8n_monitoring], on the manager of [__init__]. *)
Lemma validate_api_key_returns_the_owner_witness :
  Security.validate_api_key "sk_codealchemy_monitor_2025" Security.init
  = Return "n8n_monitoring".
Proof.
  assert (Hnd : NoDup (dict_keys (Security.api_keys Security.init))).
  { apply (bool_decide_unpack _). vm_compute. exact I. }
  assert (Hvals : NoDup (dict_values (Security.api_keys Security.init))).
  { apply (bool_decide_unpack _). vm_compute. exact I. }
  destruct (validate_api_key_returns_the_owner Security.init
              "sk_codealchemy_monitor_2025" Hnd) as (_ & _ & Hown).
  apply (Hown Hvals). vm_compute. reflexivity.
Defined.

(** X9.  [rotate_api_key] with a name that is not configured returns [False]
    and changes nothing.  With a configured name it returns [True], keeps the
    names and their order, the key of every other name and the rate windows,
    and revokes the old key: the key stored before is refused afterwards,
    unless it is the digest just stored or the key of another name.  (The
    names of a dictionary are distinct.) *)
Theorem rotate_api_key_keeps_the_others_and_revokes
    (self : Security.SecurityManager) (key_name new_key : string) :
  NoDup (dict_keys (Security.api_keys self)) ->
  let r := Security.rotate_api_key key_name new_key self in
  (key_name ∉ dict_keys (Security.api_keys self) -> r = (false, self))
  /\ (key_name ∈ dict_keys (Security.api_keys self) ->
      r.1 = true
      /\ dict_keys (Security.api_keys r.2) = dict_keys (Security.api_keys self)
      /\ Security.request_counts r.2 = Security.request_counts self
      /\ (forall name, name <> key_name ->
            dict_get name (Security.api_keys r.2)
            = dict_get name (Security.api_keys self))
      /\ (forall old,
            dict_get key_name (Security.api_keys self) = Some old ->
            old <> SHA256.hexdigest new_key ->
            (forall name, name <> key_name ->
                          dict_get name (Security.api_keys self) <> Some old) ->
            Security.validate_api_key old r.2
            = Raise (Security.HTTPException 401 "Invalid API key"))).
Proof.
  intros Hnd. cbv zeta. unfold Security.rotate_api_key. split.
  - intros Hk. by rewrite bool_decide_eq_true_2.
  - intros Hk. rewrite bool_decide_eq_false_2 by tauto. cbn.
    split; [done|]. split; [by apply dict_keys_setitem|]. split; [done|]. split.
    + intros name Hne. by apply dict_get_setitem_ne.
    + intros old Hold Hdig Hother. apply validate_api_key_rejects.
      unfold dict_values. cbn. intros Hin.
      apply list_elem_of_fmap in Hin as [[n k] [-> Hin]]. simpl in *.
      apply elem_of_dict_setitem in Hin; [|done].
      destruct Hin as [[_ E]|[Hn Hg]]; [congruence|].
      by apply (Hother n).
Qed.

(** Rotating [n8n_main] on the manager of [__init__] revokes its old key. *)
Lemma rotate_api_key_keeps_the_others_and_revokes_witness :
  Security.validate_api_key "sk_codealchemy_n8n_2025"
    (Security.rotate_api_key "n8n_main" "abc" Security.init).2
  = Raise (Security.HTTPException 401 "Invalid API key").
Proof.
  assert (Hnd : NoDup (dict_keys (Security.api_keys Security.init))).
  { apply (bool_decide_unpack _). vm_compute. exact I. }
  destruct (rotate_api_key_keeps_the_others_and_revokes Security.init
              "n8n_main" "abc" Hnd) as [_ Hrot].
  destruct Hrot as (_ & _ & _ & _ & Hrev).
  { apply (bool_decide_unpack _). vm_compute. exact I. }
  apply Hrev.
  - reflexivity.
  - vm_compute. discriminate.
  - intros name Hne Hg. apply dict_get_Some_elem_of in Hg.
    simpl in Hg.
    repeat (apply elem_of_cons in Hg as [Hg|Hg]; [inversion Hg; congruence|]).
    by apply elem_of_nil in Hg.
Defined.

(** ** More on the webhook handler *)

Section SliceFacts.
Context {A : Type}.
Implicit Types (l : list A).

Lemma slice_from_last (n : Z) l :
  0 < n -> slice_from (- n) l = keep_last (Z.to_nat n) l.
Proof.
  intros Hn. unfold slice_from, keep_last.
  destruct (Z.ltb_spec (- n) 0) as [_|]; [|lia]. f_equal. lia.
Qed.

Lemma slice_from_zero l : slice_from (- 0) l = l.
Proof. reflexivity. Qed.

Lemma slice_from_negative (n : Z) l :
  n < 0 -> slice_from (- n) l = drop (Z.to_nat (- n)) l.
Proof.
  intros Hn. unfold slice_from.
  destruct (Z.ltb_spec (- n) 0) as [|_]; [lia|reflexivity].
Qed.

Lemma slice_from_suffix (start : Z) l : slice_from start l `suffix_of` l.
Proof. unfold slice_from. destruct (start <? 0); apply suffix_drop. Qed.

End SliceFacts.

(** X10.  [get_webhook_history(limit)] returns the last [limit] records, all of
    them when there are fewer, for a positive [limit]; for [limit = 0] it
    returns the whole history, not an empty list, and for a negative [limit]
    the history without its first [-limit] records.  What it returns is
    always an end of the history. *)
Theorem get_webhook_history_limit (w : Webhook.World) (limit : Z) :
  let history := Webhook.webhook_history (Webhook.self w) in
  let shown := Webhook.get_webhook_history limit w in
  shown `suffix_of` history
  /\ (0 < limit ->
      shown = keep_last (Z.to_nat limit) history
      /\ length shown = Nat.min (length history) (Z.to_nat limit))
  /\ (limit = 0 -> shown = history)
  /\ (limit < 0 -> shown = drop (Z.to_nat (- limit)) history).
Proof.
  cbv zeta. unfold Webhook.get_webhook_history.
  split; [apply slice_from_suffix|]. split; [|split].
  - intros H. rewrite slice_from_last by done. split; [done|apply keep_last_length].
  - intros ->. apply slice_from_zero.
  - intros H. by apply slice_from_negative.
Qed.

Section EventFacts.
Import Webhook.
Implicit Types (w : World) (l : loc).

Lemma occur_all_cons ev evs w :
  occur_all (ev :: evs) w = occur_all evs (occur ev w).
Proof. reflexivity. Qed.

Lemma occur_max_history ev w : max_history (self (occur ev w)) = max_history (self w).
Proof.
  destruct ev as [l t1 t2|now]; [reflexivity|]. simpl.
  destruct (processing_queue (self w)) as [|l queue] eqn:Hq.
  - by rewrite loop_body_nil.
  - destruct (loop_body_cons now w l queue Hq) as (w' & -> & _ & _ & _ & Hm & _).
    exact Hm.
Qed.

Lemma occur_history_bounded ev w :
  Z.of_nat (length (webhook_history (self w))) <= max_history (self w) ->
  Z.of_nat (length (webhook_history (self (occur ev w)))) <= max_history (self w).
Proof.
  intros Hb. destruct ev as [l t1 t2|now]; cbn [occur].
  - rewrite process_webhook_history. by apply append_evict_bounded.
  - destruct (processing_queue (self w)) as [|l queue] eqn:Hq.
    + by rewrite loop_body_nil.
    + destruct (loop_body_cons now w l queue Hq) as (w' & -> & _ & _ & Hh & _).
      simpl. by rewrite Hh.
Qed.

Lemma occur_all_history_bounded evs : forall w,
  Z.of_nat (length (webhook_history (self w))) <= max_history (self w) ->
  Z.of_nat (length (webhook_history (self (occur_all evs w)))) <= max_history (self w).
Proof.
  induction evs as [|ev evs IH]; intros w Hb; [done|].
  rewrite occur_all_cons, <- (occur_max_history ev w). apply IH.
  rewrite occur_max_history. by apply occur_history_bounded.
Qed.

Lemma elem_of_append_evict {A} cap (h : list A) (x y : A) :
  y ∈ append_evict cap h x -> y ∈ h \/ y = x.
Proof.
  unfold append_evict. intros H.
  assert (Hin : y ∈ h ++ [x]).
  { destruct (Z.of_nat _ >? cap); [|done].
    by apply (subseteq_drop 1 (h ++ [x])). }
  apply elem_of_app in Hin as [?|Hin]; [by left|].
  apply list_elem_of_singleton in Hin. by right.
Qed.

Lemma is_processed_alter_ne (f : pydict -> pydict) (objs : gmap loc pydict) l l' :
  l' <> l -> is_processed (alter f l' objs) l = is_processed objs l.
Proof. intros Hne. unfold is_processed. by rewrite lookup_alter_ne. Qed.

Lemma occur_accounted ev w : accounted w -> accounted (occur ev w).
Proof.
  intros Hacc. destruct ev as [l0 t1 t2|now]; cbn [occur].
  - intros l Hl. rewrite process_webhook_history in Hl.
    rewrite process_webhook_queue.
    apply elem_of_append_evict in Hl as [Hl| ->].
    + destruct (decide (l = l0)) as [->|Hne].
      * left. apply elem_of_app. right. by left.
      * destruct (Hacc l Hl) as [Hq|Hp].
        -- left. apply elem_of_app. by left.
        -- right. unfold process_webhook. cbn [snd objects].
           rewrite is_processed_alter_ne by done. exact Hp.
    + left. apply elem_of_app. right. by left.
  - destruct (processing_queue (self w)) as [|l0 queue] eqn:Hq.
    + by rewrite loop_body_nil.
    + destruct (loop_body_cons now w l0 queue Hq)
        as (w' & -> & Hobj & Hqueue & Hhist & _). simpl.
      intros l Hl. rewrite Hhist in Hl. rewrite Hqueue.
      destruct (decide (l = l0)) as [->|Hne].
      * right. unfold is_processed, get. rewrite Hobj, lookup_insert_eq. simpl.
        by destruct (processed_record_fields (default ∅ (objects w !! l0)) now)
          as (-> & _).
      * destruct (Hacc l Hl) as [Hin|Hp].
        -- left. rewrite Hq in Hin.
           apply elem_of_cons in Hin as [?|?]; [done|done].
        -- right. unfold is_processed in *. rewrite Hobj.
           by rewrite lookup_insert_ne.
Qed.

Lemma occur_all_accounted evs : forall w, accounted w -> accounted (occur_all evs w).
Proof.
  induction evs as [|ev evs IH]; intros w Hacc; [done|].
  rewrite occur_all_cons. by apply IH, occur_accounted.
Qed.

Lemma occur_payload ev w l (k : string) :
  k ∉ bookkeeping_keys ->
  (objects (occur ev w) !! l ≫= lookup k) = (objects w !! l ≫= lookup k).
Proof.
  intros Hk.
  assert (Hne : k <> "received_at" /\ k <> "processed" /\ k <> "webhook_id"
                /\ k <> "processed_at" /\ k <> "result").
  { unfold bookkeeping_keys in Hk. repeat split; intros ->; apply Hk;
      repeat (first [by left | right]). }
  destruct Hne as (H1 & H2 & H3 & H4 & H5).
  destruct ev as [l0 t1 t2|now]; cbn [occur].
  - unfold process_webhook. cbn [snd objects].
    destruct (decide (l0 = l)) as [->|Hl]; [|by rewrite lookup_alter_ne].
    rewrite lookup_alter_eq. destruct (objects w !! l) as [d|]; [|done]. simpl.
    by rewrite !lookup_insert_ne.
  - destruct (processing_queue (self w)) as [|l0 queue] eqn:Hq.
    + by rewrite loop_body_nil.
    + destruct (loop_body_cons now w l0 queue Hq) as (w' & -> & Hobj & _). simpl.
      rewrite Hobj.
      destruct (decide (l0 = l)) as [->|Hl]; [|by rewrite lookup_insert_ne].
      rewrite lookup_insert_eq. simpl. unfold processed_record.
      rewrite !lookup_insert_ne by done.
      by destruct (objects w !! l).
Qed.

End EventFacts.

(** X11.  No record of the history is lost.  After any sequence of
    submissions and passes of the consumer loop on a handler whose history
    was empty, every record that the history holds is still waiting in the
    queue or is marked processed. *)
Theorem no_webhook_is_lost (w0 : Webhook.World) (evs : list Webhook.event) :
  Webhook.webhook_history (Webhook.self w0) = [] ->
  let w := Webhook.occur_all evs w0 in
  forall l,
    l ∈ Webhook.webhook_history (Webhook.self w) ->
    l ∈ Webhook.processing_queue (Webhook.self w)
    \/ Webhook.is_processed (Webhook.objects w) l = true.
Proof.
  intros Hh. cbv zeta. apply (occur_all_accounted evs w0).
  intros l Hl. rewrite Hh in Hl. by apply elem_of_nil in Hl.
Qed.

(** The two events, both submitted, and one pass of the loop: the alert is
    processed, the file event waits. *)
Lemma no_webhook_is_lost_witness :
  let w := Webhook.occur_all
             [Webhook.Submit 0%nat (Samples.at_us 1) (Samples.at_us 2);
              Webhook.Submit 1%nat (Samples.at_us 3) (Samples.at_us 4);
              Webhook.Pass (Samples.at_us 5)] Samples.two_events in
  Webhook.is_processed (Webhook.objects w) 0%nat = true
  /\ (1%nat ∈ Webhook.processing_queue (Webhook.self w)
      \/ Webhook.is_processed (Webhook.objects w) 1%nat = true).
Proof.
  cbv zeta. split; [vm_compute; reflexivity|].
  apply (no_webhook_is_lost Samples.two_events
           [Webhook.Submit 0%nat (Samples.at_us 1) (Samples.at_us 2);
            Webhook.Submit 1%nat (Samples.at_us 3) (Samples.at_us 4);
            Webhook.Pass (Samples.at_us 5)] eq_refl 1%nat).
  apply (bool_decide_unpack _). vm_compute. exact I.
Defined.

(** X12.  Submission and processing write five keys of a record
    ([received_at], [processed], [webhook_id], [processed_at], [result]) and
    no other: whatever else the caller put in the dictionary, its [type] and
    its payload among it, is the same after any sequence of submissions and
    passes of the loop. *)
Theorem payload_is_never_changed
    (evs : list Webhook.event) (w : Webhook.World) (l : Webhook.loc) (k : string) :
  k ∉ Webhook.bookkeeping_keys ->
  (Webhook.objects (Webhook.occur_all evs w) !! l ≫= lookup k)
  = (Webhook.objects w !! l ≫= lookup k).
Proof.
  intros Hk. revert w. induction evs as [|ev evs IH]; intros w; [done|].
  rewrite occur_all_cons, IH. by apply occur_payload.
Qed.

(** The bad alert, submitted and processed: its severity is still 5. *)
Lemma payload_is_never_changed_witness :
  (Webhook.objects
     (Webhook.occur_all
        [Webhook.Submit 0%nat (Samples.at_us 1) (Samples.at_us 2);
         Webhook.Pass (Samples.at_us 3)] Samples.two_events) !! 0%nat
   ≫= lookup "severity") = Some (PInt 5).
Proof.
  rewrite (payload_is_never_changed
             [Webhook.Submit 0%nat (Samples.at_us 1) (Samples.at_us 2);
              Webhook.Pass (Samples.at_us 3)] Samples.two_events 0%nat "severity").
  - vm_compute. reflexivity.
  - apply (bool_decide_unpack _). vm_compute. exact I.
Defined.

Section StatsBounds.
Import Webhook.

Lemma success_rate_bounds (w : World) :
  (0 <= success_rate (get_webhook_stats w))%Q
  /\ (success_rate (get_webhook_stats w) <= 100)%Q.
Proof.
  unfold get_webhook_stats. cbn [success_rate].
  set (total := length (webhook_history (self w))).
  set (processed := length (List.filter (is_processed (objects w))
                              (webhook_history (self w)))).
  assert (Hle : (processed <= total)%nat) by apply List.filter_length_le.
  destruct (Nat.ltb_spec 0 total) as [Hpos|_]; [|split; lra].
  assert (Ht : (0 < inject_Z (Z.of_nat total))%Q).
  { rewrite <- (Zlt_Qlt 0). lia. }
  assert (Hp : (0 <= inject_Z (Z.of_nat processed))%Q).
  { rewrite <- (Zle_Qle 0). lia. }
  assert (Hpt : (inject_Z (Z.of_nat processed) <= inject_Z (Z.of_nat total))%Q).
  { rewrite <- Zle_Qle. lia. }
  assert (H0 : (0 <= inject_Z (Z.of_nat processed) / inject_Z (Z.of_nat total))%Q).
  { apply Qle_shift_div_l; [done|lra]. }
  assert (H1 : (inject_Z (Z.of_nat processed) / inject_Z (Z.of_nat total) <= 1)%Q).
  { apply Qle_shift_div_r; [done|lra]. }
  set (x := (inject_Z (Z.of_nat processed) / inject_Z (Z.of_nat total))%Q) in *.
  split; lra.
Qed.

End StatsBounds.

(** X13.  The statistics are consistent.  After any sequence of submissions
    and passes of the loop on a handler whose history was within
    [max_history], [get_webhook_stats] reports at most [max_history]
    webhooks, no more processed ones than webhooks, and a success rate
    between 0 and 100. *)
Theorem webhook_stats_are_consistent (w0 : Webhook.World)
    (evs : list Webhook.event) :
  Z.of_nat (length (Webhook.webhook_history (Webhook.self w0)))
  <= Webhook.max_history (Webhook.self w0) ->
  let stats := Webhook.get_webhook_stats (Webhook.occur_all evs w0) in
  (Webhook.processed_webhooks stats <= Webhook.total_webhooks stats)%nat
  /\ Z.of_nat (Webhook.total_webhooks stats) <= Webhook.max_history (Webhook.self w0)
  /\ (0 <= Webhook.success_rate stats)%Q
  /\ (Webhook.success_rate stats <= 100)%Q.
Proof.
  intros Hb. cbv zeta. split; [apply List.filter_length_le|]. split.
  - by apply occur_all_history_bounded.
  - apply success_rate_bounds.
Qed.

(** The two events, both submitted, and one pass of the loop: one of two
    webhooks is processed. *)
Lemma webhook_stats_are_consistent_witness :
  let stats := Webhook.get_webhook_stats
                 (Webhook.occur_all
                    [Webhook.Submit 0%nat (Samples.at_us 1) (Samples.at_us 2);
                     Webhook.Submit 1%nat (Samples.at_us 3) (Samples.at_us 4);
                     Webhook.Pass (Samples.at_us 5)] Samples.two_events) in
  Webhook.total_webhooks stats = 2%nat
  /\ Webhook.processed_webhooks stats = 1%nat
  /\ (Webhook.success_rate stats <= 100)%Q.
Proof.
  cbv zeta. split; [vm_compute; reflexivity|]. split; [vm_compute; reflexivity|].
  apply (webhook_stats_are_consistent Samples.two_events
           [Webhook.Submit 0%nat (Samples.at_us 1) (Samples.at_us 2);
            Webhook.Submit 1%nat (Samples.at_us 3) (Samples.at_us 4);
            Webhook.Pass (Samples.at_us 5)]).
  vm_compute. discriminate.
Defined.

Section HandlerFacts.
Import Webhook.

Lemma is_str_true (s : string) (v : pyval) : is_str s v = true <-> v = PStr s.
Proof.
  unfold is_str. destruct v; try (split; [discriminate|by intros [=]]).
  rewrite String.eqb_eq. split; [by intros ->|by intros [= ->]].
Qed.

End HandlerFacts.

(** X14.  Which webhooks end in an error, and what the result says.  The
    handler of a record raises exactly when the record's [type] is
    ["system_alert"] and it carries a [severity] that is not a string; the
    exception is then the [AttributeError] of [severity.upper()] and the
    status of the result is ["error"].  In every other case the status is
    ["processed"], except for the type ["agent_status"], where the status of
    the payload (["unknown"] when it has none) takes its place. *)
Theorem route_webhook_status (d : pydict) :
  let webhook_type := get "type" (PStr "unknown") d in
  let severity := get "severity" (PStr "info") d in
  let status := dict_get "status" (Webhook._route_webhook d).2 in
  (forall e,
     (Webhook.handler_for webhook_type d).2 = Raise e
     <-> webhook_type = PStr "system_alert"
         /\ (forall s, severity <> PStr s)
         /\ e = PyExc "AttributeError"
                  ("'" +:+ type_name severity +:+ "' object has no attribute 'upper'"))
  /\ (webhook_type = PStr "system_alert" ->
      (forall s, severity <> PStr s) -> status = Some (PStr "error"))
  /\ (webhook_type = PStr "system_alert" ->
      (exists s, severity = PStr s) -> status = Some (PStr "processed"))
  /\ (webhook_type = PStr "agent_status" ->
      status = Some (get "status" (PStr "unknown") d))
  /\ (webhook_type <> PStr "system_alert" ->
      webhook_type <> PStr "agent_status" -> status = Some (PStr "processed")).
Proof.
  cbv zeta. unfold Webhook._route_webhook, Webhook.handler_for.
  set (ty := get "type" (PStr "unknown") d).
  destruct (Webhook.is_str "system_alert" ty) eqn:E1.
  { apply is_str_true in E1. unfold Webhook._handle_system_alert.
    destruct (get "severity" (PStr "info") d) as [|b|z|q|s|l|dd] eqn:Es;
      cbn [Webhook.call_upper fst snd type_name].
    5: { split.
         { intros e. split; [discriminate|].
           intros (_ & Hs & _). by destruct (Hs s). }
         split. { intros _ Hs. by destruct (Hs s). }
         split. { intros _ _. reflexivity. }
         split. { rewrite E1. discriminate. }
         intros Hne. by destruct Hne. }
    all: split;
      [intros e; split;
         [intros [= <-]; split; [done|split; [discriminate|done]]
         |intros (_ & _ & ->); reflexivity]|].
    all: split; [intros _ _; reflexivity|].
    all: split; [intros _ [s' Hs']; discriminate|].
    all: split; [rewrite E1; discriminate|intros Hne; by destruct Hne]. }
  assert (Hsa : ty <> PStr "system_alert").
  { intros H. apply is_str_true in H. congruence. }
  destruct (Webhook.is_str "file_organization" ty) eqn:E2;
    [|destruct (Webhook.is_str "content_analysis" ty) eqn:E3;
      [|destruct (Webhook.is_str "agent_status" ty) eqn:E4]];
    try apply is_str_true in E2; try apply is_str_true in E3;
    try apply is_str_true in E4; cbn [fst snd];
    (split; [intros e; split; [discriminate|by intros (? & _)]|]);
    (split; [by intros ?|]); (split; [by intros ?|]).
  - split; [rewrite E2; discriminate|reflexivity].
  - split; [rewrite E3; discriminate|reflexivity].
  - split; [reflexivity|intros _ H; by destruct H].
  - split; [|reflexivity]. intros H. apply is_str_true in H. congruence.
Qed.

(** ** More on the agent manager *)

Section RegistryFacts.
Import Agents.
Context {P : Type}.
Implicit Types (agent : BaseAgent P) (self : AgentManager P).

(** A call rewrites at most one descriptor of the registry; it keeps the
    descriptor's name, priority and methods, only adds triggers, and does not
    leave it [RUNNING]. *)
Lemma perform_agents (c : call) self :
  agents (perform c self) = agents self
  \/ exists name agent agent',
       agents self !! name = Some agent
       /\ agents (perform c self) = <[name := agent']> (agents self)
       /\ agent_name agent' = agent_name agent
       /\ priority agent' = priority agent
       /\ execute agent' = execute agent
       /\ validate_parameters agent' = validate_parameters agent
       /\ (status agent <> RUNNING -> status agent' <> RUNNING)
       /\ (exists ts, workflow_triggers agent' = workflow_triggers agent ++ ts).
Proof.
  destruct c as [name parameters clock|name now|name now|name trigger config now];
    unfold perform.
  - destruct (agents self !! name) as [agent|] eqn:H.
    2:{ left. by rewrite execute_agent_not_found. }
    destruct (enabled agent) eqn:He.
    2:{ left. by rewrite (execute_agent_is_disabled _ _ _ _ agent). }
    right. exists name, agent.
    destruct (validate_parameters agent parameters (attrs agent))
      as [[[|]|e] p1] eqn:Hv.
    + destruct (execute agent parameters p1) as [[result|e] p2] eqn:Hx.
      * pose proof (execute_agent_returns name parameters clock self agent
                      p1 p2 result H He Hv Hx) as E. cbv zeta in E.
        rewrite E. eexists. split; [done|]. split; [reflexivity|].
        cbn. repeat split; [|by exists []; rewrite app_nil_r].
        intros _. by destruct (truthy _).
      * rewrite (execute_agent_raises _ _ _ _ agent p1 p2 e) by done.
        eexists. split; [done|]. split; [reflexivity|].
        cbn. repeat split; [done|by exists []; rewrite app_nil_r].
    + rewrite (execute_agent_invalid _ _ _ _ agent p1) by done.
      eexists. split; [done|]. split; [reflexivity|].
      cbn. repeat split; [done|by exists []; rewrite app_nil_r].
    + rewrite (execute_agent_validate_raises _ _ _ _ agent p1 e) by done.
      eexists. split; [done|]. split; [reflexivity|].
      cbn. repeat split; [done|by exists []; rewrite app_nil_r].
  - unfold enable_agent. destruct (agents self !! name) as [agent|] eqn:H;
      [|by left].
    right. exists name, agent. eexists. split; [done|]. split; [reflexivity|].
    cbn. repeat split; [done|by exists []; rewrite app_nil_r].
  - unfold disable_agent. destruct (agents self !! name) as [agent|] eqn:H;
      [|by left].
    right. exists name, agent. eexists. split; [done|]. split; [reflexivity|].
    cbn. repeat split; [done|by exists []; rewrite app_nil_r].
  - unfold add_workflow_trigger. destruct (agents self !! name) as [agent|] eqn:H;
      [|by left].
    right. exists name, agent. eexists. split; [done|]. split; [reflexivity|].
    cbn. repeat split; [done|by eexists].
Qed.

Lemma perform_all_cons (c : call) (cs : list call) self :
  perform_all (c :: cs) self = perform_all cs (perform c self).
Proof. reflexivity. Qed.

Lemma perform_all_snoc (cs : list call) (c : call) self :
  perform_all (cs ++ [c]) self = perform c (perform_all cs self).
Proof. unfold perform_all. by rewrite fold_left_app. Qed.

Lemma perform_dom (c : call) self : dom (agents (perform c self)) = dom (agents self).
Proof.
  destruct (perform_agents c self) as [->|(name & agent & agent' & H & -> & _)];
    [done|].
  rewrite dom_insert_L. apply elem_of_dom_2 in H.
  apply set_eq. intros x. rewrite elem_of_union, elem_of_singleton.
  split; [intros [->|]; done|by right].
Qed.

Lemma perform_all_dom (cs : list call) : forall self,
  dom (agents (perform_all cs self)) = dom (agents self).
Proof.
  induction cs as [|c cs IH]; intros self; [done|].
  by rewrite perform_all_cons, IH, perform_dom.
Qed.

Lemma perform_not_running (c : call) self :
  (forall name agent, agents self !! name = Some agent -> status agent <> RUNNING) ->
  forall name agent,
    agents (perform c self) !! name = Some agent -> status agent <> RUNNING.
Proof.
  intros Hnr name agent.
  destruct (perform_agents c self)
    as [->|(name0 & agent0 & agent' & H & -> & _ & _ & _ & _ & Hs & _)];
    [apply Hnr|].
  destruct (decide (name0 = name)) as [->|Hne].
  - rewrite lookup_insert_eq. intros [= <-]. apply Hs. by apply (Hnr name).
  - rewrite lookup_insert_ne by done. apply Hnr.
Qed.

Lemma perform_all_not_running (cs : list call) : forall self,
  (forall name agent, agents self !! name = Some agent -> status agent <> RUNNING) ->
  forall name agent,
    agents (perform_all cs self) !! name = Some agent -> status agent <> RUNNING.
Proof.
  induction cs as [|c cs IH]; intros self Hnr; [done|].
  rewrite perform_all_cons. apply IH. by apply perform_not_running.
Qed.

Lemma filter_none {A} (f : A -> bool) (l : list A) :
  (forall x, x ∈ l -> f x = false) -> List.filter f l = [].
Proof.
  induction l as [|x l IH]; intros H; [done|]. simpl.
  rewrite (H x) by (apply elem_of_cons; by left).
  apply IH. intros y Hy. apply H. apply elem_of_cons. by right.
Qed.

End RegistryFacts.

(** X15.  Between calls no agent is [RUNNING]: whatever is dispatched,
    enabled, disabled or given a trigger, every call ends with the status it
    set to [COMPLETED], [FAILED], [IDLE] or [DISABLED], or with the one it
    found.  So [running_agents] of [get_agent_summary] is 0 whenever it is
    asked with no dispatch in flight. *)
Theorem no_agent_is_left_running {P : Type}
    (self : Agents.AgentManager P) (cs : list Agents.call) (now : datetime) :
  (forall name agent,
     Agents.agents self !! name = Some agent ->
     Agents.status agent <> Agents.RUNNING) ->
  (forall name agent,
     Agents.agents (Agents.perform_all cs self) !! name = Some agent ->
     Agents.status agent <> Agents.RUNNING)
  /\ Agents.running_agents
       (Agents.get_agent_summary now (Agents.perform_all cs self)) = 0%nat.
Proof.
  intros Hnr.
  pose proof (perform_all_not_running cs self Hnr) as Hall.
  split; [exact Hall|].
  cbn [Agents.get_agent_summary Agents.running_agents].
  unfold Agents.count_enabled_in. rewrite filter_none; [done|].
  intros [name agent] Hin. apply elem_of_map_to_list in Hin.
  apply Hall in Hin. cbn [snd]. unfold Agents.has_status.
  destruct (Agents.status agent); try done; by rewrite andb_false_r.
Qed.

(** After a dispatch, a disabling and an enabling of the stub agent. *)
Lemma no_agent_is_left_running_witness :
  Agents.running_agents
    (Agents.get_agent_summary (Samples.at_us 99)
       (Agents.perform_all
          [ Agents.ExecuteAgent "file_organization" Samples.process_documents
              Samples.tick;
            Agents.DisableAgent "file_organization" (Samples.at_us 50);
            Agents.EnableAgent "file_organization" (Samples.at_us 60) ]
          Samples.stub_manager)) = 0%nat.
Proof.
  apply (no_agent_is_left_running Samples.stub_manager).
  intros name agent H.
  destruct (init_registry
              (Agents.new_agent "File Organization Agent" 0%nat
                 Samples.stub_execute Agents.default_validate_parameters)
              (Samples.at_us 0) (Samples.at_us 0)) as (triggers & Ha & _).
  unfold Samples.stub_manager, Samples.manager_of in H. rewrite Ha in H.
  apply lookup_singleton_Some in H as [_ <-]. discriminate.
Defined.

(** X16.  No call registers, removes or renames an agent: after any calls the
    registry has the names it had, and under each name a descriptor with the
    same [agent_name], priority and methods, whose triggers are the old ones
    followed by those added. *)
Theorem registry_is_fixed {P : Type}
    (self : Agents.AgentManager P) (cs : list Agents.call) (name : string) :
  option_Forall2
    (fun agent agent' =>
       Agents.agent_name agent' = Agents.agent_name agent
       /\ Agents.priority agent' = Agents.priority agent
       /\ Agents.execute agent' = Agents.execute agent
       /\ Agents.validate_parameters agent' = Agents.validate_parameters agent
       /\ exists ts,
            Agents.workflow_triggers agent'
            = Agents.workflow_triggers agent ++ ts)
    (Agents.agents self !! name)
    (Agents.agents (Agents.perform_all cs self) !! name).
Proof.
  induction cs as [|c cs IH] using rev_ind.
  - simpl. destruct (Agents.agents self !! name); constructor.
    repeat split. exists []. by rewrite app_nil_r.
  - rewrite perform_all_snoc.
    set (m := Agents.perform_all cs self) in *.
    destruct (perform_agents c m)
      as [->|(name0 & agent0 & agent' & H & -> & Hn & Hp & Hx & Hv & _ & ts & Ht)];
      [exact IH|].
    destruct (decide (name0 = name)) as [->|Hne].
    + rewrite lookup_insert_eq. rewrite H in IH.
      inversion IH as [agent ? (Hn0 & Hp0 & Hx0 & Hv0 & ts0 & Ht0)|]; subst.
      constructor. rewrite Hn, Hp, Hx, Hv, Ht, Ht0.
      repeat split; try done. exists (ts0 ++ ts). by rewrite app_assoc.
    + by rewrite lookup_insert_ne.
Qed.

Section SummaryFacts.
Import Agents.
Context {P : Type}.
Implicit Types (agent : BaseAgent P) (self : AgentManager P).

Lemma entries_of_other name k (h : list ExecutionHistoryEntry) :
  name <> k ->
  entries_of name
    (List.filter (fun e => negb (bool_decide (entry_agent_name e = k))) h)
  = entries_of name h.
Proof.
  intros Hne. unfold entries_of. induction h as [|e h IH]; [done|]. simpl.
  destruct (decide (entry_agent_name e = k)) as [Hk|Hk].
  - rewrite (bool_decide_eq_true_2 _ Hk). simpl.
    rewrite bool_decide_eq_false_2 by congruence. exact IH.
  - rewrite (bool_decide_eq_false_2 _ Hk). simpl.
    destruct (bool_decide (entry_agent_name e = name)); by rewrite IH.
Qed.

(** Counters that count the entries under each name of a list of distinct
    names add up to the number of entries, when every entry carries one of
    the names. *)
Lemma sum_by_name (g : BaseAgent P -> Z) (l : list (string * BaseAgent P)) :
  forall h : list ExecutionHistoryEntry,
  NoDup l.*1 ->
  (forall name agent, (name, agent) ∈ l ->
     g agent = Z.of_nat (length (entries_of name h))) ->
  (forall e, e ∈ h -> entry_agent_name e ∈ l.*1) ->
  foldr (fun kv acc => g kv.2 + acc) 0 l = Z.of_nat (length h).
Proof.
  induction l as [|[k a] l IH]; intros h Hnd Hg Hin.
  - destruct h as [|e h]; [done|].
    specialize (Hin e ltac:(apply elem_of_cons; by left)).
    by apply elem_of_nil in Hin.
  - cbn [foldr snd]. cbn [fmap list_fmap fst] in Hnd, Hin.
    apply NoDup_cons in Hnd as [Hk Hnd].
    rewrite (Hg k a) by (apply elem_of_cons; by left).
    rewrite (IH (List.filter
                   (fun e => negb (bool_decide (entry_agent_name e = k))) h)).
    + unfold entries_of.
      pose proof (List.filter_length
                    (fun e => bool_decide (entry_agent_name e = k)) h) as Hlen.
      lia.
    + exact Hnd.
    + intros name agent Hl. rewrite entries_of_other.
      * apply Hg. apply elem_of_cons. by right.
      * intros ->. apply Hk. apply list_elem_of_fmap. by exists (k, agent).
    + intros e He. apply list_elem_of_In, List.filter_In in He as [He Hne].
      apply list_elem_of_In, Hin, elem_of_cons in He as [He|He]; [|done].
      rewrite bool_decide_eq_true_2 in Hne by done. discriminate.
Qed.

Lemma sum_over_add (f g : BaseAgent P -> Z) self :
  sum_over f self + sum_over g self = sum_over (fun agent => f agent + g agent) self.
Proof.
  unfold sum_over. induction (map_to_list (agents self)) as [|kv l IH]; [done|].
  simpl. lia.
Qed.

Lemma recorded_by_registered (c : call) self e :
  e ∈ recorded_by c self -> entry_agent_name e ∈ dom (agents self).
Proof.
  destruct c as [name parameters clock| | |]; simpl;
    try (intros H; by apply elem_of_nil in H).
  unfold recorded_entry.
  destruct (agents self !! name) as [agent|] eqn:Ha;
    [|intros H; by apply elem_of_nil in H].
  intros H. assert (entry_agent_name e = name) as ->; [|by apply elem_of_dom_2 in Ha].
  destruct (negb (enabled agent)); [by apply elem_of_nil in H|].
  destruct (validate_parameters agent parameters (attrs agent)) as [[[|]|?] p1];
    try (by apply elem_of_nil in H).
  destruct (execute agent parameters p1) as [[result|?] p2];
    [|by apply elem_of_nil in H].
  cbn [option_list option_rect] in H. apply list_elem_of_singleton in H. by subst e.
Qed.

Lemma recorded_registered (cs : list call) :
  forall self (sofar : list ExecutionHistoryEntry) e,
  e ∈ recorded cs self sofar ->
  e ∈ sofar \/ entry_agent_name e ∈ dom (agents self).
Proof.
  induction cs as [|c cs IH]; intros self sofar e He; [by left|].
  cbn [recorded] in He. apply IH in He as [He|He].
  - apply elem_of_app in He as [He|He]; [by left|right].
    by apply recorded_by_registered in He.
  - right. by rewrite perform_dom in He.
Qed.

Lemma filter_length_exclusive {A} (f g1 g2 g3 : A -> bool) (l : list A) :
  (forall x, g1 x && g2 x = false) -> (forall x, g1 x && g3 x = false) ->
  (forall x, g2 x && g3 x = false) ->
  (length (List.filter (fun x => f x && g1 x) l)
   + length (List.filter (fun x => f x && g2 x) l)
   + length (List.filter (fun x => f x && g3 x) l)
   <= length (List.filter f l))%nat.
Proof.
  intros H12 H13 H23. induction l as [|x l IH]; [done|]. simpl.
  specialize (H12 x). specialize (H13 x). specialize (H23 x).
  destruct (f x), (g1 x), (g2 x), (g3 x); simpl in *; try discriminate; lia.
Qed.

End SummaryFacts.

(** X17.  The totals of [get_agent_summary] count every dispatch that ran to
    a result since the manager was created, also those whose entry has left
    the history; the number of agents is the one the manager started with,
    and the running, idle and failed agents are among the enabled ones. *)
Theorem agent_summary_adds_up {P : Type}
    (self : Agents.AgentManager P) (cs : list Agents.call) (now : datetime) :
  Agents.fresh self ->
  let s := Agents.get_agent_summary now (Agents.perform_all cs self) in
  Agents.total_tasks_completed s + Agents.total_tasks_failed s
  = Z.of_nat (length (Agents.recorded cs self []))
  /\ Agents.total_agents s = size (Agents.agents self)
  /\ (Agents.running_agents s + Agents.idle_agents s + Agents.failed_agents s
      <= Agents.enabled_agents s)%nat
  /\ (Agents.enabled_agents s <= Agents.total_agents s)%nat.
Proof.
  intros (Hh & Hm & Hz). cbv zeta.
  cbn [Agents.get_agent_summary Agents.total_tasks_completed
       Agents.total_tasks_failed Agents.total_agents Agents.running_agents
       Agents.idle_agents Agents.failed_agents Agents.enabled_agents].
  destruct (perform_all_recorded cs self []) as [_ Hcount].
  { lia. } { by rewrite Hh. }
  { intros name agent Ha. destruct (Hz name agent Ha) as [Hc Hf].
    unfold Agents.tasks_counted. rewrite Hc, Hf. reflexivity. }
  split; [|split; [|split]].
  - rewrite sum_over_add. unfold Agents.sum_over.
    apply (sum_by_name Agents.tasks_counted).
    + apply NoDup_fst_map_to_list.
    + intros name agent Hl. apply elem_of_map_to_list in Hl.
      apply (Hcount name agent Hl).
    + intros e He. apply recorded_registered in He as [He|He];
        [by apply elem_of_nil in He|].
      rewrite <- (perform_all_dom cs self) in He.
      apply elem_of_dom in He as [agent Ha].
      apply list_elem_of_fmap. exists (Agents.entry_agent_name e, agent).
      split; [done|]. by apply elem_of_map_to_list.
  - rewrite <- !size_dom. by rewrite perform_all_dom.
  - unfold Agents.count_enabled_in. apply filter_length_exclusive;
      intros [name agent]; unfold Agents.has_status; cbn [snd];
      by destruct (Agents.status agent).
  - rewrite <- (length_map_to_list (Agents.agents _)). apply List.filter_length_le.
Qed.

(** Three dispatches to the stub agent, the second while it is disabled: the
    summary counts two tasks. *)
Lemma agent_summary_adds_up_witness :
  let s := Agents.get_agent_summary (Samples.at_us 99)
             (Agents.perform_all
                [ Agents.ExecuteAgent "file_organization" Samples.process_documents
                    Samples.tick;
                  Agents.DisableAgent "file_organization" (Samples.at_us 50);
                  Agents.ExecuteAgent "file_organization" Samples.process_documents
                    Samples.tick;
                  Agents.EnableAgent "file_organization" (Samples.at_us 60);
                  Agents.ExecuteAgent "file_organization" Samples.process_documents
                    Samples.tick ]
                Samples.stub_manager) in
  Agents.total_tasks_completed s + Agents.total_tasks_failed s = 2.
Proof.
  cbv zeta.
  assert (Hfresh : Agents.fresh Samples.stub_manager).
  { unfold Samples.stub_manager, Samples.manager_of.
    apply init_fresh; reflexivity. }
  destruct (agent_summary_adds_up Samples.stub_manager
    [ Agents.ExecuteAgent "file_organization" Samples.process_documents
        Samples.tick;
      Agents.DisableAgent "file_organization" (Samples.at_us 50);
      Agents.ExecuteAgent "file_organization" Samples.process_documents
        Samples.tick;
      Agents.EnableAgent "file_organization" (Samples.at_us 60);
      Agents.ExecuteAgent "file_organization" Samples.process_documents
        Samples.tick ] (Samples.at_us 99) Hfresh) as [-> _].
  vm_compute. reflexivity.
Defined.

Section ReportFacts.
Import Agents.
Context {P : Type}.
Implicit Types (agent : BaseAgent P) (self : AgentManager P).

Lemma entries_of_named name (h : list ExecutionHistoryEntry) :
  Forall (fun e => entry_agent_name e = name) (entries_of name h).
Proof.
  apply Forall_forall. intros e He.
  apply list_elem_of_In, List.filter_In in He as [_ He].
  by apply bool_decide_eq_true in He.
Qed.

Lemma entries_of_sublist name (h : list ExecutionHistoryEntry) :
  entries_of name h `sublist_of` h.
Proof.
  unfold entries_of. induction h as [|e h IH]; [done|]. simpl.
  destruct (bool_decide _); by constructor.
Qed.

Lemma slice_from_length {A} (n : Z) (l : list A) :
  0 < n -> Z.of_nat (length (slice_from (- n) l)) <= n.
Proof.
  intros Hn. rewrite slice_from_last, keep_last_length by done. lia.
Qed.

Lemma last_append_evict {A} (cap : Z) (l : list A) (x : A) :
  1 <= cap -> last (append_evict cap l x) = Some x.
Proof.
  intros Hcap. unfold append_evict.
  destruct (Z.gtb_spec (Z.of_nat (length (l ++ [x]))) cap) as [E|_];
    [|apply last_snoc].
  destruct l as [|y l]; [simpl in E; lia|]. simpl. rewrite drop_0. apply last_snoc.
Qed.

Lemma last_drop {A} (k : nat) (l : list A) (x : A) :
  last l = Some x -> (k < length l)%nat -> last (drop k l) = Some x.
Proof.
  intros Hl Hk. apply last_Some in Hl as [l' ->].
  rewrite length_app in Hk. simpl in Hk.
  rewrite drop_app_le by lia. apply last_snoc.
Qed.

Lemma last_slice_from {A} (n : Z) (l : list A) (x : A) :
  0 < n -> last l = Some x -> last (slice_from (- n) l) = Some x.
Proof.
  intros Hn Hl. rewrite slice_from_last by done. unfold keep_last.
  apply last_drop; [done|].
  destruct l as [|y l]; [discriminate|]. simpl. lia.
Qed.

Lemma slice_from_sublist {A} (start : Z) (l : list A) :
  slice_from start l `sublist_of` l.
Proof. unfold slice_from. destruct (start <? 0); apply sublist_drop. Qed.

Lemma slice_from_Forall {A} (Q : A -> Prop) (start : Z) (l : list A) :
  Forall Q l -> Forall Q (slice_from start l).
Proof. unfold slice_from. destruct (start <? 0); apply Forall_drop. Qed.

End ReportFacts.

(** X18.  What [get_execution_history] reports is a part of the history in
    its order, [total_entries] is the number of entries reported (not of
    those recorded), and a positive [limit] bounds it.  With a name, every
    entry reported carries it; a [limit] of 0 or less is no limit, and an
    empty name is no filter. *)
Theorem get_execution_history_report {P : Type}
    (self : Agents.AgentManager P) (agent_name : option string) (limit : Z)
    (now : datetime) :
  let history := Agents.agent_status_history self in
  let r := Agents.get_execution_history agent_name limit now self in
  Agents.total_entries r = length (Agents.report_history r)
  /\ Agents.report_history r `sublist_of` history
  /\ (0 < limit -> Z.of_nat (Agents.total_entries r) <= limit)
  /\ (forall name,
        agent_name = Some name -> name <> EmptyString ->
        Forall (fun e => Agents.entry_agent_name e = name) (Agents.report_history r)
        /\ (limit <= 0 ->
            Agents.report_history r = Agents.entries_of name history))
  /\ (agent_name = None \/ agent_name = Some EmptyString ->
      limit <= 0 -> Agents.report_history r = history).
Proof.
  cbv zeta. unfold Agents.get_execution_history.
  cbn [Agents.total_entries Agents.report_history].
  split; [reflexivity|]. split; [|split; [|split]].
  - destruct (limit >? 0); [etrans; [apply slice_from_sublist|]|];
      destruct agent_name as [name|]; try done;
      destruct (String.eqb name EmptyString); try done;
      apply entries_of_sublist.
  - intros Hl. destruct (Z.gtb_spec limit 0) as [_|]; [|lia].
    by apply slice_from_length.
  - intros name -> Hne. apply String.eqb_neq in Hne. rewrite Hne. split.
    + destruct (limit >? 0); [apply slice_from_Forall|]; apply entries_of_named.
    + intros Hl. destruct (Z.gtb_spec limit 0) as [|_]; [lia|done].
  - intros Hf Hl. destruct (Z.gtb_spec limit 0) as [|_]; [lia|].
    by destruct Hf as [->| ->].
Qed.

(** X19.  A dispatch whose [execute] returns is the last entry of the report,
    asked for all agents or for this one, with any limit, as long as the
    history may hold one entry. *)
Theorem dispatch_is_reported_last {P : Type}
    (self : Agents.AgentManager P) (name : string) (agent : Agents.BaseAgent P)
    (parameters : pydict) (clock : nat -> datetime) (p1 p2 : P) (result : pydict)
    (agent_name : option string) (limit : Z) (now : datetime) :
  Agents.agents self !! name = Some agent ->
  Agents.enabled agent = true ->
  Agents.validate_parameters agent parameters (Agents.attrs agent)
  = (Return true, p1) ->
  Agents.execute agent parameters p1 = (Return result, p2) ->
  1 <= Agents.max_history self ->
  agent_name = None \/ agent_name = Some name ->
  let after := (Agents.execute_agent name parameters clock self).2 in
  last (Agents.report_history
          (Agents.get_execution_history agent_name limit now after))
  = Some (Agents.history_entry name result
            (total_seconds_between (clock 2%nat) (clock 1%nat)) (clock 4%nat)).
Proof.
  intros H He Hv Hx Hcap Hf. cbv zeta.
  pose proof (execute_agent_returns name parameters clock self agent
                p1 p2 result H He Hv Hx) as E. cbv zeta in E. rewrite E.
  unfold Agents.get_execution_history.
  cbn [snd Agents.report_history Agents.agent_status_history].
  set (e := Agents.history_entry name result _ _).
  set (h := append_evict _ _ e).
  assert (Hlast : last h = Some e) by by apply last_append_evict.
  assert (Hsel : last (Agents.entries_of name h) = Some e).
  { apply last_Some in Hlast as [h' ->].
    rewrite entries_of_app. unfold Agents.entries_of at 2.
    cbn [List.filter]. rewrite bool_decide_eq_true_2 by done. apply last_snoc. }
  assert (Hall : last
            match agent_name with
            | Some name0 =>
                if String.eqb name0 EmptyString then h
                else Agents.entries_of name0 h
            | None => h
            end = Some e).
  { destruct Hf as [->| ->]; [done|]. by destruct (String.eqb name EmptyString). }
  destruct (Z.gtb_spec limit 0) as [Hl|_]; [|exact Hall].
  by apply last_slice_from.
Qed.

(** After one dispatch to the stub agent, the report of its last ten runs
    ends with a successful entry. *)
Lemma dispatch_is_reported_last_witness :
  Agents.entry_success
  <$> last (Agents.report_history
              (Agents.get_execution_history (Some "file_organization") 10
                 (Samples.at_us 99)
                 (Agents.execute_agent "file_organization"
                    Samples.process_documents Samples.tick
                    Samples.stub_manager).2))
  = Some (PBool true).
Proof.
  destruct (init_registry
              (Agents.new_agent "File Organization Agent" 0%nat
                 Samples.stub_execute Agents.default_validate_parameters)
              (Samples.at_us 0) (Samples.at_us 0)) as (triggers & Ha & _ & Hm).
  fold (Samples.manager_of
          (Agents.new_agent "File Organization Agent" 0%nat
             Samples.stub_execute Agents.default_validate_parameters)) in Ha, Hm.
  fold Samples.stub_manager in Ha, Hm.
  rewrite (dispatch_is_reported_last Samples.stub_manager "file_organization"
             (Agents.set_workflow_triggers triggers
                (Agents.new_agent "File Organization Agent" 0%nat
                   Samples.stub_execute Agents.default_validate_parameters))
             Samples.process_documents Samples.tick 0%nat 1%nat
             (<["files_processed" := PInt 3]> {["success" := PBool true]})
             (Some "file_organization") 10 (Samples.at_us 99)
             ltac:(rewrite Ha; apply lookup_singleton_eq)
             eq_refl eq_refl eq_refl
             ltac:(rewrite Hm; lia) ltac:(by right)).
  reflexivity.
Defined.

(** X20.  A disabled period leaves no trace but the status: after
    [disable_agent], a dispatch is refused and changes nothing, and
    [enable_agent] then gives the descriptor the agent had before, enabled,
    [IDLE] (whatever its status was) and with a new [last_activity]; the
    counters, the triggers and the history are those from before. *)
Theorem disable_dispatch_enable {P : Type}
    (self : Agents.AgentManager P) (name : string) (agent : Agents.BaseAgent P)
    (parameters : pydict) (clock : nat -> datetime) (t1 t2 : datetime) :
  Agents.agents self !! name = Some agent ->
  let disabled := (Agents.disable_agent name t1 self).2 in
  let r := Agents.execute_agent name parameters clock disabled in
  let enabled := (Agents.enable_agent name t2 r.2).2 in
  r.1 = Agents.is_disabled name
  /\ r.2 = disabled
  /\ enabled
     = Agents.set_agents
         (<[name := Agents.set_status Agents.IDLE (Some t2)
                      (Agents.set_enabled true agent)]> (Agents.agents self))
         self.
Proof.
  intros H. cbv zeta. unfold Agents.disable_agent. rewrite H. cbn [snd].
  rewrite (execute_agent_is_disabled name parameters clock _
             (Agents.update_status Agents.DISABLED t1
                (Agents.set_enabled false agent)));
    [|apply lookup_insert_eq|reflexivity].
  split; [reflexivity|]. split; [reflexivity|].
  unfold Agents.enable_agent. cbn [snd Agents.set_agents Agents.agents].
  rewrite lookup_insert_eq. cbn [snd]. unfold Agents.set_agents.
  cbn [Agents.agents Agents.agent_status_history Agents.max_history].
  by rewrite insert_insert_eq.
Qed.

(** On the stub agent. *)
Lemma disable_dispatch_enable_witness :
  (Agents.execute_agent "file_organization" Samples.process_documents Samples.tick
     (Agents.disable_agent "file_organization" (Samples.at_us 50)
        Samples.stub_manager).2).1
  = Agents.is_disabled "file_organization".
Proof.
  destruct (init_registry
              (Agents.new_agent "File Organization Agent" 0%nat
                 Samples.stub_execute Agents.default_validate_parameters)
              (Samples.at_us 0) (Samples.at_us 0)) as (triggers & Ha & _).
  fold (Samples.manager_of
          (Agents.new_agent "File Organization Agent" 0%nat
             Samples.stub_execute Agents.default_validate_parameters)) in Ha.
  fold Samples.stub_manager in Ha.
  apply (disable_dispatch_enable Samples.stub_manager "file_organization"
           (Agents.set_workflow_triggers triggers
              (Agents.new_agent "File Organization Agent" 0%nat
                 Samples.stub_execute Agents.default_validate_parameters))
           Samples.process_documents Samples.tick (Samples.at_us 50)
           (Samples.at_us 60)).
  rewrite Ha. apply lookup_singleton_eq.
Defined.

(** ** The file organization agent *)

Section CategoryFacts.
Import FileOrganization.

Lemma find_all_false {A} (f : A -> bool) (l : list A) :
  Forall (fun x => f x = false) l -> List.find f l = None.
Proof.
  induction 1 as [|x l Hx _ IH]; [done|]. simpl. by rewrite Hx.
Qed.

Lemma category_of_type_range (file_type : string) :
  category_of_type file_type ∈ ["image"; "video"; "audio"; "document"; "other"].
Proof.
  unfold category_of_type. case_bool_decide as H.
  - repeat (apply elem_of_cons in H as [->|H];
              [apply (bool_decide_unpack _); vm_compute; exact I|]).
    by apply elem_of_nil in H.
  - destruct (String.eqb file_type "text");
      apply (bool_decide_unpack _); vm_compute; exact I.
Qed.

End CategoryFacts.

(** X21.  The extension table of [_determine_category] lists extensions
    without their dot, and [Path.suffix] has the dot: for the extension of a
    file as [_analyze_file] records it, no row matches and the category is the
    one of the MIME type alone.  So no file is filed under [spreadsheet],
    [presentation], [archive], [code] or [data]. *)
Theorem determine_category_never_matches_a_suffix (file_type extension : string) :
  FileOrganization.is_suffix extension ->
  FileOrganization._determine_category file_type extension
  = FileOrganization.category_of_type file_type
  /\ FileOrganization._determine_category file_type extension
     ∈ ["image"; "video"; "audio"; "document"; "other"].
Proof.
  intros Hs.
  assert (E : FileOrganization._determine_category file_type extension
              = FileOrganization.category_of_type file_type).
  { unfold FileOrganization._determine_category. rewrite find_all_false; [done|].
    unfold FileOrganization.categories.
    destruct Hs as [->|[rest ->]];
      repeat (apply Forall_cons; split;
              [apply bool_decide_eq_false_2; cbn [snd]; intros Hin;
               repeat (apply elem_of_cons in Hin as [Hin|Hin]; [discriminate|]);
               by apply elem_of_nil in Hin|]);
      apply Forall_nil_2. }
  split; [exact E|]. rewrite E. apply category_of_type_range.
Qed.

(** A PDF, whose MIME type is [application/pdf], is filed under [other]. *)
Lemma determine_category_never_matches_a_suffix_witness :
  FileOrganization._determine_category "application" ".pdf" = "other".
Proof.
  destruct (determine_category_never_matches_a_suffix "application" ".pdf")
    as [-> _]; [right; by eexists|reflexivity].
Defined.

(** X22.  An operation that [FileOrganizationAgent.execute] does not know is
    answered, not raised: dispatched through [execute_agent] the answer
    carries [success = False], the error text with the operation and the three
    supported operations; the dispatch counts as a failed task, leaves the
    status [FAILED] and the agent's own attributes alone, and appends to the
    history the entry of this answer, which is its last entry afterwards when
    the history may hold one. *)
Theorem unknown_operation_is_a_failed_task {P : Type}
    (process_documents add_test_files : P -> outcome exn pydict * P)
    (format_value : pyval -> string)
    (self : Agents.AgentManager P) (name : string) (agent : Agents.BaseAgent P)
    (parameters : pydict) (clock : nat -> datetime) :
  Agents.agents self !! name = Some agent ->
  Agents.enabled agent = true ->
  Agents.validate_parameters agent = Agents.default_validate_parameters ->
  Agents.execute agent
  = FileOrganization.execute process_documents add_test_files format_value ->
  get "operation" (PStr "process_documents") parameters
  ∉ [PStr "process_documents"; PStr "add_test_files"; PStr "organize_files"] ->
  let r := Agents.execute_agent name parameters clock self in
  let message :=
    PStr ("Unknown operation: "
          +:+ format_value (get "operation" (PStr "process_documents") parameters)) in
  r.1 !! "success" = Some (PBool false)
  /\ r.1 !! "error" = Some message
  /\ r.1 !! "agent_status" = Some (PStr "failed")
  /\ r.1 !! "supported_operations"
     = Some (PList [PStr "process_documents"; PStr "add_test_files";
                    PStr "organize_files"])
  /\ (exists entry,
        Agents.agent_status_history r.2
        = append_evict (Agents.max_history self)
            (Agents.agent_status_history self) entry
        /\ (1 <= Agents.max_history self ->
            last (Agents.agent_status_history r.2) = Some entry)
        /\ Agents.entry_agent_name entry = name
        /\ Agents.entry_timestamp entry = isoformat (clock 4%nat)
        /\ Agents.entry_success entry = PBool false
        /\ Agents.summary_error (Agents.entry_result_summary entry) = message
        /\ Agents.summary_status (Agents.entry_result_summary entry)
           = PStr "unknown")
  /\ exists agent',
       Agents.agents r.2 !! name = Some agent'
       /\ Agents.status agent' = Agents.FAILED
       /\ Agents.attrs agent' = Agents.attrs agent
       /\ Agents.tasks_failed (Agents.processing_stats agent')
          = Agents.tasks_failed (Agents.processing_stats agent) + 1
       /\ Agents.tasks_completed (Agents.processing_stats agent')
          = Agents.tasks_completed (Agents.processing_stats agent).
Proof.
  intros H He Hv Hx Hop. cbv zeta.
  set (op := get "operation" (PStr "process_documents") parameters) in *.
  assert (Hrun : Agents.execute agent parameters (Agents.attrs agent)
    = (Return (<["supported_operations" := FileOrganization.supported_operations]>
                 (<["error" := PStr ("Unknown operation: " +:+ format_value op)]>
                   {["success" := PBool false]})),
       Agents.attrs agent)).
  { rewrite Hx. unfold FileOrganization.execute. fold op.
    assert (Hno : forall s, s ∈ ["process_documents"; "add_test_files";
                                 "organize_files"] ->
                            Webhook.is_str s op = false).
    { intros s Hs. destruct (Webhook.is_str s op) eqn:E; [|done].
      apply is_str_true in E. exfalso. apply Hop. rewrite E.
      change [PStr "process_documents"; PStr "add_test_files"; PStr "organize_files"]
        with (PStr <$> ["process_documents"; "add_test_files"; "organize_files"]).
      by apply list_elem_of_fmap_2. }
    rewrite !Hno; [done|..]; apply (bool_decide_unpack _); vm_compute; exact I. }
  assert (Hval : Agents.validate_parameters agent parameters (Agents.attrs agent)
                 = (Return true, Agents.attrs agent)).
  { by rewrite Hv. }
  pose proof (execute_agent_returns name parameters clock self agent _ _ _
                H He Hval Hrun) as E. cbv zeta in E. rewrite E. clear E.
  cbn [fst snd Agents.agents Agents.agent_status_history].
  set (answer := <["supported_operations" := FileOrganization.supported_operations]>
                   (<["error" := PStr ("Unknown operation: " +:+ format_value op)]>
                     {["success" := PBool false]})).
  assert (Hsuccess : answer !! "success" = Some (PBool false)).
  { unfold answer. rewrite lookup_insert_ne by done. rewrite lookup_insert_ne by done.
    by rewrite lookup_singleton_eq. }
  assert (Herror : answer !! "error"
                   = Some (PStr ("Unknown operation: " +:+ format_value op))).
  { unfold answer. rewrite lookup_insert_ne by done. by rewrite lookup_insert_eq. }
  assert (Hstatus : answer !! "status" = None).
  { unfold answer. rewrite lookup_insert_ne by done. rewrite lookup_insert_ne by done.
    by rewrite lookup_singleton_ne. }
  assert (Hops : answer !! "supported_operations"
                 = Some FileOrganization.supported_operations).
  { unfold answer. by rewrite lookup_insert_eq. }
  assert (Hok : truthy (get "success" PNone answer) = false).
  { unfold get. by rewrite Hsuccess. }
  clearbody answer. rewrite Hok.
  split. { by do 4 (rewrite lookup_insert_ne by done). }
  split. { by do 4 (rewrite lookup_insert_ne by done). }
  split. { by rewrite lookup_insert_eq. }
  split. { by do 4 (rewrite lookup_insert_ne by done). }
  split.
  { eexists. split; [reflexivity|]. split; [intros Hcap; by apply last_append_evict|].
    unfold Agents.history_entry, get.
    cbn [Agents.entry_agent_name Agents.entry_timestamp Agents.entry_success
         Agents.entry_result_summary Agents.summary_error Agents.summary_status].
    by rewrite Hsuccess, Herror, Hstatus. }
  eexists. split; [apply lookup_insert_eq|]. cbn. repeat split; lia.
Qed.

(** The stub's manager with the agent's [execute], asked for ["noop"]: the
    answer is a failure and the history holds its one entry. *)
Lemma unknown_operation_is_a_failed_task_witness :
  let stub := fun calls : nat => (Return (∅ : pydict), S calls) in
  let manager :=
    Samples.manager_of
      (Agents.new_agent "File Organization Agent" 0%nat
         (FileOrganization.execute stub stub (fun _ => "noop"))
         Agents.default_validate_parameters) in
  let r := Agents.execute_agent "file_organization" {["operation" := PStr "noop"]}
             Samples.tick manager in
  r.1 !! "success" = Some (PBool false)
  /\ r.1 !! "error" = Some (PStr "Unknown operation: noop")
  /\ Agents.entry_success <$> Agents.agent_status_history r.2 = [PBool false].
Proof.
  cbv zeta.
  destruct (init_registry
              (Agents.new_agent "File Organization Agent" 0%nat
                 (FileOrganization.execute
                    (fun calls : nat => (Return (∅ : pydict), S calls))
                    (fun calls : nat => (Return (∅ : pydict), S calls))
                    (fun _ => "noop"))
                 Agents.default_validate_parameters)
              (Samples.at_us 0) (Samples.at_us 0)) as (triggers & Ha & Hh & Hm).
  unfold Samples.manager_of.
  destruct (unknown_operation_is_a_failed_task
              (fun calls : nat => (Return (∅ : pydict), S calls))
              (fun calls : nat => (Return (∅ : pydict), S calls))
              (fun _ => "noop")
              (Agents.init
                 (Agents.new_agent "File Organization Agent" 0%nat
                    (FileOrganization.execute
                       (fun calls : nat => (Return (∅ : pydict), S calls))
                       (fun calls : nat => (Return (∅ : pydict), S calls))
                       (fun _ => "noop"))
                    Agents.default_validate_parameters)
                 (Samples.at_us 0) (Samples.at_us 0))
              "file_organization"
              (Agents.set_workflow_triggers triggers
                 (Agents.new_agent "File Organization Agent" 0%nat
                    (FileOrganization.execute
                       (fun calls : nat => (Return (∅ : pydict), S calls))
                       (fun calls : nat => (Return (∅ : pydict), S calls))
                       (fun _ => "noop"))
                    Agents.default_validate_parameters))
              {["operation" := PStr "noop"]} Samples.tick)
    as (Hs & Herr & _ & _ & (entry & Hhist & _ & _ & _ & Hes & _) & _).
  - rewrite Ha. apply lookup_singleton_eq.
  - reflexivity.
  - reflexivity.
  - reflexivity.
  - unfold get. rewrite lookup_singleton_eq. cbn [default].
    intros Hin.
    repeat (apply elem_of_cons in Hin as [Hin|Hin]; [discriminate|]).
    by apply elem_of_nil in Hin.
  - split; [exact Hs|]. split; [exact Herr|].
    rewrite Hhist, Hh, Hm. change (append_evict 1000 [] entry) with [entry].
    cbn [fmap list_fmap]. by rewrite Hes.
Defined.

(** ** The endpoints *)

Section EndpointFacts.
Import Api.
Context {P : Type}.
Variable str_http : Security.http_error -> string.
Implicit Types (api : N8NIntegrationAPI P).

Lemma validate_api_key_raise credentials sm e :
  Security.validate_api_key credentials sm = Raise e ->
  e = Security.Unauthorized /\ credentials ∉ dict_values (Security.api_keys sm).
Proof.
  intros H. destruct (decide (credentials ∈ dict_values (Security.api_keys sm)))
    as [Hin|Hout].
  - apply validate_api_key_accepts in Hin as [name Hn]. congruence.
  - rewrite validate_api_key_rejects in H by done. by inversion H.
Qed.

Lemma new_object_fresh (d : pydict) (w : Webhook.World) :
  Webhook.objects w !! (new_object d w).1 = None.
Proof.
  unfold new_object. cbn [fst]. apply not_elem_of_dom, is_fresh.
Qed.

(** The outcomes of the calls that open an endpoint: the key is unknown;
    the address is refused; the key's window is full; or all three pass and
    the call is entered in the window of the key's name. *)
Lemma endpoint_security client_ip credentials current_time sm :
  ((credentials ∉ dict_values (Security.api_keys sm))
   /\ Security.validate_api_key credentials sm = Raise Security.Unauthorized)
  \/ exists name,
       Security.validate_api_key credentials sm = Return name
       /\ ((Security.validate_ip_address client_ip sm = Raise Security.Forbidden
            /\ validate_security client_ip name current_time sm
               = (Raise Security.Forbidden, sm))
           \/ (Security.validate_ip_address client_ip sm = Return tt
               /\ exists sm',
                    (validate_security client_ip name current_time sm
                     = (Raise Security.RateLimited, sm')
                     /\ Security.rate_limit_requests sm
                        <= Z.of_nat (length (Security.recent
                                               (Security.rate_limit_window sm)
                                               current_time
                                               (Security.window_of name sm))))
                    \/ (validate_security client_ip name current_time sm
                        = (Return tt, sm')
                        /\ last (Security.window_of name sm')
                           = Some current_time))).
Proof.
  destruct (Security.validate_api_key credentials sm) as [name|e] eqn:Hk.
  2:{ left. apply validate_api_key_raise in Hk as [-> Hk]. by split. }
  right. exists name. split; [done|]. unfold validate_security.
  unfold Security.validate_ip_address.
  destruct (negb (Security.enable_ip_whitelist sm)) eqn:Hw;
    [|case_bool_decide as Hip; [left; by split|]];
    right; (split; [done|]);
    exists (Security.check_rate_limit name current_time sm).2;
    (destruct (Z_le_gt_dec (Security.rate_limit_requests sm)
       (Z.of_nat (length (Security.recent (Security.rate_limit_window sm)
                            current_time (Security.window_of name sm)))))
       as [Hge|Hlt];
     [left; destruct (check_rate_limit_fail name current_time sm Hge) as [E _];
      split; [|done];
      destruct (Security.check_rate_limit name current_time sm); simpl in *;
      by rewrite E
     |right;
      destruct (check_rate_limit_pass name current_time sm ltac:(lia)) as [E Ew];
      split; [|rewrite Ew; apply last_snoc];
      destruct (Security.check_rate_limit name current_time sm) as [[[]|] ?];
      simpl in *; by try discriminate]).
Qed.

End EndpointFacts.

(** X23.  What a webhook endpoint answers.  An unknown key is refused by the
    dependency with 401 and nothing changes.  With a known key, a refused
    address and a full rate window both come out of the endpoint's own
    [except Exception] as 500, never as 403 or 429, and nothing is submitted.
    Otherwise the answer is 200 with the acknowledgement of
    [process_webhook], the record is queued, and the call is entered in the
    window of the key's name. *)
Theorem webhook_endpoint_answers {P : Type}
    (str_http : Security.http_error -> string) (webhook_type : string)
    (client_ip credentials : string) (data : list (string * pyval))
    (current_time : Q) (t_received t_id : datetime)
    (api : Api.N8NIntegrationAPI P) :
  let sm := Api.security_manager api in
  let r := Api.webhook_endpoint str_http webhook_type client_ip credentials data
             current_time t_received t_id api in
  (credentials ∉ dict_values (Security.api_keys sm) ->
   r = (Raise Security.Unauthorized, api))
  /\ (credentials ∈ dict_values (Security.api_keys sm) ->
      Security.validate_ip_address client_ip sm = Raise Security.Forbidden ->
      r = (Raise (Security.HTTPException 500 (str_http Security.Forbidden)), api))
  /\ (forall name,
        Security.validate_api_key credentials sm = Return name ->
        Security.validate_ip_address client_ip sm = Return tt ->
        Security.rate_limit_requests sm
        <= Z.of_nat (length (Security.recent (Security.rate_limit_window sm)
                               current_time (Security.window_of name sm))) ->
        r.1 = Raise (Security.HTTPException 500 (str_http Security.RateLimited)))
  /\ (forall e,
        r.1 = Raise e ->
        Api.webhook_handler r.2 = Api.webhook_handler api
        /\ Api.agent_manager r.2 = Api.agent_manager api
        /\ (e = Security.Unauthorized
            \/ exists detail, e = Security.HTTPException 500 detail))
  /\ (forall resp,
        r.1 = Return resp ->
        (exists content,
           resp = Api.JSONResponse content 200
           /\ content !! "status" = Some (PStr "accepted"))
        /\ length (Webhook.processing_queue
                     (Webhook.self (Api.webhook_handler r.2)))
           = S (length (Webhook.processing_queue
                          (Webhook.self (Api.webhook_handler api))))
        /\ exists name,
             Security.validate_api_key credentials sm = Return name
             /\ last (Security.window_of name (Api.security_manager r.2))
                = Some current_time).
Proof.
  cbv zeta. unfold Api.webhook_endpoint, Security.get_api_key_from_header.
  assert (Hknown : forall name,
    Security.validate_api_key credentials (Api.security_manager api) = Return name ->
    credentials ∈ dict_values (Security.api_keys (Api.security_manager api))).
  { intros name Hk. unfold dict_values. apply list_elem_of_fmap.
    exists (name, credentials). split; [done|].
    by apply validate_api_key_Return. }
  destruct (endpoint_security client_ip credentials current_time
              (Api.security_manager api))
    as [[Hout Hk]|(name & Hk & [[Hip Hs]|(Hip & sm' & [[Hs Hfull]|[Hs Hwin]])])];
    rewrite Hk, ?Hs.
  - split; [done|]. split; [done|]. split; [discriminate|].
    split; [|discriminate]. intros e [= <-]. repeat split. by left.
  - split; [intros Hout; by destruct (Hout (Hknown name Hk))|].
    split; [intros _ _; by destruct api|].
    split; [intros name' _ Hip'; congruence|].
    split; [|discriminate]. intros e [= <-]. repeat split. right. by eexists.
  - split; [intros Hout; by destruct (Hout (Hknown name Hk))|].
    split; [intros _ Hip'; congruence|].
    split; [done|].
    split; [|discriminate]. intros e [= <-]. repeat split. right. by eexists.
  - split; [intros Hout; by destruct (Hout (Hknown name Hk))|].
    split; [intros _ Hip'; congruence|].
    unfold Api.new_object. cbv zeta.
    destruct (Webhook.process_webhook _ _ _ _) as [result w] eqn:Epw.
    cbn [fst snd Api.webhook_handler Api.security_manager].
    pose proof (f_equal fst Epw) as E1. pose proof (f_equal snd Epw) as E2.
    cbn [fst snd] in E1, E2.
    split.
    { intros name' [= <-] _ Hfull. exfalso.
      unfold Api.validate_security in Hs. rewrite Hip in Hs.
      destruct (check_rate_limit_fail name current_time _ Hfull) as [E _].
      rewrite Hs in E. discriminate. }
    split; [discriminate|]. intros resp [= <-]. split.
    { exists result. split; [done|]. subst result. unfold Webhook.process_webhook.
      cbn [fst]. rewrite lookup_insert_ne by done. rewrite lookup_insert_ne by done.
      by rewrite lookup_insert_eq. }
    split.
    { subst w. rewrite process_webhook_queue. cbn [Webhook.self Webhook.processing_queue].
      rewrite length_app. simpl. lia. }
    exists name. by split.
Qed.

(** X24.  What the endpoints submit is a record that wraps the client's JSON
    under ["data"]; the handlers read their fields from the top of the
    record, where they are not.  So the record of each of the four endpoints
    is routed to a result ["processed"], never to an error, and a posted
    system alert is answered with alert type and severity ["info"] whatever
    the client sent. *)
Theorem posted_webhook_is_read_at_the_top {P : Type}
    (str_http : Security.http_error -> string) (webhook_type : string)
    (client_ip credentials : string) (data : list (string * pyval))
    (current_time : Q) (t_received t_id : datetime)
    (api : Api.N8NIntegrationAPI P) (resp : Api.response) :
  let r := Api.webhook_endpoint str_http webhook_type client_ip credentials data
             current_time t_received t_id api in
  webhook_type ∈ ["system_alert"; "file_organization"; "content_analysis";
                  "productivity"] ->
  r.1 = Return resp ->
  exists l d,
    Webhook.objects (Api.webhook_handler api) !! l = None
    /\ Webhook.objects (Api.webhook_handler r.2) !! l = Some d
    /\ last (Webhook.processing_queue (Webhook.self (Api.webhook_handler r.2)))
       = Some l
    /\ d !! "data" = Some (PDict data)
    /\ d !! "processed" = Some (PBool false)
    /\ dict_get "status" (Webhook._route_webhook d).2 = Some (PStr "processed")
    /\ (webhook_type = "system_alert" ->
        dict_get "severity" (Webhook._route_webhook d).2 = Some (PStr "info")
        /\ dict_get "alert_type" (Webhook._route_webhook d).2
           = Some (PStr "info")).
Proof.
  cbv zeta. intros Hty. unfold Api.webhook_endpoint.
  destruct (Security.get_api_key_from_header _ _) as [name|]; [|discriminate].
  destruct (Api.validate_security _ _ _ _) as [[[]|] sm']; [|discriminate].
  intros _.
  set (d0 := <["source" := PStr "n8n"]>
               (<["data" := PDict data]> {["type" := PStr webhook_type]})).
  pose proof (new_object_fresh d0 (Api.webhook_handler api)) as Hfresh.
  unfold Api.new_object in *. cbv zeta. cbn [fst] in Hfresh.
  set (l := fresh (dom (Webhook.objects (Api.webhook_handler api)))) in *.
  unfold Webhook.process_webhook.
  cbn [fst snd Api.webhook_handler Webhook.objects Webhook.self
       Webhook.processing_queue].
  eexists l, _. split; [exact Hfresh|].
  split. { rewrite lookup_alter_eq, lookup_insert_eq. reflexivity. }
  split; [apply last_snoc|].
  set (d := <["webhook_id" := _]> _).
  assert (Hget : forall k dflt,
            k ∉ ["webhook_id"; "processed"; "received_at"; "source"; "data"; "type"] ->
            get k dflt d = dflt).
  { intros k dflt Hk. unfold get, d, d0.
    rewrite !lookup_insert_ne, lookup_singleton_ne; [done|..];
      intros <-; apply Hk; apply (bool_decide_unpack _); vm_compute; exact I. }
  assert (Htype : get "type" (PStr "unknown") d = PStr webhook_type).
  { unfold get, d, d0. do 5 (rewrite lookup_insert_ne by done).
    by rewrite lookup_singleton_eq. }
  split. { unfold d, d0. do 4 (rewrite lookup_insert_ne by done).
           by rewrite lookup_insert_eq. }
  split. { unfold d. rewrite lookup_insert_ne by done. by rewrite lookup_insert_eq. }
  clearbody d. unfold Webhook._route_webhook. rewrite Htype.
  apply elem_of_cons in Hty as [->|Hty].
  { change (Webhook.handler_for (PStr "system_alert"))
      with Webhook._handle_system_alert.
    unfold Webhook._handle_system_alert.
    rewrite (Hget "severity"), (Hget "alert_type");
      [|intros Hin; apply (bool_decide_pack _) in Hin; vm_compute in Hin;
        exact Hin..].
    cbn [Webhook.call_upper snd]. split; [reflexivity|]. intros _. by split. }
  apply elem_of_cons in Hty as [->|Hty].
  { change (Webhook.handler_for (PStr "file_organization"))
      with Webhook._handle_file_organization.
    split; [reflexivity|discriminate]. }
  apply elem_of_cons in Hty as [->|Hty].
  { change (Webhook.handler_for (PStr "content_analysis"))
      with Webhook._handle_content_analysis.
    split; [reflexivity|discriminate]. }
  apply elem_of_cons in Hty as [->|Hty].
  { change (Webhook.handler_for (PStr "productivity"))
      with Webhook._handle_generic_webhook.
    split; [reflexivity|discriminate]. }
  by apply elem_of_nil in Hty.
Qed.

(** A critical alert posted with the main key from the local host. *)
Lemma posted_webhook_is_read_at_the_top_witness :
  let api := Api.mkApi Security.init Webhook.init_world Samples.stub_manager in
  let r := Api.system_alert_webhook (fun _ => "error") "127.0.0.1"
             "sk_codealchemy_n8n_2025" [("severity", PStr "critical")]
             0%Q (Samples.at_us 1) (Samples.at_us 2) api in
  exists l d,
    Webhook.objects (Api.webhook_handler r.2) !! l = Some d
    /\ d !! "data" = Some (PDict [("severity", PStr "critical")])
    /\ dict_get "severity" (Webhook._route_webhook d).2 = Some (PStr "info").
Proof.
  cbv zeta. unfold Api.system_alert_webhook.
  destruct (Api.webhook_endpoint (fun _ => "error") "system_alert" "127.0.0.1"
              "sk_codealchemy_n8n_2025" [("severity", PStr "critical")]
              0%Q (Samples.at_us 1) (Samples.at_us 2)
              (Api.mkApi Security.init Webhook.init_world Samples.stub_manager)).1
    as [resp|e] eqn:E; [|vm_compute in E; discriminate E].
  destruct (posted_webhook_is_read_at_the_top (fun _ => "error") "system_alert"
              "127.0.0.1" "sk_codealchemy_n8n_2025"
              [("severity", PStr "critical")] 0%Q (Samples.at_us 1)
              (Samples.at_us 2)
              (Api.mkApi Security.init Webhook.init_world Samples.stub_manager)
              resp ltac:(apply (bool_decide_unpack _); vm_compute; exact I) E)
    as (l & d & _ & Hd & _ & Hdata & _ & _ & Hsev).
  exists l, d. split; [exact Hd|]. split; [exact Hdata|]. by apply Hsev.
Defined.

(** X25.  The endpoints that call a method of the agent manager (trigger,
    enable, disable): an error is the dependency's 401 or a 500 from the
    endpoint's own [except], and then the method was not called; otherwise
    the answer is what the method returned, also when it reports an unknown
    agent or a failure, which stay HTTP 200. *)
Theorem agent_endpoint_answers {P : Type}
    (str_http : Security.http_error -> string)
    (method : Agents.AgentManager P -> pydict * Agents.AgentManager P)
    (client_ip credentials : string) (current_time : Q)
    (api : Api.N8NIntegrationAPI P) :
  let r := Api.agent_endpoint str_http method client_ip credentials current_time
             api in
  (forall e,
     r.1 = Raise e ->
     Api.agent_manager r.2 = Api.agent_manager api
     /\ Api.webhook_handler r.2 = Api.webhook_handler api
     /\ (e = Security.Unauthorized
         \/ e = Security.HTTPException 500 (str_http Security.Forbidden)
         \/ e = Security.HTTPException 500 (str_http Security.RateLimited)))
  /\ (forall result,
        r.1 = Return result ->
        (result, Api.agent_manager r.2) = method (Api.agent_manager api)
        /\ Api.webhook_handler r.2 = Api.webhook_handler api
        /\ exists name,
             Security.validate_api_key credentials (Api.security_manager api)
             = Return name
             /\ last (Security.window_of name (Api.security_manager r.2))
                = Some current_time).
Proof.
  cbv zeta. unfold Api.agent_endpoint, Security.get_api_key_from_header.
  destruct (endpoint_security client_ip credentials current_time
              (Api.security_manager api))
    as [[Hout Hk]|(name & Hk & [[Hip Hs]|(Hip & sm' & [[Hs Hfull]|[Hs Hwin]])])];
    rewrite Hk, ?Hs.
  - split; [|discriminate]. intros e [= <-]. repeat split. by left.
  - split; [|discriminate]. intros e [= <-]. repeat split. right. by left.
  - split; [|discriminate]. intros e [= <-]. repeat split. right. by right.
  - destruct (method (Api.agent_manager api)) as [result m].
    split; [discriminate|]. intros ? [= <-]. repeat split. by exists name.
Qed.
